(** * Content-Based File Organizer: a shallow embedding of the per-file pipeline

    The development follows the Python sources

      - [src/text_extractor.py]  ([TextExtractor])
      - [src/llm_service.py]     ([LLMService])
      - [src/file_organizer.py]  ([FileOrganizer])
      - [src/file_processor.py]  ([FileProcessor])
      - [src/file_monitor.py]    ([FileMonitor])
      - [src/config.py]          ([Config])

    Python strings are sequences of Unicode code points, so a character is
    a code point ([N]) and a [str] is a list of them.  The few places where
    the interpreter consults the Unicode database ([str.isspace],
    [str.isalnum] behind the regex classes [\s], [\w] and [\b],
    [str.lower], [str.capitalize]) go through the interface [UnicodeDB],
    whose laws fix the behaviour on ASCII text.

    Everything the code does to the outside world is threaded through an
    explicit [World]: the set of existing paths, the readable content of
    files, the wall clock, the remote model, the outcome of each upcoming
    [os.rename] call, and the trace of sleeps and moves performed.
    The handler of the monitor counts its own pauses of half a second
    beside the world.  The configuration is a function of what surrounds
    the program: the environment variables, the configuration file as
    the YAML parser reads it, and the interpreter's [int].
    Calls to [logger] have no influence on results and are left out. *)

From Stdlib Require Import ZArith NArith Ascii String List Bool Lia.
From Stdlib Require PrimFloat.
From stdpp Require Import base decidable list gmap sets pretty.

Set Default Proof Using "Type".
Open Scope N_scope.

(** ** Python strings *)

Module Py.

(** A character is a code point, a string a list of them. *)
Abbreviation char := N (only parsing).
Abbreviation str := (list N) (only parsing).

Definition chr (a : ascii) : char := N_of_ascii a.

(** A literal of the source, as a [str]. *)
Definition lit (s : string) : str := map chr (list_ascii_of_string s).

Definition in_range (lo hi c : char) : bool := (lo <=? c) && (c <=? hi).

(** [c in chars] for a string used as a character set. *)
Definition char_in (chars : str) (c : char) : bool :=
  existsb (N.eqb c) chars.

Definition is_ascii (c : char) : bool := c <? 128.

Definition ascii_isupper (c : char) : bool := in_range 65 90 c.
Definition ascii_islower (c : char) : bool := in_range 97 122 c.
Definition ascii_isdigit (c : char) : bool := in_range 48 57 c.
Definition ascii_isalpha (c : char) : bool := ascii_isupper c || ascii_islower c.
Definition ascii_isalnum (c : char) : bool := ascii_isalpha c || ascii_isdigit c.

(** ASCII white space of CPython: TAB..CR, FS..US and SPACE. *)
Definition ascii_isspace (c : char) : bool :=
  in_range 9 13 c || in_range 28 32 c.

Definition ascii_lower (c : char) : char :=
  if ascii_isupper c then c + 32 else c.
Definition ascii_upper (c : char) : char :=
  if ascii_islower c then c - 32 else c.

(** [str.capitalize] on ASCII text: first character upper-cased, the
    rest lower-cased. *)
Definition ascii_capitalize (s : str) : str :=
  match s with
  | [] => []
  | c :: s' => ascii_upper c :: map ascii_lower s'
  end.

(** [s.lstrip(chars)], [s.rstrip(chars)] and [s.strip(chars)] for a
    membership test [p]. *)
Fixpoint lstrip_by (p : char -> bool) (s : str) : str :=
  match s with
  | [] => []
  | c :: s' => if p c then lstrip_by p s' else s
  end.

Definition rstrip_by (p : char -> bool) (s : str) : str :=
  rev (lstrip_by p (rev s)).

Definition strip_by (p : char -> bool) (s : str) : str :=
  rstrip_by p (lstrip_by p s).

(** [sep.join(parts)] *)
Fixpoint join (sep : str) (parts : list str) : str :=
  match parts with
  | [] => []
  | [p] => p
  | p :: ps => p ++ sep ++ join sep ps
  end.

(** [s[:n]] for a Python integer [n]: a negative bound counts from the
    end of the string. *)
Definition slice_to (n : Z) (s : str) : str :=
  if (n <? 0)%Z
  then take (length s - Z.to_nat (- n))%nat s
  else take (Z.to_nat n) s.

(** [s.split(sep)[0]] for a one-character separator. *)
Fixpoint first_field (sep : char) (s : str) : str :=
  match s with
  | [] => []
  | c :: s' => if c =? sep then [] else c :: first_field sep s'
  end.

(** [s.startswith(p)] *)
Fixpoint is_prefix (p s : str) : bool :=
  match p, s with
  | [], _ => true
  | _, [] => false
  | a :: p', b :: s' => (a =? b) && is_prefix p' s'
  end.

(** [needle in s] *)
Fixpoint contains (needle s : str) : bool :=
  is_prefix needle s ||
  match s with
  | [] => false
  | _ :: s' => contains needle s'
  end.

(** [s.rfind(".")] as Python returns it: the index of the last dot, or
    [-1]. *)
Fixpoint rfind_from (c : char) (s : str) (i : Z) (best : Z) : Z :=
  match s with
  | [] => best
  | d :: s' => rfind_from c s' (i + 1)%Z (if d =? c then i else best)
  end.

Definition rfind (c : char) (s : str) : Z := rfind_from c s 0%Z (-1)%Z.

(** [str(n)] / [f"{n}"] for an integer. *)
Definition str_of_Z (n : Z) : str := lit (pretty n).

(** [f"{n:0{w}d}"]-style zero padding, as [strftime] applies to its
    numeric fields. *)
Definition zero_pad (w : nat) (n : N) : str :=
  let d := lit (pretty n) in
  replicate (w - length d)%nat (chr "0") ++ d.

(** The maximal runs of characters that are not separators, in order;
    [cur] holds the run being read, latest character first. *)
Fixpoint fields_from (sep : char -> bool) (cur : str) (s : str) : list str :=
  match s with
  | [] => match cur with [] => [] | _ => [rev cur] end
  | c :: s' =>
      if sep c
      then match cur with
           | [] => fields_from sep [] s'
           | _ => rev cur :: fields_from sep [] s'
           end
      else fields_from sep (c :: cur) s'
  end.

Definition fields (sep : char -> bool) (s : str) : list str :=
  fields_from sep [] s.

(** The part of the Unicode database the program consults. *)
Class UnicodeDB := {
  isspace : char -> bool;
  isalnum : char -> bool;
  lower : str -> str;
  capitalize : str -> str;
  isspace_ascii : forall c, is_ascii c = true -> isspace c = ascii_isspace c;
  isalnum_ascii : forall c, is_ascii c = true -> isalnum c = ascii_isalnum c;
  lower_ascii :
    forall s, forallb is_ascii s = true -> lower s = map ascii_lower s;
  capitalize_ascii :
    forall s, forallb is_ascii s = true -> capitalize s = ascii_capitalize s
}.

Section WithUnicode.
Context {U : UnicodeDB}.

(** [s.strip()] *)
Definition strip (s : str) : str := strip_by isspace s.

(** [s.split()]: the maximal runs of non-space characters. *)
Definition split_ws (s : str) : list str := fields isspace s.

End WithUnicode.

(** The database restricted to ASCII: exact on ASCII text, which is all
    that the concrete runs below feed it. *)
Definition ascii_db : UnicodeDB := {|
  isspace := ascii_isspace;
  isalnum := ascii_isalnum;
  lower := map ascii_lower;
  capitalize := ascii_capitalize;
  isspace_ascii := fun _ _ => eq_refl;
  isalnum_ascii := fun _ _ => eq_refl;
  lower_ascii := fun _ _ => eq_refl;
  capitalize_ascii := fun _ _ => eq_refl
|}.

End Py.

Import Py.

(** ** The regular expressions of the sources *)

Module Re.

(** [re.sub(cls, '', s)] for a pattern that is one character class. *)
Definition delete_class (cls : char -> bool) (s : str) : str :=
  List.filter (fun c => negb (cls c)) s.

(** [re.sub(cls+, repl, s)]: every maximal run of the class becomes one
    copy of [repl]; [in_run] tells whether the previous character was
    part of a run already replaced. *)
Fixpoint replace_runs_from (cls : char -> bool) (repl : str)
    (in_run : bool) (s : str) : str :=
  match s with
  | [] => []
  | c :: s' =>
      if cls c
      then (if in_run then [] else repl) ++ replace_runs_from cls repl true s'
      else c :: replace_runs_from cls repl false s'
  end.

Definition replace_runs (cls : char -> bool) (repl : str) (s : str) : str :=
  replace_runs_from cls repl false s.

Section WithUnicode.
Context {U : UnicodeDB}.

(** [\w] *)
Definition is_word (c : char) : bool := isalnum c || (c =? chr "_").

(** [\b] between two neighbouring characters; [None] is an end of the
    string. *)
Definition boundary (prev next : option char) : bool :=
  xorb (from_option is_word false prev) (from_option is_word false next).

(** Length of the longest prefix matching [[a-zA-Z]*]. *)
Fixpoint letters_prefix (s : str) : nat :=
  match s with
  | c :: s' => if ascii_isalpha c then S (letters_prefix s') else O
  | [] => O
  end.

(** [[a-zA-Z]{4,}\b] at the head of [s], the repetition having taken
    [k] letters: accept if a boundary follows, otherwise give one
    letter back, never going below four. *)
Fixpoint back_off (s : str) (k : nat) : option nat :=
  match k with
  | O => None
  | S k' =>
      if (4 <=? k)%nat
      then if boundary (s !! k') (s !! k) then Some k else back_off s k'
      else None
  end.

(** One attempt of [\b[a-zA-Z]{4,}\b] at the head of [s], [prev] being
    the character before it. *)
Definition match_here (prev : option char) (s : str) : option str :=
  if boundary prev (head s)
  then (fun k => take k s) <$> back_off s (letters_prefix s)
  else None.

(** The scan of [re.findall]: try every position from the left; after
    a match resume right behind it ([skip] characters still belong to
    the last match). *)
Fixpoint findall_from (prev : option char) (skip : nat) (s : str)
    : list str :=
  match s with
  | [] => []
  | c :: s' =>
      match skip with
      | S k => findall_from (Some c) k s'
      | O =>
          match match_here prev s with
          | Some m => m :: findall_from (Some c) (length m - 1) s'
          | None => findall_from (Some c) O s'
          end
      end
  end.

(** [re.findall(r'\b[a-zA-Z]{4,}\b', s)] *)
Definition findall_words (s : str) : list str := findall_from None O s.

(** [\s] *)
Definition is_space (c : char) : bool := isspace c.

End WithUnicode.

End Re.

(** ** pathlib *)

Module PathLib.

(** A path is the list of its components, the last one being the file
    name.  Every name the program joins to a directory is free of
    separators (see [_sanitize_filename]), hence one component. *)
Abbreviation Path := (list (list N)) (only parsing).

Definition name (p : Path) : str := List.last p [].
Definition parent (p : Path) : Path := removelast p.

(** [p / n] *)
Definition joinpath (p : Path) (n : str) : Path := p ++ [n].

(** [PurePath.suffix], as pathlib defines it up to Python 3.13: from the
    last dot of the name on, unless that dot is the first or the last
    character of the name. *)
Definition suffix_of_name (nm : str) : str :=
  let i := rfind (chr ".") nm in
  if ((0 <? i) && (i <? Z.of_nat (length nm) - 1))%Z
  then drop (Z.to_nat i) nm
  else [].

(** [PurePath.stem] *)
Definition stem_of_name (nm : str) : str :=
  let i := rfind (chr ".") nm in
  if ((0 <? i) && (i <? Z.of_nat (length nm) - 1))%Z
  then take (Z.to_nat i) nm
  else nm.

Definition suffix (p : Path) : str := suffix_of_name (name p).
Definition stem (p : Path) : str := stem_of_name (name p).

End PathLib.

Import PathLib.

(** ** datetime *)

Record datetime := {
  year : N; month : N; day : N;
  hour : N; minute : N; second : N
}.

(** [dt.strftime("%Y%m%d_%H%M%S")]: every field in decimal, padded with
    zeros to its width (for years below 1000 the padding of [%Y] depends
    on the platform; the clock never shows such a year). *)
Definition strftime_Ymd_HMS (dt : datetime) : str :=
  zero_pad 4 (year dt) ++ zero_pad 2 (month dt) ++ zero_pad 2 (day dt)
  ++ lit "_"
  ++ zero_pad 2 (hour dt) ++ zero_pad 2 (minute dt) ++ zero_pad 2 (second dt).

(** ** Exceptions *)

Inductive extraction_failure :=
| NotFound | Unsupported | CorruptPdf | PdfFailed | EncodingFailure
| UnexpectedExtraction.

Inductive organize_failure :=
| SourceNotFound | PermissionExhausted | OSFailure.

Inductive processing_failure :=
| NamingFailed | OrganizeFailed (cause : organize_failure) | UnexpectedFailure.

(** The exception classes that occur: the four of the program, and those
    of the interpreter and its libraries that the program handles. *)
Inductive exn :=
| TextExtractionError (why : extraction_failure)
| LLMServiceError
| FileOrganizerError (why : organize_failure)
| FileProcessorError (why : processing_failure)
| PermissionError
| OSError
| PdfReadError
| UnicodeDecodeError
| OtherException.

(** ** The world outside the program *)

(** What [PyPDF2.PdfReader] makes of a file: the text of each page, or
    one of its errors. *)
Inductive pdf_parse :=
| PdfPages (pages : list str)
| PdfUnreadable
| PdfCrashes.

Inductive encoding := utf_8 | latin_1 | cp1252.

(** What [open(path, 'r', encoding=enc).read()] gives. *)
Inductive read_outcome :=
| Decoded (text : str)
| DecodeFails
| ReadFails.

Record file_content := {
  as_pdf : pdf_parse;
  as_text : encoding -> read_outcome
}.

(** A request body of [_bedrock_filename], before [json.dumps]. *)
Inductive request_body :=
| ClaudeBody (prompt : str) (max_tokens_to_sample : Z)
| GenericBody (prompt : str) (max_tokens : Z).

(** The parsed response body: the two fields the program looks at. *)
Record response_body := {
  completion : option str;
  text : option str
}.

(** What the operating system answers to one [os.rename]. *)
Inductive rename_fault := NoFault | PermissionDenied | OtherOSError.

Record World := {
  files : gset Path;                 (* the paths that exist *)
  contents : Path -> file_content;   (* what reading each of them gives *)
  now : datetime;                    (* the local time the clock shows *)
  invoke_model : str -> request_body -> option response_body;
                                     (* the remote model; [None]: the call raises *)
  faults : list rename_fault;        (* answers to the coming [os.rename] calls *)
  slept : list Z;                    (* seconds of each [time.sleep], latest first *)
  attempts : nat;                    (* [os.rename] calls made so far *)
  moved : list (Path * Path)         (* renames carried out, latest first *)
}.

(** ** Computations: state, exceptions, and loops that may run on *)

Inductive result (A : Type) :=
| Ok (a : A)
| Raise (e : exn)
| Diverge.
Arguments Ok {A} a.
Arguments Raise {A} e.
Arguments Diverge {A}.

Definition M (A : Type) : Type := World -> result A * World.

Definition ret {A} (a : A) : M A := fun w => (Ok a, w).
Definition raise {A} (e : exn) : M A := fun w => (Raise e, w).
Definition diverge {A} : M A := fun w => (Diverge, w).

Definition bind {A B} (m : M A) (k : A -> M B) : M B :=
  fun w =>
    match m w with
    | (Ok a, w') => k a w'
    | (Raise e, w') => (Raise e, w')
    | (Diverge, w') => (Diverge, w')
    end.

(** [try: m  except <handles>: h] *)
Definition try_except {A} (m : M A) (handles : exn -> bool) (h : exn -> M A)
    : M A :=
  fun w =>
    match m w with
    | (Raise e, w') => if handles e then h e w' else (Raise e, w')
    | r => r
    end.

Declare Scope py_scope.
Delimit Scope py_scope with py.
Notation "x <- m ;; k" := (bind m (fun x => k))
  (at level 100, m at next level, right associativity) : py_scope.
Notation "'do' m ;; k" := (bind m (fun _ => k))
  (at level 100, m at next level, right associativity) : py_scope.
Open Scope py_scope.

Definition any_exception (e : exn) : bool := true.

(** *** Primitives *)

(** [path.exists()], for a path that the operating system lets be
    examined: the answer is whether the path exists.  ([exists()] can
    also raise, for a path in a directory that may not be searched, say;
    the program has no handler for that, and such paths are not among
    those of a [World].) *)
Definition path_exists (p : Path) : M bool :=
  fun w => (Ok (bool_decide (p ∈ files w)), w).

(** [path.mkdir(parents=True, exist_ok=True)], where the folder can be
    created or is there already.  (The call can also raise, when the
    path is taken by a regular file, say; the program has no handler
    for that, and a [World] holds no such case.) *)
Definition mkdir (p : Path) : M unit :=
  fun w => (Ok tt,
    {| files := {[p]} ∪ files w; contents := contents w; now := now w;
       invoke_model := invoke_model w; faults := faults w;
       slept := slept w; attempts := attempts w; moved := moved w |}).

(** [time.sleep(secs)] *)
Definition sleep (secs : Z) : M unit :=
  fun w => (Ok tt,
    {| files := files w; contents := contents w; now := now w;
       invoke_model := invoke_model w; faults := faults w;
       slept := secs :: slept w; attempts := attempts w; moved := moved w |}).

(** [datetime.now()] *)
Definition datetime_now : M datetime := fun w => (Ok (now w), w).

(** [os.rename(source, destination)]: the next planned answer decides; a
    call that is let through fails all the same when the source is gone. *)
Definition os_rename (source destination : Path) : M unit :=
  fun w =>
    let w1 :=
      {| files := files w; contents := contents w; now := now w;
         invoke_model := invoke_model w; faults := tail (faults w);
         slept := slept w; attempts := S (attempts w); moved := moved w |} in
    match head (faults w) with
    | Some PermissionDenied => (Raise PermissionError, w1)
    | Some OtherOSError => (Raise OSError, w1)
    | Some NoFault | None =>
        if bool_decide (source ∈ files w)
        then (Ok tt,
          {| files := {[destination]} ∪ (files w ∖ {[source]});
             contents := fun p =>
               if bool_decide (p = destination) then contents w source
               else contents w p;
             now := now w; invoke_model := invoke_model w;
             faults := tail (faults w); slept := slept w;
             attempts := S (attempts w);
             moved := (source, destination) :: moved w |})
        else (Raise OSError, w1)
    end.

(** [range(n)] *)
Definition range (n : Z) : list Z := map Z.of_nat (seq 0 (Z.to_nat n)).

(** Truth value of a Python sequence. *)
Definition truthy {A} (l : list A) : bool :=
  match l with [] => false | _ => true end.

(** ** src/text_extractor.py *)

Module TextExtractor.

Record t := { max_length : Z }.

(** [PyPDF2.PdfReader(f)] and [page.extract_text()] over all pages. *)
Definition read_pdf_pages (file_path : Path) : M (list str) :=
  fun w =>
    match as_pdf (contents w file_path) with
    | PdfPages pages => (Ok pages, w)
    | PdfUnreadable => (Raise PdfReadError, w)
    | PdfCrashes => (Raise OtherException, w)
    end.

(** [open(file_path, 'r', encoding=enc)] and [f.read()]. *)
Definition read_text (file_path : Path) (enc : encoding) : M str :=
  fun w =>
    match as_text (contents w file_path) enc with
    | Decoded txt => (Ok txt, w)
    | DecodeFails => (Raise UnicodeDecodeError, w)
    | ReadFails => (Raise OtherException, w)
    end.

Section WithUnicode.
Context {U : UnicodeDB}.

Definition _extract_from_pdf (file_path : Path) : M str :=
  try_except
    (pages <- read_pdf_pages file_path ;;
     let text_parts := List.filter truthy pages in
     let text := join (lit " ") text_parts in
     if negb (truthy (strip text)) then ret [] else ret text)
    any_exception
    (fun e =>
       match e with
       | PdfReadError => raise (TextExtractionError CorruptPdf)
       | _ => raise (TextExtractionError PdfFailed)
       end).

(** The [for encoding in encodings] loop: the first encoding that
    reads the file wins, every failure moves on to the next. *)
Fixpoint try_encodings (file_path : Path) (encodings : list encoding)
    : M str :=
  match encodings with
  | [] => raise (TextExtractionError EncodingFailure)
  | enc :: rest =>
      try_except (read_text file_path enc) any_exception
        (fun _ => try_encodings file_path rest)
  end.

Definition _extract_from_text (file_path : Path) : M str :=
  try_encodings file_path [utf_8; latin_1; cp1252].

(** The dispatch on the extension inside [extract_text]: the text of
    the file before truncation. *)
Definition source_text (file_path : Path) : M str :=
  let extension := lower (suffix file_path) in
  if bool_decide (extension = lit ".pdf")
  then _extract_from_pdf file_path
  else if bool_decide (extension ∈ [lit ".txt"; lit ".text"])
  then _extract_from_text file_path
  else raise (TextExtractionError Unsupported).

Definition extract_text (self : t) (file_path : Path) : M str :=
  found <- path_exists file_path ;;
  if negb found then raise (TextExtractionError NotFound) else
  try_except
    (text <- source_text file_path ;;
     let truncated := slice_to (max_length self) text in
     ret truncated)
    any_exception
    (fun e =>
       match e with
       | TextExtractionError _ => raise e
       | _ => raise (TextExtractionError UnexpectedExtraction)
       end).

End WithUnicode.

End TextExtractor.

(** ** src/llm_service.py *)

Module LLMService.

Record t := {
  mode : str;
  bedrock_model : option str;
  bedrock_region : option str;
  max_tokens : Z;
  _bedrock_client : bool      (* whether a client object is held *)
}.

(** How the two steps of [_initialize_bedrock] end: [import boto3]
    raises [ImportError] ([BotoMissing]); or [boto3.client] raises
    [NoCredentialsError] or [PartialCredentialsError]
    ([CredentialsErrorRaised]); or [boto3.client] raises another
    exception, such as the one for a region that is not set
    ([ClientRaises]); or the client is created ([BotoReady]).  Which of
    the last three happens is up to [boto3], and is not a matter of
    credentials being there or not: as a rule [boto3.client] creates a
    client without looking for them. *)
Inductive boto_env :=
  BotoMissing | CredentialsErrorRaised | ClientRaises | BotoReady.

(** [None]: the exception of [boto3.client] has no handler and leaves
    the method. *)
Definition _initialize_bedrock (self : t) (env : boto_env) : option t :=
  match env with
  | BotoReady =>
      Some {| mode := mode self; bedrock_model := bedrock_model self;
              bedrock_region := bedrock_region self;
              max_tokens := max_tokens self; _bedrock_client := true |}
  | CredentialsErrorRaised | BotoMissing =>
      Some {| mode := lit "simulated"; bedrock_model := bedrock_model self;
              bedrock_region := bedrock_region self;
              max_tokens := max_tokens self; _bedrock_client := false |}
  | ClientRaises => None
  end.

(** [None]: the constructor raises, and no service is built. *)
Definition __init__ (mode : str) (bedrock_model bedrock_region : option str)
    (max_tokens : Z) (env : boto_env) : option t :=
  let self := {| mode := mode; bedrock_model := bedrock_model;
                 bedrock_region := bedrock_region; max_tokens := max_tokens;
                 _bedrock_client := false |} in
  if bool_decide (mode = lit "bedrock")
  then _initialize_bedrock self env
  else Some self.

Definition _fallback_filename : M str :=
  dt <- datetime_now ;;
  let timestamp := strftime_Ymd_HMS dt in
  ret (lit "document_" ++ timestamp).

Definition common_words : gset str :=
  list_to_set (map lit
    [ "the"; "and"; "for"; "that"; "this"; "with"; "from"; "have";
      "will"; "your"; "are"; "not"; "but"; "can"; "was"; "were";
      "been"; "has"; "had"; "does"; "did"; "would"; "could"; "should";
      "about"; "into"; "through"; "during"; "before"; "after"; "above";
      "below"; "between"; "under"; "again"; "further"; "then"; "once"
    ]%string).

(** The loop that fills [unique_keywords], with its [break]. *)
Fixpoint collect_unique (keywords : list str)
    (unique_keywords : list str) (seen : gset str) : list str :=
  match keywords with
  | [] => unique_keywords
  | word :: rest =>
      let '(unique_keywords, seen) :=
        if bool_decide (word ∉ seen)
        then (unique_keywords ++ [word], {[word]} ∪ seen)
        else (unique_keywords, seen) in
      if (5 <=? length unique_keywords)%nat
      then unique_keywords
      else collect_unique rest unique_keywords seen
  end.

(** [[a-zA-Z0-9_]] *)
Definition name_char (c : char) : bool :=
  ascii_isalnum c || (c =? chr "_").

Definition nl : char := 10.

Definition prompt_for (content_sample : str) : str :=
  lit "Based on the following text content, generate a short, descriptive filename (3-5 words, no file extension). "
  ++ [nl]
  ++ lit "Use underscores between words. Only respond with the filename, nothing else."
  ++ [nl; nl] ++ lit "Content:" ++ [nl]
  ++ slice_to 500 content_sample
  ++ [nl; nl] ++ lit "Filename:".

(** [self._bedrock_client.invoke_model(...)] followed by
    [json.loads(response['body'].read())]. *)
Definition call_bedrock (model_id : str) (body : request_body)
    : M response_body :=
  fun w =>
    match invoke_model w model_id body with
    | Some r => (Ok r, w)
    | None => (Raise OtherException, w)
    end.

Section WithUnicode.
Context {U : UnicodeDB}.

Definition keywords_of (content : str) : list str :=
  let words := Re.findall_words (lower content) in
  List.filter (fun w => bool_decide (w ∉ common_words)) words.

Definition _simulate_filename (content_sample : str) : M str :=
  let content := strip content_sample in
  let keywords := keywords_of content in
  let unique_keywords := collect_unique keywords [] ∅ in
  if truthy unique_keywords
  then ret (join (lit "_") (map capitalize (take 3 unique_keywords)))
  else
    let first_words := take 3 (split_ws content) in
    let last_resort := _fallback_filename in
    if truthy first_words
    then
      let filename := join (lit "_") (map capitalize first_words) in
      let filename :=
        Re.delete_class (fun c => negb (name_char c)) filename in
      if truthy filename then ret filename else last_resort
    else last_resort.

Definition _bedrock_filename (self : t) (content_sample : str) : M str :=
  if negb (_bedrock_client self)
  then _simulate_filename content_sample
  else
    try_except
      (let prompt := prompt_for content_sample in
       model <- match bedrock_model self with
                | Some m => ret m
                | None => raise OtherException
                end ;;
       let is_claude := contains (lit "claude") (lower model) in
       let body :=
         if is_claude
         then ClaudeBody
                ([nl; nl] ++ lit "Human: " ++ prompt
                 ++ [nl; nl] ++ lit "Assistant:")
                (max_tokens self)
         else GenericBody prompt (max_tokens self) in
       response_body <- call_bedrock model body ;;
       let filename :=
         if is_claude
         then strip (default [] (completion response_body))
         else strip (default [] (text response_body)) in
       let filename := first_field nl filename in
       let filename :=
         Re.delete_class
           (fun c => negb (name_char c || Re.is_space c || (c =? chr "-")))
           filename in
       let filename := Re.replace_runs Re.is_space (lit "_") filename in
       if truthy filename then ret filename else _fallback_filename)
      any_exception
      (fun _ => raise LLMServiceError).

(** The body of the [try] in [generate_filename]: the generator of
    the active mode. *)
Definition generator (self : t) (content_sample : str) : M str :=
  if bool_decide (mode self = lit "simulated")
  then _simulate_filename content_sample
  else if bool_decide (mode self = lit "bedrock")
  then _bedrock_filename self content_sample
  else _fallback_filename.

Definition generate_filename (self : t) (content_sample : str)
    (original_filename : option str) : M str :=
  if negb (truthy content_sample) || negb (truthy (strip content_sample))
  then _fallback_filename
  else
    try_except (generator self content_sample) any_exception
      (fun _ => _fallback_filename).

End WithUnicode.

End LLMService.

(** ** src/file_organizer.py *)

Module FileOrganizer.

Record t := { organized_path : Path }.

(** The character class of [invalid_chars]: the nine characters
    slash, backslash, colon, star, question mark, double quote (code
    34), less-than, greater-than and bar, and the ranges 0x00-0x1f and
    0x7f-0x9f. *)
Definition invalid_chars (c : char) : bool :=
  char_in (lit "/\:*?<>|") c || (c =? 34)
  || in_range 0 31 c || in_range 127 159 c.

Definition _sanitize_filename (filename : str) : str :=
  let sanitized := Re.delete_class invalid_chars filename in
  let sanitized := strip_by (char_in (lit ". ")) sanitized in
  if negb (truthy sanitized) then lit "unnamed" else sanitized.

(** The name probed at a given value of [counter]. *)
Definition numbered (parent : Path) (stem suffix : str) (counter : Z) : Path :=
  joinpath parent (stem ++ lit "_" ++ str_of_Z counter ++ suffix).

(** The [while True] loop of [_handle_conflict], run for at most [fuel]
    rounds; [None] when the rounds are used up. *)
Fixpoint probe (existing : gset Path) (parent : Path) (stem suffix : str)
    (fuel : nat) (counter : Z) : option Path :=
  match fuel with
  | O => None
  | S fuel' =>
      let new_path := numbered parent stem suffix counter in
      if bool_decide (new_path ∉ existing)
      then Some new_path
      else probe existing parent stem suffix fuel' (counter + 1)
  end.

Definition _handle_conflict (fuel : nat) (target_path : Path) : M Path :=
  found <- path_exists target_path ;;
  if negb found then ret target_path else
  let stem := stem target_path in
  let suffix := suffix target_path in
  let parent := parent target_path in
  fun w =>
    match probe (files w) parent stem suffix fuel 1 with
    | Some new_path => ret new_path w
    | None => diverge w
    end.

(** The [for attempt in range(retries)] loop of [_move_with_retry]. *)
Fixpoint move_attempts (source destination : Path) (retries : Z)
    (attempt_numbers : list Z) : M bool :=
  match attempt_numbers with
  | [] => ret false
  | attempt :: rest =>
      try_except
        (do os_rename source destination ;; ret true)
        (fun e => match e with PermissionError | OSError => true | _ => false end)
        (fun e =>
           match e with
           | PermissionError =>
               if (attempt <? retries - 1)%Z
               then do sleep 2 ;;
                    move_attempts source destination retries rest
               else raise (FileOrganizerError PermissionExhausted)
           | _ => raise (FileOrganizerError OSFailure)
           end)
  end.

Definition _move_with_retry (source destination : Path) (retries : Z)
    : M bool :=
  move_attempts source destination retries (range retries).

Definition default_retries : Z := 3.

Definition organize_file (fuel : nat) (self : t) (file_path : Path)
    (new_name : str) : M bool :=
  let source_path := file_path in
  found <- path_exists source_path ;;
  if negb found then raise (FileOrganizerError SourceNotFound) else
  let original_extension := suffix source_path in
  let sanitized_name := _sanitize_filename new_name in
  let new_filename := sanitized_name ++ original_extension in
  do mkdir (organized_path self) ;;
  let target_path := joinpath (organized_path self) new_filename in
  target_path <- _handle_conflict fuel target_path ;;
  success <- _move_with_retry source_path target_path default_retries ;;
  ret success.

End FileOrganizer.

(** ** src/file_processor.py *)

Module FileProcessor.

Record t := {
  extractor : TextExtractor.t;
  llm_service : LLMService.t;
  organizer : FileOrganizer.t
}.

Section WithUnicode.
Context {U : UnicodeDB}.

(** Step 1 with its handler: an extraction error leaves an empty
    content sample. *)
Definition extract_step (self : t) (file_path : Path) : M str :=
  try_except
    (TextExtractor.extract_text (extractor self) file_path)
    (fun e => match e with TextExtractionError _ => true | _ => false end)
    (fun _ => ret []).

Definition naming_step (self : t) (content_sample original_filename : str)
    : M str :=
  try_except
    (LLMService.generate_filename (llm_service self) content_sample
       (Some original_filename))
    (fun e => match e with LLMServiceError => true | _ => false end)
    (fun _ => raise (FileProcessorError NamingFailed)).

Definition organize_step (fuel : nat) (self : t) (file_path : Path)
    (new_name : str) : M bool :=
  try_except
    (FileOrganizer.organize_file fuel (organizer self) file_path new_name)
    (fun e => match e with FileOrganizerError _ => true | _ => false end)
    (fun e =>
       match e with
       | FileOrganizerError why => raise (FileProcessorError (OrganizeFailed why))
       | _ => raise e
       end).

Definition process_file (fuel : nat) (self : t) (file_path : Path)
    : M unit :=
  let original_filename := name file_path in
  try_except
    (content_sample <- extract_step self file_path ;;
     new_name <- naming_step self content_sample original_filename ;;
     do organize_step fuel self file_path new_name ;;
     ret tt)
    any_exception
    (fun e =>
       match e with
       | FileProcessorError _ => raise e
       | _ => raise (FileProcessorError UnexpectedFailure)
       end).

End WithUnicode.

End FileProcessor.

(** ** src/file_monitor.py *)

Module FileMonitor.

(** A file-system event of [watchdog], as far as the handler looks at
    it. *)
Record event := { is_directory : bool; src_path : Path }.

(** What the handler works on: the world, and the number of pauses of
    half a second ([time.sleep(0.5)]) made so far. *)
Record handler_state := { world : World; pauses : nat }.

Definition SUPPORTED_EXTENSIONS : gset (list N) :=
  {[ lit ".pdf"; lit ".txt"; lit ".text" ]}.

Section WithUnicode.
Context {U : UnicodeDB}.

(** [FileEventHandler.on_created]; the [except Exception] around the
    pause and the processing only logs. *)
Definition on_created (fuel : nat) (processor : FileProcessor.t)
    (ev : event) (s : handler_state) : result unit * handler_state :=
  if is_directory ev then (Ok tt, s) else
  let file_path := src_path ev in
  let extension := lower (suffix file_path) in
  if bool_decide (extension ∈ SUPPORTED_EXTENSIONS)
  then
    let paused := S (pauses s) in
    match FileProcessor.process_file fuel processor file_path (world s) with
    | (Ok _, w') => (Ok tt, {| world := w'; pauses := paused |})
    | (Raise _, w') => (Ok tt, {| world := w'; pauses := paused |})
    | (Diverge, w') => (Diverge, {| world := w'; pauses := paused |})
    end
  else (Ok tt, s).

End WithUnicode.

End FileMonitor.

(** ** src/config.py *)

Module Config.

(** The objects a configuration holds, which are those that
    [yaml.safe_load] builds: [None], booleans, integers, floats,
    strings, lists and dictionaries; [VOther] stands for an object of
    any other type (a date, a byte string, a set).  The keys of a
    dictionary are strings, as are all the keys the program looks up. *)
#[warnings="-register-all"]
Inductive value :=
| VNone
| VBool (b : bool)
| VInt (n : Z)
| VFloat (x : PrimFloat.float)
| VStr (s : list N)
| VList (items : list value)
| VDict (entries : list (list N * value))
| VOther.

(** A dictionary: its entries in the order of insertion, one per key. *)
Abbreviation dict := (list (list N * value)) (only parsing).

(** [d.get(key)] *)
Fixpoint dict_get (d : dict) (key : str) : option value :=
  match d with
  | [] => None
  | (k, v) :: rest =>
      if bool_decide (k = key) then Some v else dict_get rest key
  end.

(** [d[key] = v] *)
Fixpoint dict_set (d : dict) (key : str) (v : value) : dict :=
  match d with
  | [] => [(key, v)]
  | (k, u) :: rest =>
      if bool_decide (k = key) then (k, v) :: rest
      else (k, u) :: dict_set rest key v
  end.

(** The messages of [ConfigurationError]. *)
Inductive config_failure :=
| FileNotFound
| NotADictionary
| YamlParseFailed
| FileReadFailed
| NotAnInteger (variable : string)
| InvalidLlmMode
| FileTypesNotAList
| InvalidFileType
| NotPositive (setting : string)
| Negative (setting : string)
| InvalidLogLevel.

Inductive error :=
| ConfigurationError (why : config_failure)
| TypeError
| KeyError
| OtherError.

Inductive outcome (A : Type) :=
| Return (a : A)
| Throw (e : error).
Arguments Return {A} a.
Arguments Throw {A} e.

Definition and_then {A B} (m : outcome A) (k : A -> outcome B) : outcome B :=
  match m with
  | Return a => k a
  | Throw e => Throw e
  end.

Declare Scope config_scope.
Delimit Scope config_scope with config.
Notation "x <- m ;; k" := (and_then m (fun x => k))
  (at level 100, m at next level, right associativity) : config_scope.
Notation "'do' m ;; k" := (and_then m (fun _ => k))
  (at level 100, m at next level, right associativity) : config_scope.
Local Open Scope config_scope.

(** [obj[key]] for a string [key]. *)
Definition getitem (obj : value) (key : str) : outcome value :=
  match obj with
  | VDict d =>
      match dict_get d key with
      | Some v => Return v
      | None => Throw KeyError
      end
  | _ => Throw TypeError
  end.

(** [obj[key] = v] for a string [key]. *)
Definition setitem (obj : value) (key : str) (v : value) : outcome value :=
  match obj with
  | VDict d => Return (VDict (dict_set d key v))
  | _ => Throw TypeError
  end.

(** [obj[k1]...[kn]] *)
Fixpoint get_path (obj : value) (path : list (list N)) : outcome value :=
  match path with
  | [] => Return obj
  | key :: rest => sub <- getitem obj key ;; get_path sub rest
  end.

(** [obj[k1]...[kn] = v]: the subscripts but the last are read, the
    last one is stored into; the object reached is changed in place,
    which here rebuilds the objects around it. *)
Fixpoint set_path (obj : value) (path : list (list N)) (v : value)
    : outcome value :=
  match path with
  | [] => Return v
  | [key] => setitem obj key v
  | key :: rest =>
      sub <- getitem obj key ;;
      sub <- set_path sub rest v ;;
      setitem obj key sub
  end.

(** [self._config[k1]...[kn]] and [self._config[k1]...[kn] = v];
    [self._config] is a dictionary throughout. *)
Definition lookup (config : dict) (path : list string) : outcome value :=
  get_path (VDict config) (map lit path).

Definition assign (config : dict) (path : list string) (v : value)
    : outcome dict :=
  obj <- set_path (VDict config) (map lit path) v ;;
  match obj with
  | VDict d => Return d
  | _ => Return config
  end.

Definition DEFAULTS : dict :=
  [ (lit "monitoring", VDict
      [ (lit "downloads_path", VStr (lit "~/Downloads"));
        (lit "organized_path", VStr (lit "~/Downloads/Organized"));
        (lit "file_types", VList [VStr (lit "pdf"); VStr (lit "txt")]) ]);
    (lit "llm", VDict
      [ (lit "mode", VStr (lit "simulated"));
        (lit "bedrock", VDict
          [ (lit "model", VStr (lit "anthropic.claude-v2"));
            (lit "region", VStr (lit "us-east-1"));
            (lit "max_tokens", VInt 50) ]) ]);
    (lit "processing", VDict
      [ (lit "content_sample_length", VInt 1000);
        (lit "retry_attempts", VInt 3);
        (lit "retry_delay", VInt 2) ]);
    (lit "logging", VDict
      [ (lit "level", VStr (lit "INFO"));
        (lit "format", VStr (lit
           "%(asctime)s - %(name)s - %(levelname)s - %(message)s")) ]) ].

(** [_merge_config]: the loop over [override.items()], and inside it
    the call on a pair of dictionaries found under the same key. *)
Fixpoint merge_items (base : dict) (override : value) {struct override}
    : dict :=
  match override with
  | VDict items =>
      (fix loop (base : dict) (items : dict) {struct items} : dict :=
         match items with
         | [] => base
         | (key, v) :: rest =>
             loop
               match dict_get base key, v with
               | Some (VDict sub), VDict _ =>
                   dict_set base key (VDict (merge_items sub v))
               | _, _ => dict_set base key v
               end
               rest
         end) base items
  | _ => base
  end.

Definition _merge_config (base override : dict) : dict :=
  merge_items base (VDict override).

(** What there is at the path of the configuration file. *)
Inductive yaml_file :=
| Missing                      (* [path.exists()] is false *)
| Unreadable                   (* [open] or the read raises [IOError] *)
| Malformed                    (* [yaml.safe_load] raises [YAMLError] *)
| Crashes                      (* another exception while reading *)
| Parsed (document : value).

(** What the program finds around it: the environment variables, the
    files, and the interpreter's [int] on strings ([None]: it raises
    [ValueError]). *)
Record surroundings := {
  getenv : list N -> option (list N);
  yaml_at : list N -> yaml_file;
  int_ : list N -> option Z
}.

Definition _load_yaml (around : surroundings) (config : dict)
    (config_path : str) : outcome dict :=
  match yaml_at around config_path with
  | Missing => Throw (ConfigurationError FileNotFound)
  | Unreadable => Throw (ConfigurationError FileReadFailed)
  | Malformed => Throw (ConfigurationError YamlParseFailed)
  | Crashes => Throw OtherError
  | Parsed VNone => Return config
  | Parsed (VDict yaml_config) => Return (_merge_config config yaml_config)
  | Parsed _ => Throw (ConfigurationError NotADictionary)
  end.

(** [if env_val := os.getenv(variable): self._config[...] = env_val] *)
Definition override_str (around : surroundings) (variable : string)
    (path : list string) (config : dict) : outcome dict :=
  match getenv around (lit variable) with
  | Some env_val =>
      if truthy env_val then assign config path (VStr env_val)
      else Return config
  | None => Return config
  end.

(** The same with [int(env_val)], a [ValueError] becoming a
    [ConfigurationError]. *)
Definition override_int (around : surroundings) (variable : string)
    (path : list string) (config : dict) : outcome dict :=
  match getenv around (lit variable) with
  | Some env_val =>
      if truthy env_val
      then match int_ around env_val with
           | Some n => assign config path (VInt n)
           | None => Throw (ConfigurationError (NotAnInteger variable))
           end
      else Return config
  | None => Return config
  end.

Definition _load_env_overrides (around : surroundings) (config : dict)
    : outcome dict :=
  config <- override_str around "DOWNLOADS_PATH"
              ["monitoring"; "downloads_path"] config ;;
  config <- override_str around "ORGANIZED_PATH"
              ["monitoring"; "organized_path"] config ;;
  config <- override_str around "LLM_MODE" ["llm"; "mode"] config ;;
  config <- override_str around "BEDROCK_MODEL"
              ["llm"; "bedrock"; "model"] config ;;
  config <- override_str around "BEDROCK_REGION"
              ["llm"; "bedrock"; "region"] config ;;
  config <- override_int around "BEDROCK_MAX_TOKENS"
              ["llm"; "bedrock"; "max_tokens"] config ;;
  config <- override_int around "CONTENT_SAMPLE_LENGTH"
              ["processing"; "content_sample_length"] config ;;
  config <- override_int around "RETRY_ATTEMPTS"
              ["processing"; "retry_attempts"] config ;;
  config <- override_int around "RETRY_DELAY"
              ["processing"; "retry_delay"] config ;;
  override_str around "LOG_LEVEL" ["logging"; "level"] config.

(** [v in names] for a list of string literals. *)
Definition is_one_of (v : value) (names : list string) : bool :=
  match v with
  | VStr s => bool_decide (s ∈ map lit names)
  | _ => false
  end.

(** [v <= 0] and [v < 0]: numbers compare ([True] is 1 and [False] is
    0), any other object raises [TypeError]. *)
Definition le_zero (v : value) : outcome bool :=
  match v with
  | VInt n => Return (n <=? 0)%Z
  | VBool b => Return (negb b)
  | VFloat x => Return (PrimFloat.leb x PrimFloat.zero)
  | _ => Throw TypeError
  end.

Definition lt_zero (v : value) : outcome bool :=
  match v with
  | VInt n => Return (n <? 0)%Z
  | VBool b => Return false
  | VFloat x => Return (PrimFloat.ltb x PrimFloat.zero)
  | _ => Throw TypeError
  end.

Definition is_str (v : value) : bool :=
  match v with VStr _ => true | _ => false end.

(** The [for file_type in file_types] loop. *)
Fixpoint check_file_types (file_types : list value) : outcome unit :=
  match file_types with
  | [] => Return tt
  | file_type :: rest =>
      if negb (is_str file_type)
      then Throw (ConfigurationError InvalidFileType)
      else check_file_types rest
  end.

Definition _validate (config : dict) : outcome unit :=
  llm_mode <- lookup config ["llm"; "mode"] ;;
  if negb (is_one_of llm_mode ["simulated"; "bedrock"])
  then Throw (ConfigurationError InvalidLlmMode) else
  file_types <- lookup config ["monitoring"; "file_types"] ;;
  do match file_types with
     | VList items =>
         if negb (truthy items)
         then Throw (ConfigurationError FileTypesNotAList)
         else check_file_types items
     | _ => Throw (ConfigurationError FileTypesNotAList)
     end ;;
  v <- lookup config ["processing"; "content_sample_length"] ;;
  bad <- le_zero v ;;
  if bad
  then Throw (ConfigurationError (NotPositive "content_sample_length")) else
  v <- lookup config ["processing"; "retry_attempts"] ;;
  bad <- lt_zero v ;;
  if bad then Throw (ConfigurationError (Negative "retry_attempts")) else
  v <- lookup config ["processing"; "retry_delay"] ;;
  bad <- lt_zero v ;;
  if bad then Throw (ConfigurationError (Negative "retry_delay")) else
  v <- lookup config ["llm"; "bedrock"; "max_tokens"] ;;
  bad <- le_zero v ;;
  if bad then Throw (ConfigurationError (NotPositive "max_tokens")) else
  log_level <- lookup config ["logging"; "level"] ;;
  if negb (is_one_of log_level
             ["DEBUG"; "INFO"; "WARNING"; "ERROR"; "CRITICAL"])
  then Throw (ConfigurationError InvalidLogLevel)
  else Return tt.

(** [Config(config_path)]: the [_config] of the object built, or the
    exception raised. *)
Definition __init__ (around : surroundings) (config_path : option str)
    : outcome dict :=
  let config := DEFAULTS in
  config <- match config_path with
            | Some path =>
                if truthy path then _load_yaml around config path
                else Return config
            | None => Return config
            end ;;
  config <- _load_env_overrides around config ;;
  do _validate config ;;
  Return config.

(** The property accessors that hand out a setting as it is (the two
    for the folders also expand [~] through [pathlib], and are left
    out). *)
Definition file_types (config : dict) : outcome value :=
  lookup config ["monitoring"; "file_types"].
Definition llm_mode (config : dict) : outcome value :=
  lookup config ["llm"; "mode"].
Definition bedrock_model (config : dict) : outcome value :=
  lookup config ["llm"; "bedrock"; "model"].
Definition bedrock_region (config : dict) : outcome value :=
  lookup config ["llm"; "bedrock"; "region"].
Definition bedrock_max_tokens (config : dict) : outcome value :=
  lookup config ["llm"; "bedrock"; "max_tokens"].
Definition content_sample_length (config : dict) : outcome value :=
  lookup config ["processing"; "content_sample_length"].
Definition retry_attempts (config : dict) : outcome value :=
  lookup config ["processing"; "retry_attempts"].
Definition retry_delay (config : dict) : outcome value :=
  lookup config ["processing"; "retry_delay"].
Definition log_level (config : dict) : outcome value :=
  lookup config ["logging"; "level"].
Definition log_format (config : dict) : outcome value :=
  lookup config ["logging"; "format"].

(** [s.split(sep)] for a one-character separator. *)
Fixpoint split_on (sep : char) (s : str) : list (list N) :=
  match s with
  | [] => [[]]
  | c :: s' =>
      if c =? sep then [] :: split_on sep s'
      else match split_on sep s' with
           | field :: fields => (c :: field) :: fields
           | [] => [[c]]
           end
  end.

(** The loop of [get] over the keys. *)
Fixpoint get_from (v : value) (keys : list (list N)) (default : value)
    : value :=
  match keys with
  | [] => v
  | k :: rest =>
      match v with
      | VDict d =>
          match dict_get d k with
          | Some sub => get_from sub rest default
          | None => default
          end
      | _ => default
      end
  end.

Definition get (config : dict) (key : str) (default : value) : value :=
  get_from (VDict config) (split_on (chr ".") key) default.

End Config.

(** ** Notions of the specification *)

(** The characters the specification wants removed from a file name:
    the reserved ones (slash, backslash, colon, star, question mark,
    double quote, less-than, greater-than, bar) and the control
    characters. *)
Definition reserved : list N := [47; 92; 58; 42; 63; 34; 60; 62; 124].

Definition forbidden (c : char) : Prop :=
  c ∈ reserved \/ c <= 31 \/ 127 <= c <= 159.

Definition dot_or_space (c : char) : Prop := c = chr "." \/ c = chr " ".

#[global] Instance forbidden_dec c : Decision (forbidden c).
Proof. unfold forbidden, reserved. apply _. Defined.

(** ** Concrete worlds, to run the model on *)

Definition unreadable : file_content :=
  {| as_pdf := PdfUnreadable; as_text := fun _ => DecodeFails |}.

Definition text_file (txt : string) : file_content :=
  {| as_pdf := PdfUnreadable; as_text := fun _ => Decoded (lit txt) |}.

Definition march_7 : datetime :=
  {| year := 2024; month := 3; day := 7; hour := 9; minute := 5; second := 0 |}.

(** A world with the given paths, file contents and planned answers to
    renames; no remote model, nothing done yet. *)
Definition world_with (paths : list (list (list N)))
    (reads : list (list N) -> file_content) (plan : list rename_fault)
    : World :=
  {| files := list_to_set paths; contents := reads; now := march_7;
     invoke_model := fun _ _ => None; faults := plan;
     slept := []; attempts := 0; moved := [] |}.

Definition path_of (components : list string) : list (list N) :=
  map lit components.

Definition is_digit (c : N) : Prop := 48 <= c <= 57.


(** The name expected for the [i]-th file (from 0) organized under one
    and the same [new_filename]: the name itself, then the name with
    [_i] put between its stem and its suffix. *)
Definition ith_name (new_filename : list N) (i : nat) : list N :=
  match i with
  | O => new_filename
  | S _ =>
      stem_of_name new_filename ++ lit "_" ++ str_of_Z (Z.of_nat i)
      ++ suffix_of_name new_filename
  end.

(** The characters a generated name is made of: ASCII letters and
    digits, underscore and hyphen. *)
Definition name_safe (c : N) : bool :=
  ascii_isalnum c || (c =? chr "_") || (c =? chr "-").

(** A date and time as [datetime.now()] can show it, with a year of four
    digits. *)
Definition four_digit_year (dt : datetime) : Prop :=
  1000 <= year dt <= 9999 /\ 1 <= month dt <= 12 /\ 1 <= day dt <= 31
  /\ hour dt <= 23 /\ minute dt <= 59 /\ second dt <= 59.

(** A usable name: not empty, made of safe characters only. *)
Definition good_name (name : list N) : Prop :=
  name <> [] /\ Forall (fun c => name_safe c = true) name.

(** The processor that [main] builds from the default configuration, as
    far as it matters here: heuristic naming, 1000 characters of sample,
    and the given organized folder. *)
Definition default_processor (organized : list string) : FileProcessor.t :=
  {| FileProcessor.extractor := {| TextExtractor.max_length := 1000 |};
     FileProcessor.llm_service :=
       {| LLMService.mode := lit "simulated";
          LLMService.bedrock_model := None;
          LLMService.bedrock_region := None;
          LLMService.max_tokens := 50;
          LLMService._bedrock_client := false |};
     FileProcessor.organizer :=
       {| FileOrganizer.organized_path := path_of organized |} |}.

(** The longest prefix of [s] made of characters that satisfy [p]. *)
Fixpoint run_prefix (p : N -> bool) (s : list N) : list N :=
  match s with
  | [] => []
  | c :: s' => if p c then c :: run_prefix p s' else []
  end.

(** A token of the heuristic: at least four characters, ASCII letters
    only. *)
Definition good_token (t : list N) : bool :=
  (4 <=? length t)%nat && forallb ascii_isalpha t.

(** The tokens of a text: its words (the maximal runs of word
    characters, that is of letters and digits of any script and the
    underscore) that are good tokens. *)
Definition word_tokens {U : UnicodeDB} (s : list N) : list (list N) :=
  List.filter good_token (fields (fun c => negb (Re.is_word c)) s).

(** The distinct elements of a list in the order of their first
    occurrence. *)
Definition unique_in_order (l : list (list N)) : list (list N) :=
  fold_left (fun acc x => if bool_decide (x ∈ acc) then acc else acc ++ [x])
            l [].

(** The heuristic as C9 words it: the tokens are the runs of four or more
    alphabetic characters of the lower-cased content, whatever stands
    next to them. *)
Definition letter_runs (s : list N) : list (list N) :=
  List.filter (fun t => (4 <=? length t)%nat)
              (fields (fun c => negb (ascii_isalpha c)) s).

Definition heuristic_as_claimed {U : UnicodeDB} (content_sample : list N)
    : list N :=
  let tokens := letter_runs (lower (strip content_sample)) in
  let keywords :=
    List.filter (fun t => bool_decide (t ∉ LLMService.common_words)) tokens in
  join (lit "_") (map capitalize (take 3 (take 5 (unique_in_order keywords)))).

(** The same world with a remote model that answers every request with
    the given completion, or fails every request. *)
Definition with_model (answer : option string) (w : World) : World :=
  {| files := files w; contents := contents w; now := now w;
     invoke_model := fun _ _ =>
       match answer with
       | Some a => Some {| completion := Some (lit a); text := None |}
       | None => None
       end;
     faults := faults w; slept := slept w; attempts := attempts w;
     moved := moved w |}.

(** A service in remote mode that holds a client. *)
Definition bedrock_service (model : option string) : LLMService.t :=
  {| LLMService.mode := lit "bedrock";
     LLMService.bedrock_model := lit <$> model;
     LLMService.bedrock_region := Some (lit "us-east-1");
     LLMService.max_tokens := 50;
     LLMService._bedrock_client := true |}.

(** ** Further notions *)

(** A name that sanitization has nothing to do on: not empty, free of
    forbidden characters, and neither starting nor ending with a dot or
    a space. *)
Definition clean_name (s : list N) : Prop :=
  s <> [] /\ (forall c, c ∈ s -> ~ forbidden c)
  /\ (forall c, head s = Some c -> ~ dot_or_space c)
  /\ (forall c, last s = Some c -> ~ dot_or_space c).

(** An encoding under which the file cannot be read. *)
Definition fails_to_read (w : World) (file_path : list (list N))
    (enc : encoding) : Prop :=
  forall t, as_text (contents w file_path) enc <> Decoded t.

(** The same world with another remote model. *)
Definition with_invoke_model
    (remote : list N -> request_body -> option response_body) (w : World)
    : World :=
  {| files := files w; contents := contents w; now := now w;
     invoke_model := remote;
     faults := faults w; slept := slept w; attempts := attempts w;
     moved := moved w |}.

(** Two paths into a configuration that part ways: at some depth both
    go on, under different keys. *)
Fixpoint apart (p q : list (list N)) : bool :=
  match p, q with
  | a :: p', b :: q' => if bool_decide (a = b) then apart p' q' else true
  | _, _ => false
  end.

(** The environment variables read by [_load_env_overrides] and the
    settings they stand for. *)
Definition string_variables : list (string * list string) :=
  [ ("DOWNLOADS_PATH", ["monitoring"; "downloads_path"]);
    ("ORGANIZED_PATH", ["monitoring"; "organized_path"]);
    ("LLM_MODE", ["llm"; "mode"]);
    ("BEDROCK_MODEL", ["llm"; "bedrock"; "model"]);
    ("BEDROCK_REGION", ["llm"; "bedrock"; "region"]);
    ("LOG_LEVEL", ["logging"; "level"]) ]%string.

Definition integer_variables : list (string * list string) :=
  [ ("BEDROCK_MAX_TOKENS", ["llm"; "bedrock"; "max_tokens"]);
    ("CONTENT_SAMPLE_LENGTH", ["processing"; "content_sample_length"]);
    ("RETRY_ATTEMPTS", ["processing"; "retry_attempts"]);
    ("RETRY_DELAY", ["processing"; "retry_delay"]) ]%string.

(** The value of an outcome, or the default when it is a failure. *)
Definition or_default {A} (m : Config.outcome A) (default : A) : A :=
  match m with
  | Config.Return a => a
  | Config.Throw _ => default
  end.

(** A scanned document: two pages without text. *)
Definition blank_scan : file_content :=
  {| as_pdf := PdfPages [lit "  "; []]; as_text := fun _ => DecodeFails |}.

(** The environment given by a list of variables and their values. *)
Fixpoint env_of (variables : list (string * string)) (name : list N)
    : option (list N) :=
  match variables with
  | [] => None
  | (variable, v) :: rest =>
      if bool_decide (lit variable = name) then Some (lit v)
      else env_of rest name
  end.

(** The value of a plain decimal numeral. *)
Fixpoint decimal_from (acc : Z) (s : list N) : option Z :=
  match s with
  | [] => Some acc
  | c :: s' =>
      if ascii_isdigit c
      then decimal_from (10 * acc + Z.of_N (c - 48)) s'
      else None
  end.

Definition decimal (s : list N) : option Z :=
  match s with
  | [] => None
  | _ => decimal_from 0 s
  end.

(** Surroundings with the given environment variables and the given
    configuration file at every path; of [int] the part that reads
    plain decimal numerals and rejects text without digits, which is
    all that the runs below ask of it. *)
Definition surroundings_with (variables : list (string * string))
    (file : Config.yaml_file) : Config.surroundings :=
  {| Config.getenv := env_of variables;
     Config.yaml_at := fun _ => file;
     Config.int_ := decimal |}.

(** * Properties *)

(** Settle a decidable closed statement by evaluating its decision. *)
Ltac by_evaluation :=
  match goal with
  | |- ?P => apply (@bool_decide_unpack P _); vm_compute; exact I
  end.

(** ** Strings *)

Section StringFacts.

Implicit Types (p : char -> bool) (s : str) (c : char).

Lemma lstrip_by_app_last p s c :
  lstrip_by p (s ++ [c]) =
    if forallb p s then (if p c then [] else [c])
    else lstrip_by p s ++ [c].
Proof.
  induction s as [|d s IH]; simpl; [done|].
  destruct (p d); simpl; [apply IH|done].
Qed.

Lemma lstrip_by_nil_iff p s : lstrip_by p s = [] <-> forallb p s = true.
Proof.
  induction s as [|d s IH]; simpl; [done|].
  destruct (p d); simpl; [apply IH|]. split; discriminate.
Qed.

(** [rstrip_by] read from the left. *)
Lemma rstrip_by_cons p c s :
  rstrip_by p (c :: s) =
    match rstrip_by p s with
    | [] => if p c then [] else [c]
    | r => c :: r
    end.
Proof.
  unfold rstrip_by. simpl. rewrite lstrip_by_app_last.
  destruct (forallb p (rev s)) eqn:Hall.
  - apply lstrip_by_nil_iff in Hall. rewrite Hall. simpl.
    by destruct (p c).
  - rewrite rev_app_distr. simpl.
    destruct (rev (lstrip_by p (rev s))) eqn:Hr; [|done].
    apply (f_equal (@rev _)) in Hr. rewrite rev_involutive in Hr.
    apply lstrip_by_nil_iff in Hr. congruence.
Qed.

Lemma lstrip_by_split p s :
  exists pre, s = pre ++ lstrip_by p s /\ forallb p pre = true.
Proof.
  induction s as [|d s (pre & Hs & Hpre)]; simpl.
  - by exists [].
  - destruct (p d) eqn:Hd.
    + exists (d :: pre). split; [simpl; by f_equal|simpl; by rewrite Hd].
    + by exists [].
Qed.

Lemma lstrip_by_head p s c : head (lstrip_by p s) = Some c -> p c = false.
Proof.
  induction s as [|d s IH]; simpl; [done|].
  destruct (p d) eqn:Hd; [done|]. simpl. congruence.
Qed.

Lemma rstrip_by_split p s :
  exists post, s = rstrip_by p s ++ post /\ forallb p post = true.
Proof.
  induction s as [|d s (post & Hs & Hpost)].
  - by exists [].
  - rewrite rstrip_by_cons. destruct (rstrip_by p s) as [|e r] eqn:Hr.
    + simpl in Hs. subst post. destruct (p d) eqn:Hd.
      * exists (d :: s). simpl. by rewrite Hd, Hpost.
      * by exists s.
    + exists post. split; [simpl in *; congruence|done].
Qed.

Lemma last_rev_head {A} (l : list A) : last (rev l) = head l.
Proof. rewrite rev_alt. apply last_reverse. Qed.

Lemma rstrip_by_last p s c : last (rstrip_by p s) = Some c -> p c = false.
Proof.
  unfold rstrip_by. rewrite last_rev_head. apply lstrip_by_head.
Qed.

Lemma rstrip_by_head p s c :
  head s = Some c -> p c = false -> head (rstrip_by p s) = Some c.
Proof.
  destruct s as [|d s]; [done|]. simpl. intros [= ->] Hc.
  rewrite rstrip_by_cons, Hc. by destruct (rstrip_by p s).
Qed.

(** [strip_by] removes exactly the longest prefix and the longest
    suffix made of characters to strip. *)
Lemma strip_by_spec p s :
  exists pre post,
    s = pre ++ strip_by p s ++ post
    /\ forallb p pre = true /\ forallb p post = true
    /\ (forall c, head (strip_by p s) = Some c -> p c = false)
    /\ (forall c, last (strip_by p s) = Some c -> p c = false).
Proof.
  destruct (lstrip_by_split p s) as (pre & Hs & Hpre).
  destruct (rstrip_by_split p (lstrip_by p s)) as (post & Hr & Hpost).
  exists pre, post. unfold strip_by. repeat split; try done.
  - by rewrite <- Hr.
  - intros c Hc. destruct (lstrip_by p s) as [|d r] eqn:Hl; [done|].
    assert (p d = false) as Hd by (apply (lstrip_by_head p s); by rewrite Hl).
    by rewrite (rstrip_by_head p (d :: r) d) in Hc by done; simplify_eq.
  - apply rstrip_by_last.
Qed.

Lemma delete_class_sound (cls : char -> bool) s c :
  c ∈ Re.delete_class cls s -> cls c = false.
Proof.
  unfold Re.delete_class. rewrite list_elem_of_In, filter_In.
  intros [_ H]. by apply negb_true_iff.
Qed.

End StringFacts.

(** ** Sanitizing a file name *)

Section Sanitize.
Import FileOrganizer.

Lemma invalid_chars_forbidden c : invalid_chars c = true <-> forbidden c.
Proof.
  unfold invalid_chars, forbidden, reserved, char_in, in_range.
  cbn [lit list_ascii_of_string map existsb].
  rewrite !orb_true_iff, !andb_true_iff, !N.eqb_eq, !N.leb_le.
  rewrite !elem_of_cons, elem_of_nil. cbv [chr N_of_ascii N_of_digits].
  cbn [N.add N.mul]. lia.
Qed.

Lemma delete_invalid_filter s :
  Re.delete_class invalid_chars s = filter (fun c => ~ forbidden c) s.
Proof.
  unfold Re.delete_class. induction s as [|c s IH]; [done|].
  rewrite filter_cons, <- IH. cbn [List.filter].
  destruct (invalid_chars c) eqn:Hc; simpl.
  - apply invalid_chars_forbidden in Hc. by rewrite decide_False by tauto.
  - rewrite decide_True; [done|]. rewrite <- invalid_chars_forbidden. congruence.
Qed.

Lemma strip_chars_dot_space c :
  char_in (lit ". ") c = true <-> dot_or_space c.
Proof.
  unfold char_in, dot_or_space. cbn [lit list_ascii_of_string map existsb].
  rewrite !orb_true_iff, !N.eqb_eq. intuition (discriminate || auto).
Qed.

(** C6. For every input string, [_sanitize_filename] drops exactly the
    characters the specification forbids (the nine punctuation
    characters and the control characters 0x00-0x1F and 0x7F-0x9F),
    then cuts off the leading and the trailing spaces and dots, and
    answers ["unnamed"] when nothing is left; three spaces and three
    slashes both give ["unnamed"]. *)
Theorem sanitize_filename_spec (filename : str) :
  (exists pre core post,
      filter (fun c => ~ forbidden c) filename = pre ++ core ++ post
      /\ Forall dot_or_space pre /\ Forall dot_or_space post
      /\ (forall c, head core = Some c -> ~ dot_or_space c)
      /\ (forall c, last core = Some c -> ~ dot_or_space c)
      /\ _sanitize_filename filename =
           if decide (core = []) then lit "unnamed" else core)
  /\ (forall c, c ∈ _sanitize_filename filename -> ~ forbidden c)
  /\ _sanitize_filename (lit "   ") = lit "unnamed"
  /\ _sanitize_filename (lit "///") = lit "unnamed".
Proof.
  assert (forall l, forallb (char_in (lit ". ")) l = true -> Forall dot_or_space l)
    as Hall.
  { intros l Hl. apply Forall_forall. intros c Hc.
    apply strip_chars_dot_space. rewrite forallb_forall in Hl.
    apply Hl. by apply list_elem_of_In. }
  assert (forall c, char_in (lit ". ") c = false -> ~ dot_or_space c) as Hnot.
  { intros c Hc Hds. apply strip_chars_dot_space in Hds. congruence. }
  unfold _sanitize_filename.
  destruct (strip_by_spec (char_in (lit ". "))
              (Re.delete_class invalid_chars filename))
    as (pre & post & Hsplit & Hpre & Hpost & Hhd & Hlast).
  set (core := strip_by _ _) in *.
  split; [|split; [|split; reflexivity]].
  - exists pre, core, post. rewrite <- delete_invalid_filter.
    repeat split; auto.
    by destruct core.
  - intros c Hc Hforb. destruct core as [|d core'] eqn:Hcore; simpl in Hc.
    + revert Hc Hforb. clear. unfold forbidden, reserved.
      rewrite !elem_of_cons, elem_of_nil.
      cbv [lit list_ascii_of_string map chr N_of_ascii N_of_digits].
      cbn [N.add N.mul]. rewrite !elem_of_cons, elem_of_nil. lia.
    + apply invalid_chars_forbidden in Hforb.
      assert (c ∈ Re.delete_class invalid_chars filename) as Hin.
      { rewrite Hsplit. rewrite !elem_of_app. auto. }
      apply delete_class_sound in Hin. congruence.
Qed.

End Sanitize.

(** ** Conflict resolution *)

Section Conflict.
Import FileOrganizer.

Lemma lit_inj (s1 s2 : string) : lit s1 = lit s2 -> s1 = s2.
Proof.
  unfold lit. intros H.
  rewrite <- (string_of_list_ascii_of_string s1),
          <- (string_of_list_ascii_of_string s2).
  f_equal. revert H.
  generalize (list_ascii_of_string s1) (list_ascii_of_string s2).
  induction l as [|a l IH]; intros [|b l']; simpl; try done.
  intros [= Hab Hl]. f_equal; [|by apply IH].
  unfold chr in Hab.
  rewrite <- (ascii_N_embedding a), <- (ascii_N_embedding b). by f_equal.
Qed.

Lemma str_of_Z_inj (i j : Z) : str_of_Z i = str_of_Z j -> i = j.
Proof. unfold str_of_Z. intros H. by apply pretty_Z_inj, lit_inj. Qed.

Lemma numbered_inj parent stem suffix (i j : Z) :
  numbered parent stem suffix i = numbered parent stem suffix j -> i = j.
Proof.
  unfold numbered, joinpath. intros H.
  apply app_inv_head in H. injection H as H.
  apply app_inv_head in H. injection H as H.
  apply app_inv_tail in H. by apply str_of_Z_inj.
Qed.

(** What [fuel] rounds of the loop do, started at [counter]. *)
Lemma probe_spec existing parent stem suffix fuel counter :
  match probe existing parent stem suffix fuel counter with
  | Some p =>
      (exists k : nat, (k < fuel)%nat
        /\ p = numbered parent stem suffix (counter + Z.of_nat k)
        /\ (p ∉ existing)
        /\ forall j : nat, (j < k)%nat ->
             numbered parent stem suffix (counter + Z.of_nat j) ∈ existing)
  | None =>
      (forall j : nat, (j < fuel)%nat ->
        numbered parent stem suffix (counter + Z.of_nat j) ∈ existing)
  end.
Proof.
  revert counter. induction fuel as [|fuel IH]; intros counter; simpl.
  - intros j Hj. lia.
  - case_bool_decide as Hfree.
    + exists 0%nat. rewrite Z.add_0_r. repeat split; [lia|done|].
      intros j Hj. lia.
    + specialize (IH (counter + 1)%Z).
      destruct (probe existing parent stem suffix fuel (counter + 1)) as [p|].
      * destruct IH as (k & Hk & -> & Hp & Hbelow).
        exists (S k). repeat split; [lia|f_equal; lia| |].
        { by replace (counter + Z.of_nat (S k))%Z
            with (counter + 1 + Z.of_nat k)%Z by lia. }
        intros [|j] Hj; [by rewrite Z.add_0_r|].
        replace (counter + Z.of_nat (S j))%Z
          with (counter + 1 + Z.of_nat j)%Z by lia.
        apply Hbelow. lia.
      * intros [|j] Hj; [by rewrite Z.add_0_r|].
        replace (counter + Z.of_nat (S j))%Z
          with (counter + 1 + Z.of_nat j)%Z by lia.
        apply IH. lia.
Qed.

(** Only finitely many paths exist, so the numbered names cannot all be
    taken. *)
Lemma numbered_pigeonhole (existing : gset (list (list N)))
    parent stem suffix counter (n : nat) :
  (forall j : nat, (j < n)%nat ->
     numbered parent stem suffix (counter + Z.of_nat j) ∈ existing) ->
  (n <= size existing)%nat.
Proof.
  intros Hall.
  set (names := (fun j : nat => numbered parent stem suffix (counter + Z.of_nat j))
                  <$> seq 0 n).
  assert (NoDup names) as Hnodup.
  { apply NoDup_fmap_2; [|apply NoDup_seq].
    intros i j Hij. apply numbered_inj in Hij. lia. }
  assert (list_to_set names ⊆ existing) as Hsub.
  { intros p Hp. apply elem_of_list_to_set in Hp.
    apply list_elem_of_fmap in Hp as (j & -> & Hj).
    apply elem_of_seq in Hj. apply Hall. lia. }
  apply subseteq_size in Hsub.
  rewrite size_list_to_set in Hsub by done.
  unfold names in Hsub. by rewrite length_fmap, length_seq in Hsub.
Qed.

(** C10. For every target path and every finite set of existing paths
    the probe of [_handle_conflict] terminates: any number of rounds
    beyond the number of existing paths is enough for it to return, and
    it returns the target itself when that is free, otherwise the
    numbered name with the least positive number that is free. *)
Theorem handle_conflict_terminates (w : World) (target_path : Path) :
  exists answer,
    (forall fuel, (size (files w) < fuel)%nat ->
       _handle_conflict fuel target_path w = (Ok answer, w))
    /\ (target_path ∉ files w -> answer = target_path)
    /\ (target_path ∈ files w ->
        exists n : Z, (1 <= n)%Z
          /\ answer = numbered (parent target_path) (stem target_path)
                        (suffix target_path) n
          /\ (answer ∉ files w)
          /\ forall m : Z, (1 <= m < n)%Z ->
               numbered (parent target_path) (stem target_path)
                 (suffix target_path) m ∈ files w).
Proof.
  unfold _handle_conflict, bind, path_exists, ret.
  case_bool_decide as Hex; simpl.
  - pose proof (probe_spec (files w) (parent target_path) (stem target_path)
                  (suffix target_path) (S (size (files w))) 1) as Hspec.
    destruct (probe _ _ _ _ (S (size (files w))) 1) as [p|] eqn:Hp.
    + destruct Hspec as (k & Hk & -> & Hfree & Hbelow).
      eexists. split; [|split].
      * intros fuel Hfuel.
        pose proof (probe_spec (files w) (parent target_path)
                      (stem target_path) (suffix target_path) fuel 1) as Hf.
        destruct (probe _ _ _ _ fuel 1) as [q|].
        -- destruct Hf as (k' & _ & -> & Hfree' & Hbelow').
           destruct (Nat.lt_trichotomy k k') as [Hlt|[->|Hgt]]; [|done|].
           ++ by apply Hbelow' in Hlt.
           ++ by apply Hbelow in Hgt.
        -- exfalso. apply Hfree, Hf. lia.
      * done.
      * intros _. exists (1 + Z.of_nat k)%Z. repeat split; [lia|done|].
        intros m Hm. replace m with (1 + Z.of_nat (Z.to_nat (m - 1)))%Z by lia.
        apply Hbelow. lia.
    + apply numbered_pigeonhole in Hspec. lia.
  - exists target_path. by repeat split.
Qed.

End Conflict.

(** ** Moving with retry *)

Section Retry.
Import FileOrganizer.

Local Ltac policy_case :=
  try match goal with
      | |- (let '(_, _) := ?e in _) => destruct e as [? ?]
      end;
  repeat split; intros; simplify_eq/=;
  first [lia | done | by destruct_or! | idtac].

Lemma replicate_snoc_cons {A} (n : nat) (x : A) l :
  replicate n x ++ x :: l = replicate (S n) x ++ l.
Proof. induction n as [|n IH]; simpl; [done|]. by rewrite IH. Qed.

(** The loop over the attempt numbers [a, a+1, ..., a+n-1] of a call
    with [retries = a + n], when the next [k] answers of the operating
    system are refusals for lack of permission. *)
Lemma move_attempts_policy source destination (retries : Z) rest :
  forall (n k a : nat) (w : World),
    faults w = replicate k PermissionDenied ++ rest ->
    retries = Z.of_nat (a + n) ->
    let '(r, w') :=
      move_attempts source destination retries (Z.of_nat <$> seq a n) w in
    ((1 <= n <= k)%nat ->
       r = Raise (FileOrganizerError PermissionExhausted)
       /\ attempts w' = (attempts w + n)%nat
       /\ slept w' = replicate (n - 1) 2%Z ++ slept w)
    /\ ((k < n)%nat -> head rest = Some OtherOSError ->
       r = Raise (FileOrganizerError OSFailure)
       /\ attempts w' = (attempts w + k + 1)%nat
       /\ slept w' = replicate k 2%Z ++ slept w)
    /\ ((k < n)%nat -> head rest = Some NoFault \/ head rest = None ->
       source ∈ files w ->
       r = Ok true
       /\ attempts w' = (attempts w + k + 1)%nat
       /\ slept w' = replicate k 2%Z ++ slept w
       /\ moved w' = (source, destination) :: moved w
       /\ files w' = {[destination]} ∪ (files w ∖ {[source]})
       /\ faults w' = tail rest).
Proof.
  induction n as [|n IH]; intros k a w Hfaults Hretries.
  { simpl. repeat split; intros; lia. }
  cbn [seq fmap list_fmap move_attempts].
  unfold try_except, bind at 1, os_rename.
  destruct k as [|k]; simpl in Hfaults; rewrite Hfaults.
  - (* the operating system answers with something else *)
    destruct rest as [|[| |] rest']; simpl;
      try case_bool_decide; simpl; policy_case.
  - (* permission denied *)
    simpl. destruct (Z.of_nat a <? retries - 1)%Z eqn:Hlast.
    + apply Z.ltb_lt in Hlast.
      unfold bind at 1, sleep.
      match goal with
      | |- context [move_attempts _ _ _ _ ?w2] =>
          specialize (IH k (S a) w2); simpl in IH
      end.
      specialize (IH eq_refl ltac:(lia)).
      destruct (move_attempts _ _ _ _ _) as [r w'].
      destruct IH as (IH1 & IH2 & IH3). split; [|split].
      * intros Hn. destruct IH1 as (-> & -> & ->); [lia|].
        repeat split; [lia|].
        rewrite replicate_snoc_cons. f_equal. f_equal. lia.
      * intros Hk Hrest. destruct IH2 as (-> & -> & ->); [lia|done|].
        repeat split; [lia|]. by rewrite replicate_snoc_cons.
      * intros Hk Hrest Hsrc.
        destruct IH3 as (-> & Ha & Hs & Hm & Hf & Hfl); [lia|done|done|].
        rewrite Ha, Hs, Hm, Hf, Hfl. simpl.
        repeat split; [lia|]. by rewrite replicate_snoc_cons.
    + apply Z.ltb_ge in Hlast. assert (n = 0)%nat as -> by lia.
      unfold raise. policy_case.
Qed.

(** C5. In the move step a refusal for lack of permission is followed
    by a two-second sleep and another attempt, as long as fewer than
    [retries] attempts were made ([organize_file] passes 3); when all
    [retries] attempts were refused the step fails with the
    permission-exhausted error.  Any other error of the operating
    system, at whatever attempt, fails the step at once: no sleep and
    no further attempt follow it.  An attempt that is let through ends
    the step with success. *)
Theorem move_with_retry_policy (source destination : Path) (retries : Z)
    (k : nat) (rest : list rename_fault) (w : World) :
  faults w = replicate k PermissionDenied ++ rest ->
  let '(r, w') := _move_with_retry source destination retries w in
  ((1 <= retries <= Z.of_nat k)%Z ->
     r = Raise (FileOrganizerError PermissionExhausted)
     /\ attempts w' = (attempts w + Z.to_nat retries)%nat
     /\ slept w' = replicate (Z.to_nat retries - 1) 2%Z ++ slept w)
  /\ ((Z.of_nat k < retries)%Z -> head rest = Some OtherOSError ->
     r = Raise (FileOrganizerError OSFailure)
     /\ attempts w' = (attempts w + k + 1)%nat
     /\ slept w' = replicate k 2%Z ++ slept w)
  /\ ((Z.of_nat k < retries)%Z ->
     head rest = Some NoFault \/ head rest = None ->
     source ∈ files w ->
     r = Ok true
     /\ attempts w' = (attempts w + k + 1)%nat
     /\ slept w' = replicate k 2%Z ++ slept w
     /\ moved w' = (source, destination) :: moved w
     /\ files w' = {[destination]} ∪ (files w ∖ {[source]}))
  /\ default_retries = 3%Z.
Proof.
  intros Hfaults. unfold _move_with_retry, range.
  pose proof (move_attempts_policy source destination
                (Z.of_nat (Z.to_nat retries)) rest (Z.to_nat retries) k 0 w
                Hfaults eq_refl) as H.
  destruct (Z_lt_le_dec retries 0) as [Hneg|Hpos].
  - replace (Z.to_nat retries) with 0%nat by lia. simpl.
    repeat split; intros; lia.
  - rewrite Z2Nat.id in H by done.
    change (map Z.of_nat) with (fmap (M:=list) Z.of_nat).
    destruct (move_attempts _ _ _ _ _) as [r w'].
    destruct H as (H1 & H2 & H3).
    split; [|split; [|split; [|done]]].
    + intros ?. apply H1. lia.
    + intros ? ?. apply H2; [lia|done].
    + intros ? ? ?. destruct H3 as (? & ? & ? & ? & ? & _); [lia|done|done|].
      by repeat split.
Qed.

(** Three refusals in a row against the three attempts of
    [organize_file]. *)
Lemma move_with_retry_policy_witness :
  let w := world_with [path_of ["in"; "a.txt"]] (fun _ => unreadable)
             [PermissionDenied; PermissionDenied; PermissionDenied] in
  let run := _move_with_retry (path_of ["in"; "a.txt"])
               (path_of ["out"; "a.txt"]) 3 w in
  faults w = replicate 3 PermissionDenied ++ []
  /\ run.1 = Raise (FileOrganizerError PermissionExhausted)
  /\ attempts run.2 = 3%nat
  /\ slept run.2 = [2; 2]%Z.
Proof.
  intros w run. split; [reflexivity|].
  pose proof (move_with_retry_policy (path_of ["in"; "a.txt"])
                (path_of ["out"; "a.txt"]) 3 3 [] w eq_refl) as H.
  fold run in H. destruct run as [r w'].
  destruct H as (H & _). destruct H as (Hr & Ha & Hs); [lia|].
  simpl. rewrite Hr, Ha, Hs. repeat split.
Defined.

End Retry.

(** ** Names, stems and suffixes *)

Section PathFacts.

Implicit Types (nm a e : list N).

Lemma rfind_from_absent c s i best :
  c ∉ s -> rfind_from c s i best = best.
Proof.
  revert i best. induction s as [|d s IH]; intros i best Hc; simpl; [done|].
  apply not_elem_of_cons in Hc as [Hd Hs].
  rewrite IH by done. destruct (N.eqb_spec d c); congruence.
Qed.

Lemma rfind_from_last c a e i best :
  c ∉ e -> rfind_from c (a ++ c :: e) i best = (i + Z.of_nat (length a))%Z.
Proof.
  intros He. revert i best.
  induction a as [|d a IH]; intros i best; simpl.
  - rewrite N.eqb_refl, rfind_from_absent by done. lia.
  - rewrite IH. lia.
Qed.

(** The two ways a name can look to [PurePath.suffix]: no suffix, or a
    non-empty stem, a dot, and a non-empty rest without dots. *)
Lemma suffix_cases nm :
  (suffix_of_name nm = [] /\ stem_of_name nm = nm)
  \/ (exists a e, nm = a ++ chr "." :: e /\ a <> [] /\ e <> []
        /\ (chr "." ∉ e)
        /\ suffix_of_name nm = chr "." :: e /\ stem_of_name nm = a).
Proof.
  unfold suffix_of_name, stem_of_name, rfind.
  destruct (decide (chr "." ∈ nm)) as [Hin|Hout].
  - apply list_elem_of_split_r in Hin as (a & e & -> & He).
    rewrite rfind_from_last by done.
    destruct (_ && _) eqn:Hc; [right|by left].
    apply andb_true_iff in Hc as [Ha%Z.ltb_lt Hb%Z.ltb_lt].
    rewrite length_app, length_cons in Hb.
    exists a, e. rewrite Z.add_0_l, Nat2Z.id.
    rewrite drop_app_length, take_app_length.
    repeat split; try done.
    + intros ->. simpl in Ha. lia.
    + intros ->. simpl in Hb. lia.
  - left. by rewrite rfind_from_absent.
Qed.

Lemma suffix_of_extended a e :
  a <> [] -> e <> [] -> chr "." ∉ e ->
  suffix_of_name (a ++ chr "." :: e) = chr "." :: e
  /\ stem_of_name (a ++ chr "." :: e) = a.
Proof.
  intros Ha He Hdot. unfold suffix_of_name, stem_of_name, rfind.
  rewrite rfind_from_last by done.
  replace (_ && _) with true.
  2:{ symmetry. apply andb_true_iff. rewrite length_app, length_cons.
      destruct a, e; try done. split; apply Z.ltb_lt; simpl length; lia. }
  rewrite Z.add_0_l, Nat2Z.id.
  by rewrite drop_app_length, take_app_length.
Qed.

Lemma suffix_of_dotless nm :
  chr "." ∉ nm -> suffix_of_name nm = [] /\ stem_of_name nm = nm.
Proof.
  intros Hdot. unfold suffix_of_name, stem_of_name, rfind.
  by rewrite rfind_from_absent.
Qed.

Lemma stem_suffix nm : stem_of_name nm ++ suffix_of_name nm = nm.
Proof.
  destruct (suffix_cases nm) as [[-> ->]|(a & e & -> & _ & _ & _ & -> & ->)].
  - apply app_nil_r.
  - done.
Qed.

Lemma name_joinpath (p : list (list N)) nm : name (joinpath p nm) = nm.
Proof. unfold name, joinpath. apply last_last. Qed.

Lemma parent_joinpath (p : list (list N)) nm : parent (joinpath p nm) = p.
Proof. unfold parent, joinpath. apply removelast_last. Qed.

Lemma suffix_joinpath (p : list (list N)) nm :
  suffix (joinpath p nm) = suffix_of_name nm.
Proof. unfold suffix. by rewrite name_joinpath. Qed.

Lemma stem_joinpath (p : list (list N)) nm :
  stem (joinpath p nm) = stem_of_name nm.
Proof. unfold stem. by rewrite name_joinpath. Qed.

(** A suffix is empty, or a dot followed by a non-empty rest without
    dots. *)
Lemma suffix_shape (p : list (list N)) :
  suffix p = [] \/ exists e, suffix p = chr "." :: e /\ e <> [] /\ chr "." ∉ e.
Proof.
  unfold suffix.
  destruct (suffix_cases (name p))
    as [[-> _]|(a & e & _ & _ & He & Hdot & -> & _)]; [by left|right; eauto].
Qed.

Lemma joinpath_inj (p : list (list N)) nm1 nm2 :
  joinpath p nm1 = joinpath p nm2 -> nm1 = nm2.
Proof. unfold joinpath. intros H. apply app_inv_head in H. congruence. Qed.

End PathFacts.

(** ** Decimal numerals *)

Section Numerals.

Lemma pretty_N_char_digit x : is_digit (chr (pretty_N_char x)).
Proof.
  unfold pretty_N_char, is_digit.
  repeat case_match; cbv [chr N_of_ascii N_of_digits]; cbn [N.add N.mul]; lia.
Qed.

Lemma pretty_N_go_digits x s :
  Forall is_digit (lit s) -> Forall is_digit (lit (pretty_N_go x s)).
Proof.
  revert s. induction (N.lt_wf_0 x) as [x _ IH]; intros s Hs.
  destruct (decide (x = 0)) as [->|Hx]; [by rewrite pretty_N_go_0|].
  rewrite pretty_N_go_step by lia.
  apply IH; [apply N.div_lt; lia|].
  constructor; [apply pretty_N_char_digit|done].
Qed.

Lemma pretty_N_digits (x : N) : Forall is_digit (lit (pretty x)).
Proof.
  unfold pretty, pretty_N. case_decide.
  - repeat constructor; unfold is_digit;
      cbv [chr N_of_ascii N_of_digits]; cbn [N.add N.mul]; lia.
  - apply pretty_N_go_digits. constructor.
Qed.

Lemma lit_app (s1 s2 : string) : lit (s1 +:+ s2) = lit s1 ++ lit s2.
Proof.
  unfold lit. induction s1 as [|a s1 IH]; simpl; [done|]. by rewrite <- IH.
Qed.

(** A numeral never contains a dot. *)
Lemma str_of_Z_dotless (n : Z) : chr "." ∉ str_of_Z n.
Proof.
  assert (forall l, Forall is_digit l -> chr "." ∉ l) as Hdig.
  { intros l Hl Hin. rewrite Forall_forall in Hl. apply Hl in Hin.
    revert Hin. unfold is_digit.
    cbv [chr N_of_ascii N_of_digits]; cbn [N.add N.mul]. lia. }
  unfold str_of_Z, pretty, pretty_Z. destruct n as [|p|p].
  - apply Hdig. repeat constructor; unfold is_digit;
      cbv [chr N_of_ascii N_of_digits]; cbn [N.add N.mul]; lia.
  - apply Hdig, (pretty_N_digits (Npos p)).
  - rewrite lit_app. apply not_elem_of_app. split.
    + cbv [lit list_ascii_of_string map chr N_of_ascii N_of_digits].
      cbn [N.add N.mul]. rewrite elem_of_cons, elem_of_nil. lia.
    + apply Hdig, (pretty_N_digits (Npos p)).
Qed.

End Numerals.

(** ** Organizing one file *)

Section Organize.
Import FileOrganizer.

Lemma sanitize_nonempty (filename : list N) : _sanitize_filename filename <> [].
Proof.
  unfold _sanitize_filename. by destruct (strip_by _ _).
Qed.

(** A run of attempts that ends well has renamed the file, once. *)
Lemma move_attempts_done source destination retries numbers :
  forall w w',
    move_attempts source destination retries numbers w = (Ok true, w') ->
    moved w' = (source, destination) :: moved w
    /\ files w' = {[destination]} ∪ (files w ∖ {[source]})
    /\ source ∈ files w.
Proof.
  induction numbers as [|attempt rest IH]; intros w w'; simpl.
  - unfold ret. intros [= ]. 
  - unfold try_except, bind at 1, os_rename.
    destruct (head (faults w)) as [[| |]|]; simpl;
      try case_bool_decide; simpl;
      try (intros [= <-]; by simpl);
      try done.
    destruct (attempt <? retries - 1)%Z; [|done].
    unfold bind at 1, sleep. intros H. apply IH in H. exact H.
Qed.

(** What a successful [organize_file] has done: one rename, from the
    source to the target computed from the sanitized name and the
    source's suffix, or to a numbered variant of that target. *)
Lemma organize_file_done fuel self (file_path : list (list N)) new_name w w' :
  organize_file fuel self file_path new_name w = (Ok true, w') ->
  let new_filename := _sanitize_filename new_name ++ suffix file_path in
  exists destination,
    moved w' = (file_path, destination) :: moved w
    /\ files w' = {[destination]}
                   ∪ (({[organized_path self]} ∪ files w) ∖ {[file_path]})
    /\ file_path ∈ files w
    /\ (destination = joinpath (organized_path self) new_filename
        \/ exists n : Z,
             destination = numbered (organized_path self)
                             (stem_of_name new_filename)
                             (suffix_of_name new_filename) n).
Proof.
  unfold organize_file, bind at 1, path_exists.
  case_bool_decide as Hsrc; simpl; [|done].
  unfold bind at 1, mkdir. unfold bind at 1.
  unfold _handle_conflict at 1, bind at 1, path_exists. simpl.
  rewrite parent_joinpath, suffix_joinpath, stem_joinpath.
  case_bool_decide as Htarget; simpl.
  - destruct (probe _ _ _ _ fuel 1) as [p|] eqn:Hp; [|done].
    intros H. unfold bind in H. unfold ret at 1 in H.
    destruct (_move_with_retry _ _ _ _) as [[b| |] w1] eqn:Hmove; try done.
    injection H as -> ->.
    apply move_attempts_done in Hmove as (Hm & Hf & Hs).
    exists p. repeat split; try done.
    right.
    pose proof (probe_spec ({[organized_path self]} ∪ files w) (organized_path self)
               (stem_of_name (_sanitize_filename new_name ++ suffix file_path))
               (suffix_of_name (_sanitize_filename new_name ++ suffix file_path))
               fuel 1) as Hspec.
    rewrite Hp in Hspec. destruct Hspec as (k & _ & -> & _). eauto.
  - intros H. unfold bind in H. unfold ret at 1 in H.
    destruct (_move_with_retry _ _ _ _) as [[b| |] w1] eqn:Hmove; try done.
    injection H as -> ->.
    apply move_attempts_done in Hmove as (Hm & Hf & Hs).
    eexists. repeat split; try done. by left.
Qed.

(** C4, as the specification words it, fails: a source without extension
    organized under a candidate that contains a dot ends up at a path
    whose extension is the tail of the candidate. *)
Lemma extension_preserved_counterexample :
  let w := world_with [path_of ["in"; "README"]] (fun _ => unreadable) [] in
  let self := {| organized_path := path_of ["out"] |} in
  let run := organize_file 1 self (path_of ["in"; "README"]) (lit "v1.2") w in
  run.1 = Ok true
  /\ moved run.2 = [(path_of ["in"; "README"], path_of ["out"; "v1.2"])]
  /\ suffix (path_of ["in"; "README"]) = []
  /\ suffix (path_of ["out"; "v1.2"]) = lit ".2"
  /\ suffix (path_of ["out"; "v1.2"]) <> suffix (path_of ["in"; "README"]).
Proof. vm_compute. repeat split. discriminate. Qed.

(** C4, amended. Whenever [organize_file] succeeds on a source that has
    an extension, or under a candidate whose sanitized form contains no
    dot, the path the file was moved to lies in the organized folder and
    has the extension of the source, character for character, also when
    conflict resolution numbered the name. *)
Theorem organize_file_preserves_extension fuel self
    (file_path : Path) (new_name : str) (w : World) :
  (organize_file fuel self file_path new_name w).1 = Ok true ->
  suffix file_path <> [] \/ chr "." ∉ _sanitize_filename new_name ->
  exists destination,
    moved (organize_file fuel self file_path new_name w).2
      = (file_path, destination) :: moved w
    /\ destination ∈ files (organize_file fuel self file_path new_name w).2
    /\ parent destination = organized_path self
    /\ suffix destination = suffix file_path.
Proof.
  destruct (organize_file fuel self file_path new_name w) as [r w'] eqn:Hrun.
  simpl. intros -> Hshape.
  apply organize_file_done in Hrun as (dst & Hmoved & Hfiles & _ & Hdst).
  exists dst. split; [done|].
  split; [rewrite Hfiles; by apply elem_of_union_l, elem_of_singleton|].
  pose proof (sanitize_nonempty new_name) as Hne.
  pose proof (suffix_shape file_path) as Hext.
  set (san := _sanitize_filename new_name) in *.
  set (ext := suffix file_path) in *.
  assert (chr "." ∉ lit "_") as Hunderscore.
  { cbv [lit list_ascii_of_string map chr N_of_ascii N_of_digits].
    cbn [N.add N.mul]. rewrite elem_of_cons, elem_of_nil. lia. }
  destruct Hext as [Hext|(e & Hext & He & Hdot)]; rewrite Hext in *.
  - destruct Hshape as [?|Hdotless]; [done|].
    rewrite app_nil_r in Hdst.
    destruct (suffix_of_dotless san Hdotless) as [Hsuf Hstem].
    rewrite Hsuf, Hstem in Hdst. destruct Hdst as [->|[n ->]].
    + by rewrite parent_joinpath, suffix_joinpath.
    + unfold numbered. rewrite parent_joinpath, suffix_joinpath.
      split; [done|]. apply suffix_of_dotless.
      rewrite app_nil_r, !not_elem_of_app.
      auto using str_of_Z_dotless.
  - destruct (suffix_of_extended san e Hne He Hdot) as [Hsuf Hstem].
    rewrite Hsuf, Hstem in Hdst. destruct Hdst as [->|[n ->]].
    + by rewrite parent_joinpath, suffix_joinpath.
    + unfold numbered. rewrite parent_joinpath, suffix_joinpath.
      split; [done|]. rewrite !app_assoc.
      apply suffix_of_extended; try done.
      rewrite <- !app_assoc. by destruct san.
Qed.

Lemma organize_file_preserves_extension_witness :
  let w := world_with [path_of ["in"; "a.txt"]; path_of ["out"; "Report.txt"]]
             (fun _ => unreadable) [] in
  let self := {| organized_path := path_of ["out"] |} in
  exists destination,
    moved (organize_file 2 self (path_of ["in"; "a.txt"]) (lit "Report") w).2
      = [(path_of ["in"; "a.txt"], destination)]
    /\ suffix destination = lit ".txt".
Proof.
  intros w self.
  destruct (organize_file_preserves_extension 2 self (path_of ["in"; "a.txt"])
              (lit "Report") w) as (dst & Hmoved & _ & _ & Hsuffix).
  - vm_compute. reflexivity.
  - left. vm_compute. discriminate.
  - exists dst. split; [exact Hmoved|exact Hsuffix].
Defined.

End Organize.

(** ** Organizing files in sequence *)

Section Sequence.
Import FileOrganizer.

Lemma ith_name_inj nf i j : ith_name nf i = ith_name nf j -> i = j.
Proof.
  assert (forall k, nf <> ith_name nf (S k)) as Hfresh.
  { intros k H. apply (f_equal length) in H. revert H.
    rewrite <- (stem_suffix nf) at 1. unfold ith_name.
    rewrite !length_app. simpl. lia. }
  destruct i as [|i], j as [|j]; try done.
  - intros H. by apply Hfresh in H.
  - intros H. symmetry in H. by apply Hfresh in H.
  - unfold ith_name. intros H.
    apply app_inv_head in H. injection H as H. apply app_inv_tail in H.
    apply str_of_Z_inj in H. lia.
Qed.

Lemma ith_name_numbered root nf (k : nat) :
  joinpath root (ith_name nf (S k))
  = numbered root (stem_of_name nf) (suffix_of_name nf) (1 + Z.of_nat k).
Proof.
  unfold numbered, ith_name.
  by replace (1 + Z.of_nat k)%Z with (Z.of_nat (S k)) by lia.
Qed.

(** The probe finds the first free number. *)
Lemma probe_least existing parent stem suffix fuel counter (k : nat) :
  (k < fuel)%nat ->
  (forall j : nat, (j < k)%nat ->
     numbered parent stem suffix (counter + Z.of_nat j) ∈ existing) ->
  numbered parent stem suffix (counter + Z.of_nat k) ∉ existing ->
  probe existing parent stem suffix fuel counter
  = Some (numbered parent stem suffix (counter + Z.of_nat k)).
Proof.
  intros Hk Hbelow Hfree.
  pose proof (probe_spec existing parent stem suffix fuel counter) as Hspec.
  destruct (probe _ _ _ _ fuel counter) as [p|].
  - destruct Hspec as (k' & _ & -> & Hfree' & Hbelow').
    destruct (Nat.lt_trichotomy k k') as [Hlt|[->|Hgt]]; [|done|].
    + by apply Hbelow' in Hlt.
    + by apply Hbelow in Hgt.
  - exfalso. by apply Hfree, Hspec.
Qed.

Lemma joinpath_fresh (p : list (list N)) nm : joinpath p nm <> p.
Proof.
  unfold joinpath. intros H. apply (f_equal length) in H.
  rewrite length_app in H. simpl in H. lia.
Qed.

(** One more file: with the names of the first [i] files taken and the
    [i]-th still free, the file goes to the [i]-th name. *)
Lemma organize_file_next fuel self (file_path : list (list N)) new_name w
    (i : nat) :
  let nf := _sanitize_filename new_name ++ suffix file_path in
  let place j := joinpath (organized_path self) (ith_name nf j) in
  file_path ∈ files w ->
  (i <= fuel)%nat ->
  (forall j, (j < i)%nat -> place j ∈ files w) ->
  place i ∉ files w ->
  head (faults w) = Some NoFault \/ head (faults w) = None ->
  exists w',
    organize_file fuel self file_path new_name w = (Ok true, w')
    /\ moved w' = (file_path, place i) :: moved w
    /\ files w' = {[place i]}
                   ∪ (({[organized_path self]} ∪ files w) ∖ {[file_path]})
    /\ faults w' = tail (faults w).
Proof.
  intros nf place Hsrc Hfuel Hbelow Hfree Hfault.
  unfold organize_file, bind at 1, path_exists.
  rewrite bool_decide_true by done. simpl.
  unfold bind at 1, mkdir. unfold bind at 1.
  unfold _handle_conflict at 1, bind at 1, path_exists. simpl.
  rewrite parent_joinpath, suffix_joinpath, stem_joinpath.
  fold nf.
  set (w1 := {| files := _ |}).
  assert (
    (if negb (bool_decide (joinpath (organized_path self) nf
                             ∈ {[organized_path self]} ∪ files w))
     then ret (joinpath (organized_path self) nf)
     else fun w0 =>
       match probe (files w0) (organized_path self) (stem_of_name nf)
               (suffix_of_name nf) fuel 1 with
       | Some new_path => ret new_path w0
       | None => diverge w0
       end) w1 = (Ok (place i), w1)) as ->.
  { destruct i as [|i].
    - rewrite bool_decide_false; [done|].
      rewrite elem_of_union, elem_of_singleton.
      intros [H|H]; [by apply joinpath_fresh in H|done].
    - rewrite bool_decide_true.
      2:{ apply elem_of_union_r, (Hbelow 0%nat). lia. }
      cbn [negb]. cbv beta.
      change (files w1) with ({[organized_path self]} ∪ files w).
      unfold place at 1. rewrite ith_name_numbered.
      rewrite (probe_least _ _ _ _ fuel 1 i); [done|lia| |].
      + intros j Hj. rewrite <- ith_name_numbered.
        apply elem_of_union_r, (Hbelow (S j)). lia.
      + rewrite <- ith_name_numbered.
        rewrite elem_of_union, elem_of_singleton.
        intros [H|H]; [by apply joinpath_fresh in H|done]. }
  unfold bind.
  pose proof (move_attempts_policy file_path (place i) 3 (faults w) 3 0 0 w1
                eq_refl eq_refl) as Hmove.
  unfold _move_with_retry, default_retries.
  change (range 3) with (Z.of_nat <$> seq 0 3).
  destruct (move_attempts _ _ _ _ w1) as [r w'].
  destruct Hmove as (_ & _ & Hmove).
  destruct Hmove as (-> & _ & _ & Hmoved & Hfiles & Hfaults); [lia|done| |].
  { subst w1. simpl. by apply elem_of_union_r. }
  exists w'. unfold ret. by repeat split.
Qed.





End Sequence.

(** ** Extraction *)

Section Extraction.
Import TextExtractor.
Context {U : UnicodeDB}.

Lemma slice_to_nonneg (n : Z) (s : list N) :
  (0 <= n)%Z -> slice_to n s = take (Z.to_nat n) s.
Proof.
  intros Hn. unfold slice_to.
  destruct (Z.ltb_spec n 0); [lia|done].
Qed.

(** Reading a file changes nothing in the world, never runs on, and
    fails with extraction errors only. *)
Lemma try_encodings_cases file_path encodings w :
  exists r, try_encodings file_path encodings w = (r, w)
    /\ ((exists txt, r = Ok txt) \/ (exists why, r = Raise (TextExtractionError why))).
Proof.
  induction encodings as [|enc rest IH]; simpl.
  - eexists. split; [done|]. right. eauto.
  - unfold try_except, read_text.
    destruct (as_text (contents w file_path) enc); simpl; eauto.
Qed.

Lemma source_text_cases file_path w :
  exists r, source_text file_path w = (r, w)
    /\ ((exists txt, r = Ok txt) \/ (exists why, r = Raise (TextExtractionError why))).
Proof.
  unfold source_text. repeat case_bool_decide.
  - unfold _extract_from_pdf, try_except, bind, read_pdf_pages.
    destruct (as_pdf (contents w file_path)); simpl;
      try destruct (negb _); simpl; eauto.
  - apply try_encodings_cases.
  - eexists. split; [done|]. right. eauto.
Qed.

Lemma extract_text_cases self file_path w :
  exists r, extract_text self file_path w = (r, w)
    /\ ((exists txt, r = Ok txt) \/ (exists why, r = Raise (TextExtractionError why))).
Proof.
  unfold extract_text, bind at 1, path_exists.
  case_bool_decide; simpl.
  - unfold try_except, bind.
    destruct (source_text_cases file_path w) as (r & -> & [[txt ->]|[why ->]]);
      simpl; eauto.
  - eexists. split; [done|]. right. eauto.
Qed.

(** Beside the domain of C7: a [max_length] below zero, which the
    configuration never hands over (its validation rejects a sample
    length that is not positive), makes the slice count from the end. *)
Lemma extract_text_negative_length :
  let w := world_with [path_of ["in"; "a.txt"]] (fun _ => text_file "abc") [] in
  let run := extract_text (U:=ascii_db) {| max_length := -1 |}
               (path_of ["in"; "a.txt"]) w in
  run.1 = Ok (lit "ab")
  /\ ~ (Z.of_nat (length (lit "ab")) <= -1)%Z.
Proof. split; [vm_compute; reflexivity|simpl; lia]. Qed.

(** C7. For every file and every [max_length] that is a length, that
    is, not below zero (the configuration hands over positive ones
    only), whatever [extract_text] returns is the text read from the
    file cut to its first [max_length] characters: it is a prefix of
    that text, at most [max_length] characters long, the whole text when
    that is shorter than [max_length], and exactly [max_length]
    characters otherwise. *)
Theorem extract_text_truncates self (file_path : Path) (w : World) (t : str) :
  (0 <= max_length self)%Z ->
  (extract_text self file_path w).1 = Ok t ->
  exists text,
    (source_text file_path w).1 = Ok text
    /\ (Z.of_nat (length t) <= max_length self)%Z
    /\ t `prefix_of` text
    /\ ((Z.of_nat (length text) < max_length self)%Z -> t = text)
    /\ ((max_length self <= Z.of_nat (length text))%Z ->
        Z.of_nat (length t) = max_length self
        /\ t = take (Z.to_nat (max_length self)) text).
Proof.
  intros Hmax. unfold extract_text, bind at 1, path_exists.
  case_bool_decide; simpl; [|done].
  unfold try_except, bind.
  destruct (source_text_cases file_path w) as (r & -> & [[text ->]|[why ->]]);
    simpl; [|done].
  intros [= <-]. exists text. rewrite slice_to_nonneg by done.
  split; [done|]. split; [rewrite length_take; lia|].
  split; [apply prefix_take|]. split.
  - intros Hshort. apply take_ge. lia.
  - intros Hlong. split; [rewrite length_take; lia|done].
Qed.

End Extraction.

Lemma extract_text_truncates_witness :
  let w := world_with [path_of ["in"; "a.txt"]]
             (fun _ => text_file "Hello world") [] in
  exists text,
    (TextExtractor.source_text (U:=ascii_db) (path_of ["in"; "a.txt"]) w).1
      = Ok text
    /\ lit "Hello" `prefix_of` text.
Proof.
  intros w.
  destruct (extract_text_truncates (U:=ascii_db)
              {| TextExtractor.max_length := 5 |}
              (path_of ["in"; "a.txt"]) w (lit "Hello"))
    as (text & Hsrc & _ & Hprefix & _).
  - simpl. lia.
  - vm_compute. reflexivity.
  - exists text. split; [exact Hsrc|exact Hprefix].
Defined.


(** ** Generated names *)

Section Names.
Import LLMService.
Context {U : UnicodeDB}.

Lemma name_safe_ascii c : name_safe c = true -> is_ascii c = true.
Proof.
  unfold name_safe, ascii_isalnum, ascii_isalpha, ascii_isupper, ascii_islower,
    ascii_isdigit, in_range, is_ascii.
  rewrite !orb_true_iff, !andb_true_iff, !N.leb_le, !N.eqb_eq, N.ltb_lt.
  cbv [chr N_of_ascii N_of_digits]. cbn [N.add N.mul]. lia.
Qed.

Lemma name_safe_not_forbidden c : name_safe c = true -> ~ forbidden c.
Proof.
  unfold name_safe, ascii_isalnum, ascii_isalpha, ascii_isupper, ascii_islower,
    ascii_isdigit, in_range, forbidden, reserved.
  rewrite !orb_true_iff, !andb_true_iff, !N.leb_le, !N.eqb_eq.
  rewrite !elem_of_cons, elem_of_nil.
  cbv [chr N_of_ascii N_of_digits]. cbn [N.add N.mul]. lia.
Qed.

Lemma name_safe_not_space c : name_safe c = true -> isspace c = false.
Proof.
  intros Hc. rewrite isspace_ascii by by apply name_safe_ascii.
  revert Hc.
  unfold name_safe, ascii_isalnum, ascii_isalpha, ascii_isupper, ascii_islower,
    ascii_isdigit, ascii_isspace, in_range.
  rewrite !orb_true_iff, !andb_true_iff, !N.leb_le, !N.eqb_eq.
  rewrite !orb_false_iff, !andb_false_iff, !N.leb_gt.
  cbv [chr N_of_ascii N_of_digits]. cbn [N.add N.mul]. lia.
Qed.

Lemma is_digit_name_safe c : is_digit c -> name_safe c = true.
Proof.
  unfold is_digit, name_safe, ascii_isalnum, ascii_isdigit, in_range.
  intros Hc. rewrite !orb_true_iff, !andb_true_iff, !N.leb_le. lia.
Qed.

Lemma alpha_name_safe c : ascii_isalpha c = true -> name_safe c = true.
Proof. unfold name_safe, ascii_isalnum. by intros ->. Qed.

Lemma zero_pad_digits width n : Forall is_digit (zero_pad width n).
Proof.
  unfold zero_pad. apply Forall_app. split.
  - apply Forall_replicate. unfold is_digit.
    cbv [chr N_of_ascii N_of_digits]. cbn [N.add N.mul]. lia.
  - apply pretty_N_digits.
Qed.

Lemma strftime_safe dt : Forall (fun c => name_safe c = true) (strftime_Ymd_HMS dt).
Proof.
  unfold strftime_Ymd_HMS. rewrite !Forall_app.
  repeat split;
    try (eapply Forall_impl; [apply zero_pad_digits|apply is_digit_name_safe]).
  by repeat constructor.
Qed.

Lemma fallback_run w :
  _fallback_filename w = (Ok (lit "document_" ++ strftime_Ymd_HMS (now w)), w).
Proof. done. Qed.

Lemma fallback_safe dt :
  Forall (fun c => name_safe c = true) (lit "document_" ++ strftime_Ymd_HMS dt).
Proof.
  apply Forall_app. split; [by repeat constructor|apply strftime_safe].
Qed.

(** *** What the word pattern matches *)

Lemma letters_prefix_take (s : list N) (k : nat) :
  (k <= Re.letters_prefix s)%nat ->
  forallb ascii_isalpha (take k s) = true /\ length (take k s) = k.
Proof.
  revert k. induction s as [|c s IH]; intros k Hk; simpl in Hk.
  - assert (k = 0)%nat as -> by lia. done.
  - destruct k as [|k]; [done|]. simpl.
    destruct (ascii_isalpha c); [|lia].
    destruct (IH k) as [-> ->]; [lia|done].
Qed.

Lemma back_off_bounds (s : list N) (k k' : nat) :
  Re.back_off s k = Some k' -> (4 <= k' <= k)%nat.
Proof.
  induction k as [|k IH]; cbn [Re.back_off]; [done|].
  destruct (4 <=? S k)%nat eqn:Hk; [|done]. apply Nat.leb_le in Hk.
  destruct (Re.boundary _ _).
  - intros [= <-]. lia.
  - intros H'. apply IH in H'. lia.
Qed.

Lemma match_here_letters prev (s m : list N) :
  Re.match_here prev s = Some m ->
  forallb ascii_isalpha m = true /\ (4 <= length m)%nat.
Proof.
  unfold Re.match_here. destruct (Re.boundary prev (head s)); [|done].
  destruct (Re.back_off s (Re.letters_prefix s)) as [k|] eqn:Hk; [|done].
  simpl. intros [= <-]. apply back_off_bounds in Hk.
  destruct (letters_prefix_take s k) as [-> ->]; [lia|]. split; [done|lia].
Qed.

Lemma findall_from_letters prev skip (s : list N) :
  Forall (fun m => forallb ascii_isalpha m = true /\ (4 <= length m)%nat)
         (Re.findall_from prev skip s).
Proof.
  revert prev skip. induction s as [|c s IH]; intros prev skip; simpl.
  - constructor.
  - destruct skip; [|apply IH].
    destruct (Re.match_here prev (c :: s)) as [m|] eqn:Hm; [|apply IH].
    constructor; [by eapply match_here_letters|apply IH].
Qed.

Lemma collect_unique_subset keywords acc seen x :
  x ∈ collect_unique keywords acc seen -> x ∈ acc \/ x ∈ keywords.
Proof.
  revert acc seen.
  induction keywords as [|word rest IH]; intros acc seen; cbn [collect_unique].
  - auto.
  - case_bool_decide.
    + destruct (5 <=? length (acc ++ [word]))%nat.
      * rewrite elem_of_app, list_elem_of_singleton, elem_of_cons. tauto.
      * intros Hx. apply IH in Hx.
        rewrite elem_of_app, list_elem_of_singleton in Hx.
        rewrite elem_of_cons. tauto.
    + destruct (5 <=? length acc)%nat.
      * auto.
      * intros Hx. apply IH in Hx. rewrite elem_of_cons. tauto.
Qed.

(** *** Joining and capitalizing *)

Lemma join_Forall (P : N -> Prop) (sep : list N) (parts : list (list N)) :
  Forall P sep -> Forall (Forall P) parts -> Forall P (join sep parts).
Proof.
  intros Hsep. induction 1 as [|p ps Hp Hps IH]; simpl; [constructor|].
  destruct ps; [done|]. rewrite !Forall_app. auto.
Qed.

Lemma join_nonempty (sep p : list N) (ps : list (list N)) :
  p <> [] -> join sep (p :: ps) <> [].
Proof.
  intros Hp. simpl. destruct ps; [done|]. by destruct p.
Qed.

Lemma ascii_lower_alpha c : ascii_isalpha c = true -> ascii_isalpha (ascii_lower c) = true.
Proof.
  unfold ascii_lower, ascii_isalpha, ascii_isupper, ascii_islower, in_range.
  repeat match goal with
         | |- context [(?a <=? ?b)] => destruct (N.leb_spec a b)
         end; simpl in *; try done; intros _; exfalso; lia.
Qed.

Lemma ascii_upper_alpha c : ascii_isalpha c = true -> ascii_isalpha (ascii_upper c) = true.
Proof.
  unfold ascii_upper, ascii_isalpha, ascii_isupper, ascii_islower, in_range.
  repeat match goal with
         | |- context [(?a <=? ?b)] => destruct (N.leb_spec a b)
         end; simpl in *; try done; intros _; exfalso; lia.
Qed.

Lemma alpha_is_ascii c : ascii_isalpha c = true -> is_ascii c = true.
Proof. intros Hc. by apply name_safe_ascii, alpha_name_safe. Qed.

(** On a word of ASCII letters [str.capitalize] is the ASCII one, and
    gives a word of ASCII letters of the same length. *)
Lemma capitalize_letters (t : list N) :
  forallb ascii_isalpha t = true ->
  capitalize t = ascii_capitalize t
  /\ forallb ascii_isalpha (capitalize t) = true
  /\ length (capitalize t) = length t.
Proof.
  intros Ht. rewrite capitalize_ascii.
  2:{ rewrite forallb_forall in *. intros c Hc. apply alpha_is_ascii; auto. }
  split; [done|]. destruct t as [|c t]; [done|]. simpl in *.
  apply andb_true_iff in Ht as [Hc Ht].
  rewrite ascii_upper_alpha by done. rewrite length_map. split; [|done].
  simpl. rewrite forallb_forall in *. intros d Hd.
  apply in_map_iff in Hd as (d' & <- & Hd'). apply ascii_lower_alpha. auto.
Qed.

(** *** The generators *)

Lemma fallback_good dt : good_name (lit "document_" ++ strftime_Ymd_HMS dt).
Proof. split; [done|apply fallback_safe]. Qed.

Lemma keywords_letters content :
  Forall (fun t => forallb ascii_isalpha t = true /\ (4 <= length t)%nat)
         (collect_unique (keywords_of content) [] ∅).
Proof.
  apply Forall_forall. intros t Ht.
  apply collect_unique_subset in Ht as [Ht|Ht]; [by apply elem_of_nil in Ht|].
  unfold keywords_of in Ht. apply list_elem_of_In, filter_In in Ht as [Ht _].
  pose proof (findall_from_letters None 0 (lower content)) as Hall.
  rewrite Forall_forall in Hall. by apply Hall, list_elem_of_In.
Qed.

Lemma simulate_cases content_sample w :
  exists name, _simulate_filename content_sample w = (Ok name, w) /\ good_name name.
Proof.
  unfold _simulate_filename.
  pose proof (keywords_letters (strip content_sample)) as Hkw.
  destruct (collect_unique _ _ _) as [|k ks]; cbn [truthy].
  - destruct (take 3 (split_ws (strip content_sample))) as [|fw fws]; simpl.
    { eexists. split; [apply fallback_run|apply fallback_good]. }
    destruct (Re.delete_class _ _) as [|c name] eqn:Hname; simpl.
    { eexists. split; [apply fallback_run|apply fallback_good]. }
    eexists. split; [done|]. split; [done|].
    apply Forall_forall. intros d Hd. rewrite <- Hname in Hd.
    apply delete_class_sound in Hd. apply negb_false_iff in Hd.
    unfold name_char in Hd. unfold name_safe. by rewrite Hd.
  - eexists. split; [done|].
    change (take 3 (k :: ks)) with (k :: take 2 ks). cbn [map].
    apply Forall_cons in Hkw as [[Hk Hlen] Hks]. split.
    + apply join_nonempty. destruct (capitalize_letters k Hk) as (_ & _ & Hl).
      intros Hnil. rewrite Hnil in Hl. simpl in Hl. lia.
    + apply join_Forall; [by repeat constructor|].
      assert (forall t, forallb ascii_isalpha t = true ->
                Forall (fun c => name_safe c = true) (capitalize t)) as Hsafe.
      { intros t Ht. destruct (capitalize_letters t Ht) as (_ & Hcap & _).
        apply Forall_forall. intros c Hc. apply alpha_name_safe.
        rewrite forallb_forall in Hcap. by apply Hcap, list_elem_of_In. }
      constructor; [by apply Hsafe|].
      apply Forall_forall. intros t' Ht'.
      apply list_elem_of_In, in_map_iff in Ht' as (t & <- & Ht).
      apply list_elem_of_In, subseteq_take in Ht.
      rewrite Forall_forall in Hks. apply Hsafe, Hks, Ht.
Qed.

Lemma replace_runs_from_chars (cls : N -> bool) (repl : list N) in_run s c :
  c ∈ Re.replace_runs_from cls repl in_run s ->
  c ∈ repl \/ (c ∈ s /\ cls c = false).
Proof.
  revert in_run. induction s as [|d s IH]; intros in_run; simpl.
  - intros H. by apply elem_of_nil in H.
  - destruct (cls d) eqn:Hd.
    + rewrite elem_of_app. intros [H|H].
      * destruct in_run; [by apply elem_of_nil in H|auto].
      * apply IH in H. rewrite elem_of_cons. tauto.
    + rewrite !elem_of_cons. intros [->|H]; [auto|].
      apply IH in H. tauto.
Qed.

Lemma bedrock_cases self content_sample w :
  exists r, _bedrock_filename self content_sample w = (r, w)
    /\ (r = Raise LLMServiceError \/ exists name, r = Ok name /\ good_name name).
Proof.
  unfold _bedrock_filename. destruct (_bedrock_client self); simpl.
  2:{ destruct (simulate_cases content_sample w) as (name & -> & Hgood).
      eexists. split; [done|]. right. eauto. }
  unfold try_except, bind at 1.
  destruct (bedrock_model self) as [model|]; simpl;
    [|eexists; split; [done|by left]].
  unfold bind, call_bedrock.
  destruct (invoke_model w model _) as [response|]; simpl;
    [|eexists; split; [done|by left]].
  match goal with
  | |- context [truthy ?cleaned] => destruct cleaned as [|c name] eqn:Hname
  end; simpl.
  { eexists. split; [done|]. right. eexists. split; [done|apply fallback_good]. }
  eexists. split; [done|]. right. eexists. split; [done|]. split; [done|].
  apply Forall_forall. intros d Hd. rewrite <- Hname in Hd.
  apply replace_runs_from_chars in Hd as [Hd|[Hd Hspace]].
  - revert Hd. cbv [lit list_ascii_of_string map].
    rewrite elem_of_cons, elem_of_nil. intros [->|[]]. done.
  - apply delete_class_sound in Hd. apply negb_false_iff in Hd.
    unfold name_safe. unfold Re.is_space in *. rewrite Hspace in Hd.
    unfold name_char in Hd. rewrite orb_false_r in Hd. exact Hd.
Qed.

Lemma generator_cases self content_sample w :
  exists r, generator self content_sample w = (r, w)
    /\ (r = Raise LLMServiceError \/ exists name, r = Ok name /\ good_name name).
Proof.
  unfold generator. repeat case_bool_decide.
  - destruct (simulate_cases content_sample w) as (name & -> & Hgood).
    eexists. split; [done|]. right. eauto.
  - apply bedrock_cases.
  - eexists. split; [apply fallback_run|]. right.
    eexists. split; [done|apply fallback_good].
Qed.

(** Whatever the content and the mode, [generate_filename] hands back a
    usable name and leaves the world alone. *)
Lemma generate_filename_cases self content_sample original_filename w :
  exists name,
    generate_filename self content_sample original_filename w = (Ok name, w)
    /\ good_name name.
Proof.
  unfold generate_filename. destruct (_ || _).
  - eexists. split; [apply fallback_run|apply fallback_good].
  - unfold try_except.
    destruct (generator_cases self content_sample w)
      as (r & -> & [->|(name & -> & Hgood)]); simpl.
    + eexists. split; [apply fallback_run|apply fallback_good].
    + eauto.
Qed.

(** *** The shape of the time stamp *)

Lemma pretty_N_go_length (k : nat) (x : N) (acc : string) :
  x < 10 ^ N.of_nat k ->
  (length (lit (pretty_N_go x acc)) <= length (lit acc) + k)%nat.
Proof.
  revert x acc. induction k as [|k IH]; intros x acc Hx.
  - change (N.of_nat 0) with 0 in Hx. rewrite N.pow_0_r in Hx.
    assert (x = 0) as -> by lia. rewrite pretty_N_go_0. lia.
  - destruct (decide (x = 0)) as [->|Hpos]; [rewrite pretty_N_go_0; lia|].
    rewrite pretty_N_go_step by lia.
    etrans; [apply IH|].
    2:{ change (lit (String ?c acc)) with (chr c :: lit acc).
        cbn [length]. lia. }
    apply N.Div0.div_lt_upper_bound.
    rewrite Nat2N.inj_succ, N.pow_succ_r' in Hx. lia.
Qed.

Lemma zero_pad_length (width : nat) (n : N) :
  (1 <= width)%nat -> n < 10 ^ N.of_nat width ->
  length (zero_pad width n) = width.
Proof.
  intros Hw Hn. unfold zero_pad. rewrite length_app, length_replicate.
  assert (length (lit (pretty n)) <= width)%nat; [|lia].
  unfold pretty, pretty_N. case_decide; [simpl; lia|].
  apply (pretty_N_go_length width n ""). done.
Qed.

Lemma strftime_shape dt :
  four_digit_year dt ->
  exists date time,
    strftime_Ymd_HMS dt = date ++ lit "_" ++ time
    /\ length date = 8%nat /\ length time = 6%nat
    /\ Forall is_digit date /\ Forall is_digit time.
Proof.
  intros (Hy & Hm & Hd & Hh & Hmin & Hs).
  exists (zero_pad 4 (year dt) ++ zero_pad 2 (month dt) ++ zero_pad 2 (day dt)),
         (zero_pad 2 (hour dt) ++ zero_pad 2 (minute dt) ++ zero_pad 2 (second dt)).
  unfold strftime_Ymd_HMS. split; [by rewrite <- !app_assoc|].
  rewrite !length_app, !Forall_app.
  rewrite !zero_pad_length by (simpl; lia).
  repeat split; auto using zero_pad_digits.
Qed.

Lemma good_name_not_blank name : good_name name -> truthy (strip name) = true.
Proof.
  intros [Hne Hsafe]. destruct name as [|c name]; [done|].
  apply Forall_cons in Hsafe as [Hc _]. apply name_safe_not_space in Hc.
  pose proof (rstrip_by_head isspace (c :: name) c eq_refl Hc) as Hhd.
  unfold strip, strip_by. cbn [lstrip_by]. rewrite Hc.
  by destruct (rstrip_by isspace (c :: name)).
Qed.

(** C1. For every content sample and every original file name
    [generate_filename] returns a name and never raises, whatever the
    mode and whatever the remote model does.  An empty or all-blank
    sample gives the fallback name at once; so does every exception
    raised inside the generator of the active mode.  The fallback name is
    ["document_"] followed by the local time as read from the clock, laid
    out as eight digits (year, month, day), an underscore and six digits
    (hour, minute, second). *)
Theorem generate_filename_never_raises self (content_sample : str)
    (original_filename : option str) (w : World) :
  let fallback := lit "document_" ++ strftime_Ymd_HMS (now w) in
  (exists name,
     generate_filename self content_sample original_filename w = (Ok name, w))
  /\ (content_sample = [] \/ strip content_sample = [] ->
      generate_filename self content_sample original_filename w
      = (Ok fallback, w))
  /\ (forall e w',
      generator self content_sample w = (Raise e, w') ->
      generate_filename self content_sample original_filename w
      = (Ok fallback, w))
  /\ _fallback_filename w = (Ok fallback, w)
  /\ (four_digit_year (now w) ->
      exists date time,
        fallback = lit "document_" ++ date ++ lit "_" ++ time
        /\ length date = 8%nat /\ length time = 6%nat
        /\ Forall is_digit date /\ Forall is_digit time).
Proof.
  intros fallback. split; [|split; [|split; [|split]]].
  - destruct (generate_filename_cases self content_sample original_filename w)
      as (name & Hrun & _). eauto.
  - intros Hblank. unfold generate_filename.
    replace (_ || _) with true; [done|].
    symmetry. apply orb_true_iff. destruct Hblank as [->| ->]; auto.
  - intros e w' Hraise. unfold generate_filename.
    destruct (_ || _); [done|].
    unfold try_except. rewrite Hraise. simpl.
    destruct (generator_cases self content_sample w) as (r & Hr & _).
    rewrite Hraise in Hr. by injection Hr as _ ->.
  - done.
  - intros Hdt. destruct (strftime_shape (now w) Hdt)
      as (date & time & Heq & ?). exists date, time.
    unfold fallback. by rewrite Heq.
Qed.

(** C8. For every text input the name that the naming service produces,
    in whatever mode, and the name that the heuristic generator produces
    on its own (its last-resort fallback included) is not empty, is not
    made of white space only, and contains none of the reserved
    characters (slash, backslash, colon, star, question mark, double
    quote, less-than, greater-than, bar). *)
Theorem generated_name_valid self (content_sample : str)
    (original_filename : option str) (w : World) :
  (exists name,
     generate_filename self content_sample original_filename w = (Ok name, w)
     /\ name <> [] /\ truthy (strip name) = true
     /\ forall c, c ∈ name -> c ∉ reserved)
  /\ (exists name,
     _simulate_filename content_sample w = (Ok name, w)
     /\ name <> [] /\ truthy (strip name) = true
     /\ forall c, c ∈ name -> c ∉ reserved).
Proof.
  assert (forall name, good_name name ->
            name <> [] /\ truthy (strip name) = true
            /\ forall c, c ∈ name -> c ∉ reserved) as Hgood.
  { intros name Hname. split; [apply Hname|].
    split; [by apply good_name_not_blank|].
    intros c Hc Hres. destruct Hname as [_ Hsafe].
    rewrite Forall_forall in Hsafe.
    apply (name_safe_not_forbidden c (Hsafe c Hc)). by left. }
  split.
  - destruct (generate_filename_cases self content_sample original_filename w)
      as (name & Hrun & Hname). exists name. split; [done|by apply Hgood].
  - destruct (simulate_cases content_sample w) as (name & Hrun & Hname).
    exists name. split; [done|by apply Hgood].
Qed.

End Names.

(** ** The pipeline *)

Section Pipeline.
Import FileOrganizer FileProcessor.
Context {U : UnicodeDB}.

Lemma bounded_search (P : nat -> Prop) `{!forall i, Decision (P i)} (n : nat) :
  (exists i, (i < n)%nat /\ P i /\ forall j, (j < i)%nat -> ~ P j)
  \/ (forall j, (j < n)%nat -> ~ P j).
Proof.
  induction n as [|n [IH|IH]].
  - right. intros j Hj. lia.
  - left. destruct IH as (i & Hi & HP & Hleast). exists i. split; [lia|done].
  - destruct (decide (P n)) as [HP|HP].
    + left. exists n. split; [lia|]. split; [done|]. intros j Hj. apply IH, Hj.
    + right. intros j Hj. destruct (decide (j = n)) as [->|]; [done|].
      apply IH. lia.
Qed.

(** Among the names of a family the first free one exists, and its
    number is at most the number of existing paths. *)
Lemma least_free_name (existing : gset (list (list N))) root (nf : list N) :
  let place j := joinpath root (ith_name nf j) in
  exists i, (i <= size existing)%nat
    /\ (place i ∉ existing)
    /\ forall j, (j < i)%nat -> place j ∈ existing.
Proof.
  intros place.
  destruct (bounded_search (fun i => place i ∉ existing) (S (size existing)))
    as [(i & Hi & Hfree & Hleast)|Hall].
  - exists i. split; [lia|]. split; [done|].
    intros j Hj. apply dec_stable. by apply Hleast.
  - exfalso.
    assert (NoDup (place <$> seq 0 (S (size existing)))) as Hnodup.
    { apply NoDup_fmap_2; [|apply NoDup_seq].
      intros i j Hij. by apply joinpath_inj, ith_name_inj in Hij. }
    assert (list_to_set (place <$> seq 0 (S (size existing))) ⊆ existing) as Hsub.
    { intros p Hp. apply elem_of_list_to_set in Hp.
      apply list_elem_of_fmap in Hp as (j & -> & Hj).
      apply elem_of_seq in Hj. apply dec_stable, Hall. lia. }
    apply subseteq_size in Hsub.
    rewrite size_list_to_set in Hsub by done.
    rewrite length_fmap, length_seq in Hsub. lia.
Qed.

(** With the source in place, fuel beyond the number of existing paths
    and a rename that is let through, [organize_file] succeeds. *)
Lemma organize_file_succeeds fuel self (file_path : list (list N)) new_name w :
  let nf := _sanitize_filename new_name ++ suffix file_path in
  file_path ∈ files w ->
  (size (files w) < fuel)%nat ->
  head (faults w) = Some NoFault \/ head (faults w) = None ->
  exists w' i,
    organize_file fuel self file_path new_name w = (Ok true, w')
    /\ moved w'
       = (file_path, joinpath (organized_path self) (ith_name nf i)) :: moved w
    /\ files w' = {[joinpath (organized_path self) (ith_name nf i)]}
                   ∪ (({[organized_path self]} ∪ files w) ∖ {[file_path]}).
Proof.
  intros nf Hsrc Hfuel Hfault.
  destruct (least_free_name (files w) (organized_path self) nf)
    as (i & Hi & Hfree & Hbelow).
  destruct (organize_file_next fuel self file_path new_name w i)
    as (w' & Hrun & Hmoved & Hfiles & _); try done; [lia|].
  exists w', i. by repeat split.
Qed.

Lemma name_safe_not_dot_space c : name_safe c = true -> char_in (lit ". ") c = false.
Proof.
  unfold name_safe, ascii_isalnum, ascii_isalpha, ascii_isupper, ascii_islower,
    ascii_isdigit, in_range, char_in.
  cbn [lit list_ascii_of_string map existsb].
  rewrite !orb_true_iff, !andb_true_iff, !N.leb_le, !N.eqb_eq.
  rewrite !orb_false_iff, !N.eqb_neq.
  cbv [chr N_of_ascii N_of_digits]. cbn [N.add N.mul]. lia.
Qed.

Lemma rstrip_by_fixed p (s : list N) c :
  last s = Some c -> p c = false -> rstrip_by p s = s.
Proof.
  intros Hlast Hc. unfold rstrip_by.
  rewrite <- (rev_involutive s) in Hlast. rewrite last_rev_head in Hlast.
  destruct (rev s) as [|d r] eqn:Hr; [done|]. simpl in Hlast.
  injection Hlast as ->. simpl. rewrite Hc.
  rewrite <- Hr. apply rev_involutive.
Qed.

(** A usable name passes through sanitization unchanged. *)
Lemma sanitize_good_name (name : list N) :
  good_name name -> _sanitize_filename name = name.
Proof.
  intros [Hne Hsafe]. unfold _sanitize_filename.
  assert (Re.delete_class invalid_chars name = name) as ->.
  { unfold Re.delete_class. apply forallb_filter_id, forallb_forall.
    intros c Hc. apply negb_true_iff.
    destruct (invalid_chars c) eqn:Hinv; [|done].
    apply invalid_chars_forbidden in Hinv.
    rewrite Forall_forall in Hsafe.
    by apply name_safe_not_forbidden in Hinv; [|apply Hsafe, list_elem_of_In]. }
  assert (strip_by (char_in (lit ". ")) name = name) as ->.
  { unfold strip_by. destruct name as [|c name]; [done|].
    pose proof Hsafe as Hsafe'. apply Forall_cons in Hsafe' as [Hc _].
    cbn [lstrip_by]. rewrite (name_safe_not_dot_space c Hc).
    destruct (last (c :: name)) as [d|] eqn:Hlast.
    - apply (rstrip_by_fixed _ _ d Hlast), name_safe_not_dot_space.
      rewrite Forall_forall in Hsafe. by apply Hsafe, last_Some_elem_of.
    - by apply last_None in Hlast. }
  by destruct name.
Qed.

Lemma good_name_dotless (name : list N) : good_name name -> chr "." ∉ name.
Proof.
  intros [_ Hsafe] Hin. rewrite Forall_forall in Hsafe.
  apply Hsafe, name_safe_not_dot_space in Hin. done.
Qed.

(** The organizer fails with its own exception only. *)
Lemma move_attempts_errors source destination retries numbers w e w' :
  move_attempts source destination retries numbers w = (Raise e, w') ->
  exists cause, e = FileOrganizerError cause.
Proof.
  revert w. induction numbers as [|attempt rest IH]; intros w; simpl; [done|].
  unfold try_except, bind at 1, os_rename.
  destruct (head (faults w)) as [[| |]|]; simpl;
    try case_bool_decide; simpl; try done;
    try (intros [= <- _]; eauto; fail).
  destruct (attempt <? retries - 1)%Z.
  - unfold bind at 1, sleep. apply IH.
  - intros [= <- _]. eauto.
Qed.

Lemma organize_file_errors fuel self (file_path : list (list N)) new_name w e w' :
  organize_file fuel self file_path new_name w = (Raise e, w') ->
  exists cause, e = FileOrganizerError cause.
Proof.
  unfold organize_file, bind at 1, path_exists.
  case_bool_decide; simpl; [|intros [= <- _]; eauto].
  unfold bind at 1, mkdir. unfold bind at 1.
  unfold _handle_conflict at 1, bind at 1, path_exists. simpl.
  case_bool_decide; simpl.
  - destruct (probe _ _ _ _ _ _); [|done].
    unfold bind, _move_with_retry, ret at 1.
    destruct (move_attempts _ _ _ _ _) as [[b|e'|] w1] eqn:Hmove; try done.
    intros [= <- _]. by eapply move_attempts_errors.
  - unfold bind, _move_with_retry, ret at 1.
    destruct (move_attempts _ _ _ _ _) as [[b|e'|] w1] eqn:Hmove; try done.
    intros [= <- _]. by eapply move_attempts_errors.
Qed.

(** How the stages chain once extraction has failed. *)
Lemma process_file_after_extraction_error fuel self file_path w why :
  TextExtractor.extract_text (extractor self) file_path w
    = (Raise (TextExtractionError why), w) ->
  process_file fuel self file_path w
  = match organize_file fuel (organizer self) file_path
            (lit "document_" ++ strftime_Ymd_HMS (now w)) w with
    | (Ok _, w') => (Ok tt, w')
    | (Raise (FileOrganizerError cause), w') =>
        (Raise (FileProcessorError (OrganizeFailed cause)), w')
    | (Raise _, w') => (Raise (FileProcessorError UnexpectedFailure), w')
    | (Diverge, w') => (Diverge, w')
    end.
Proof.
  intros Hextract.
  unfold process_file, try_except at 1, bind at 1, extract_step, try_except at 1.
  rewrite Hextract. cbn [ret]. unfold bind at 1, naming_step, try_except at 1.
  change (LLMService.generate_filename (llm_service self) []
            (Some (name file_path)) w)
    with (LLMService._fallback_filename w).
  rewrite fallback_run. unfold bind, organize_step, try_except.
  destruct (organize_file _ _ _ _ _) as [[b|e|] w'] eqn:Hrun; [done| |done].
  apply organize_file_errors in Hrun as [cause ->]. done.
Qed.

Lemma new_filename_parts (sanitized : list N) (file_path : list (list N)) :
  sanitized <> [] ->
  suffix file_path <> [] \/ chr "." ∉ sanitized ->
  suffix_of_name (sanitized ++ suffix file_path) = suffix file_path
  /\ stem_of_name (sanitized ++ suffix file_path) = sanitized.
Proof.
  intros Hne Hshape.
  destruct (suffix_shape file_path) as [Hext|(e & Hext & He & Hdot)];
    rewrite Hext in *.
  - destruct Hshape as [?|Hdotless]; [done|].
    rewrite app_nil_r. by apply suffix_of_dotless.
  - by apply suffix_of_extended.
Qed.

(** A document that the parser rejects makes extraction fail. *)
Lemma unparsable_pdf_fails self (file_path : list (list N)) w :
  file_path ∈ files w ->
  lower (suffix file_path) = lit ".pdf" ->
  (forall pages, as_pdf (contents w file_path) <> PdfPages pages) ->
  exists why,
    TextExtractor.extract_text self file_path w
    = (Raise (TextExtractionError why), w).
Proof.
  intros Hin Hpdf Hbad.
  unfold TextExtractor.extract_text, bind at 1, path_exists.
  rewrite bool_decide_true by done. simpl.
  unfold try_except, bind at 1, TextExtractor.source_text.
  rewrite bool_decide_true by done.
  unfold TextExtractor._extract_from_pdf, try_except, bind,
    TextExtractor.read_pdf_pages.
  destruct (as_pdf (contents w file_path)) as [pages| |]; simpl; eauto.
  by destruct (Hbad pages).
Qed.

(** C2. For every file path: when the extraction stage fails with an
    extraction error, [process_file] goes on.  The naming stage is run
    on the empty sample and gives the fallback name, and the outcome of
    [process_file] is the outcome of organizing the file under that
    name.  With the file in place, enough fuel for the conflict probe and
    a rename that is let through, the file ends up in the organized
    folder under the fallback name (numbered if that is taken) with its
    own extension.  A [.pdf] file that the parser rejects is such a
    case. *)
Theorem process_file_survives_extraction_error fuel self (file_path : Path)
    (w : World) (why : extraction_failure) :
  (TextExtractor.extract_text (extractor self) file_path w).1
    = Raise (TextExtractionError why) ->
  let fallback := lit "document_" ++ strftime_Ymd_HMS (now w) in
  LLMService.generate_filename (llm_service self) [] (Some (name file_path)) w
    = (Ok fallback, w)
  /\ process_file fuel self file_path w
     = match organize_file fuel (organizer self) file_path fallback w with
       | (Ok _, w') => (Ok tt, w')
       | (Raise (FileOrganizerError cause), w') =>
           (Raise (FileProcessorError (OrganizeFailed cause)), w')
       | (Raise _, w') => (Raise (FileProcessorError UnexpectedFailure), w')
       | (Diverge, w') => (Diverge, w')
       end
  /\ (file_path ∈ files w ->
      (size (files w) < fuel)%nat ->
      head (faults w) = Some NoFault \/ head (faults w) = None ->
      exists w' destination,
        process_file fuel self file_path w = (Ok tt, w')
        /\ moved w' = (file_path, destination) :: moved w
        /\ destination ∈ files w'
        /\ parent destination = organized_path (organizer self)
        /\ (name destination = fallback ++ suffix file_path
            \/ exists n : nat, (1 <= n)%nat
                 /\ name destination
                    = fallback ++ lit "_" ++ str_of_Z (Z.of_nat n)
                      ++ suffix file_path))
  /\ (file_path ∈ files w ->
      lower (suffix file_path) = lit ".pdf" ->
      (forall pages, as_pdf (contents w file_path) <> PdfPages pages) ->
      exists cause,
        (TextExtractor.extract_text (extractor self) file_path w).1
        = Raise (TextExtractionError cause)).
Proof.
  intros Hextract. cbv zeta.
  destruct (extract_text_cases (extractor self) file_path w) as (r & Hrun & _).
  rewrite Hrun in Hextract. simpl in Hextract. subst r.
  pose proof (process_file_after_extraction_error fuel self file_path w why Hrun)
    as Hchain.
  set (fallback := lit "document_" ++ strftime_Ymd_HMS (now w)) in *.
  split; [done|]. split; [exact Hchain|]. split.
  - intros Hin Hfuel Hfault.
    destruct (organize_file_succeeds fuel (organizer self) file_path fallback w
                Hin Hfuel Hfault) as (w' & i & Horg & Hmoved & Hfiles).
    rewrite Horg in Hchain.
    pose proof (fallback_good (now w)) as Hgood. fold fallback in Hgood.
    rewrite (sanitize_good_name fallback Hgood) in Hmoved, Hfiles.
    eexists w', _. split; [exact Hchain|]. split; [exact Hmoved|].
    split; [rewrite Hfiles; by apply elem_of_union_l, elem_of_singleton|].
    rewrite parent_joinpath, name_joinpath. split; [done|].
    destruct i as [|i]; [by left|]. right. exists (S i). split; [lia|].
    unfold ith_name.
    by destruct (new_filename_parts fallback file_path (proj1 Hgood)
                   (or_intror (good_name_dotless _ Hgood))) as [-> ->].
  - intros Hin Hpdf Hbad.
    destruct (unparsable_pdf_fails (extractor self) file_path w Hin Hpdf Hbad)
      as [cause Hfail]. exists cause. by rewrite Hfail.
Qed.

End Pipeline.

(** A document with unparsable bytes, the folder holding nothing yet. *)
Lemma process_file_survives_extraction_error_witness :
  let w := world_with [path_of ["in"; "scan.pdf"]] (fun _ => unreadable) [] in
  let run := FileProcessor.process_file (U:=ascii_db) 2
               (default_processor ["out"]) (path_of ["in"; "scan.pdf"]) w in
  run.1 = Ok tt
  /\ moved run.2
     = [(path_of ["in"; "scan.pdf"],
         path_of ["out"; "document_20240307_090500.pdf"])].
Proof.
  intros w run.
  destruct (process_file_survives_extraction_error (U:=ascii_db) 2
              (default_processor ["out"]) (path_of ["in"; "scan.pdf"]) w
              CorruptPdf) as (_ & Hrun & _).
  - vm_compute. reflexivity.
  - fold run in Hrun. rewrite Hrun. vm_compute. split; reflexivity.
Defined.

(** ** Keywords *)

Section Keywords.
Import LLMService.
Context {U : UnicodeDB}.

Implicit Types (s t : list N) (c d : N).

Lemma alpha_word c : ascii_isalpha c = true -> Re.is_word c = true.
Proof.
  intros Hc. unfold Re.is_word.
  rewrite isalnum_ascii by by apply alpha_is_ascii.
  unfold ascii_isalnum. by rewrite Hc.
Qed.

Lemma run_prefix_lstrip p s : run_prefix p s ++ lstrip_by p s = s.
Proof.
  induction s as [|c s IH]; simpl; [done|].
  destruct (p c); simpl; [by rewrite IH|done].
Qed.

Lemma lstrip_by_fixed p s :
  (forall d, head s = Some d -> p d = false) -> lstrip_by p s = s.
Proof.
  destruct s as [|c s]; simpl; [done|]. intros H. by rewrite (H c eq_refl).
Qed.

Lemma lstrip_by_idem p s : lstrip_by p (lstrip_by p s) = lstrip_by p s.
Proof. apply lstrip_by_fixed. intros d. apply lstrip_by_head. Qed.

(** The fields of a text, read one word at a time. *)
Lemma fields_from_span (sep : N -> bool) cur s :
  let p c := negb (sep c) in
  fields_from sep cur s
  = match rev cur ++ run_prefix p s with [] => [] | r => [r] end
    ++ fields_from sep [] (lstrip_by p s).
Proof.
  intros p.
  assert (forall cur' : list N,
            match cur' with [] => [] | _ => [rev cur'] end
            = match rev cur' with [] => [] | r => [r] end) as Hfield.
  { intros [|d cur']; [done|]. simpl.
    destruct (rev cur' ++ [d]) eqn:H; [by destruct (rev cur')|done]. }
  revert cur. induction s as [|c s IH]; intros cur; simpl.
  - by rewrite !app_nil_r, <- Hfield.
  - unfold p at 1 3. destruct (sep c) eqn:Hc; simpl.
    + rewrite Hc, app_nil_r, <- Hfield. by destruct cur.
    + rewrite IH. simpl. by rewrite <- app_assoc.
Qed.

(** Skipping the rest of a match. *)
Lemma findall_from_skip prev (k : nat) s :
  (S k <= length s)%nat ->
  Re.findall_from prev (S k) s = Re.findall_from (s !! k) 0 (drop (S k) s).
Proof.
  revert prev s. induction k as [|k IH]; intros prev [|c s] Hlen;
    simpl in Hlen; try lia.
  - simpl. by destruct s.
  - cbn [Re.findall_from]. rewrite IH by lia. done.
Qed.

Lemma run_prefix_ext p q s :
  (forall c, p c = q c) -> run_prefix p s = run_prefix q s.
Proof.
  intros Hpq. induction s as [|c s IH]; simpl; [done|]. by rewrite Hpq, IH.
Qed.

Lemma lstrip_by_ext p q s :
  (forall c, p c = q c) -> lstrip_by p s = lstrip_by q s.
Proof.
  intros Hpq. induction s as [|c s IH]; simpl; [done|]. by rewrite Hpq, IH.
Qed.

(** Words and what follows them. *)
Lemma word_tokens_span s :
  let word := run_prefix Re.is_word s in
  word_tokens s
  = match word with
    | [] => []
    | _ => if good_token word then [word] else []
    end ++ word_tokens (lstrip_by Re.is_word s).
Proof.
  unfold word_tokens, fields. rewrite fields_from_span. simpl.
  rewrite (run_prefix_ext _ Re.is_word) by (intros c; apply negb_involutive).
  rewrite (lstrip_by_ext _ Re.is_word) by (intros c; apply negb_involutive).
  rewrite List.filter_app. by destruct (run_prefix Re.is_word s).
Qed.

Lemma word_tokens_separator c s :
  Re.is_word c = false -> word_tokens (c :: s) = word_tokens s.
Proof.
  intros Hc. unfold word_tokens, fields. simpl. by rewrite Hc.
Qed.

Lemma letters_vs_word s :
  let word := run_prefix Re.is_word s in
  if forallb ascii_isalpha word
  then Re.letters_prefix s = length word
  else (Re.letters_prefix s < length word)%nat
       /\ exists d, s !! Re.letters_prefix s = Some d /\ Re.is_word d = true.
Proof.
  cbv zeta. induction s as [|c s IH]; simpl; [done|].
  destruct (Re.is_word c) eqn:Hword; simpl.
  - destruct (ascii_isalpha c) eqn:Halpha; simpl.
    + destruct (forallb ascii_isalpha (run_prefix Re.is_word s)).
      * by rewrite IH.
      * destruct IH as (Hlt & d & Hd & Hwd). split; [lia|eauto].
    + split; [lia|eauto].
  - destruct (ascii_isalpha c) eqn:Halpha; [|done].
    apply alpha_word in Halpha. congruence.
Qed.

Lemma letters_prefix_lookup s (k : nat) :
  (k < Re.letters_prefix s)%nat ->
  exists d, s !! k = Some d /\ ascii_isalpha d = true.
Proof.
  revert k. induction s as [|c s IH]; intros k; simpl; [lia|].
  destruct (ascii_isalpha c) eqn:Hc; [|lia].
  destruct k as [|k]; simpl; [eauto|]. intros Hk. apply IH. lia.
Qed.

Lemma back_off_top s (k : nat) :
  (4 <= S k)%nat -> Re.boundary (s !! k) (s !! S k) = true ->
  Re.back_off s (S k) = Some (S k).
Proof.
  intros Hk Hb. cbn [Re.back_off].
  apply Nat.leb_le in Hk. by rewrite Hk, Hb.
Qed.

Lemma back_off_none s (n : nat) :
  (forall k, (4 <= S k <= n)%nat -> Re.boundary (s !! k) (s !! S k) = false) ->
  Re.back_off s n = None.
Proof.
  induction n as [|n IH]; intros Hall; cbn [Re.back_off]; [done|].
  destruct (4 <=? S n)%nat eqn:Hn; [|done]. apply Nat.leb_le in Hn.
  rewrite Hall by lia. apply IH. intros k Hk. apply Hall. lia.
Qed.

(** No match starts on a separator or inside a word. *)
Lemma match_here_separator prev c s :
  Re.is_word c = false -> Re.match_here prev (c :: s) = None.
Proof.
  intros Hc. unfold Re.match_here.
  destruct (Re.boundary prev (head (c :: s))); [|done].
  assert (ascii_isalpha c = false) as Halpha.
  { destruct (ascii_isalpha c) eqn:H; [|done]. apply alpha_word in H. congruence. }
  simpl. by rewrite Halpha.
Qed.

Lemma match_here_inside prev c s :
  from_option Re.is_word false prev = true -> Re.is_word c = true ->
  Re.match_here prev (c :: s) = None.
Proof.
  intros Hprev Hc. unfold Re.match_here, Re.boundary. simpl.
  by rewrite Hprev, Hc.
Qed.

(** At the start of a word the pattern matches the whole word if it is
    a good token, and nothing otherwise. *)
Lemma match_here_word prev c s :
  from_option Re.is_word false prev = false -> Re.is_word c = true ->
  let word := run_prefix Re.is_word (c :: s) in
  Re.match_here prev (c :: s) = if good_token word then Some word else None.
Proof.
  intros Hprev Hc word.
  pose proof (letters_vs_word (c :: s)) as Hlv. cbv zeta in Hlv. fold word in Hlv.
  pose proof (run_prefix_lstrip Re.is_word (c :: s)) as Hsplit. fold word in Hsplit.
  set (rest := lstrip_by Re.is_word (c :: s)) in *.
  assert (forall k, (k < Re.letters_prefix (c :: s))%nat ->
            from_option Re.is_word false ((c :: s) !! k) = true) as Hletters.
  { intros k Hk. apply letters_prefix_lookup in Hk as (d & -> & Hd).
    simpl. by apply alpha_word. }
  unfold Re.match_here, Re.boundary. cbn [head from_option].
  rewrite Hprev, Hc. cbn [xorb]. unfold good_token.
  destruct (forallb ascii_isalpha word) eqn:Hall.
  - rewrite Hlv, andb_true_r. destruct (4 <=? length word)%nat eqn:H4.
    + apply Nat.leb_le in H4.
      destruct (length word) as [|k] eqn:Hlen; [lia|].
      rewrite back_off_top; [| lia |].
      * cbn [fmap option_fmap option_map]. f_equal.
        rewrite <- Hlen.
        trans (take (length word) (word ++ rest));
          [by rewrite Hsplit|apply take_app_length].
      * unfold Re.boundary. rewrite Hletters by lia.
        replace ((c :: s) !! S k) with (head rest).
        2:{ trans ((word ++ rest) !! S k); [|by rewrite Hsplit].
            rewrite <- Hlen, lookup_app_r by lia.
            rewrite Nat.sub_diag. by destruct rest. }
        destruct (head rest) as [d|] eqn:Hd; [|done].
        apply lstrip_by_head in Hd. simpl. by rewrite Hd.
    + apply Nat.leb_gt in H4. rewrite back_off_none; [done|]. intros k Hk. lia.
  - rewrite andb_false_r. destruct Hlv as (Hlt & d & Hd & Hword).
    rewrite back_off_none; [done|]. intros k Hk.
    unfold Re.boundary. rewrite Hletters by lia.
    destruct (decide (S k = Re.letters_prefix (c :: s))) as [Heq|Hne].
    + rewrite Heq, Hd. simpl. by rewrite Hword.
    + by rewrite Hletters by lia.
Qed.

(** The scan, started outside a word or inside one. *)
Lemma findall_from_tokens (n : nat) :
  forall s, (length s <= n)%nat ->
    (forall prev, from_option Re.is_word false prev = false ->
       Re.findall_from prev 0 s = word_tokens s)
    /\ (forall prev, from_option Re.is_word false prev = true ->
       Re.findall_from prev 0 s = word_tokens (lstrip_by Re.is_word s)).
Proof.
  induction n as [|n IH]; intros [|c s] Hlen; simpl in Hlen; try lia;
    try (split; intros; reflexivity).
  destruct (IH s ltac:(lia)) as [IHout IHin].
  split; intros prev Hprev; cbn [Re.findall_from].
  - destruct (Re.is_word c) eqn:Hc.
    + rewrite match_here_word by done.
      rewrite word_tokens_span.
      pose proof (run_prefix_lstrip Re.is_word (c :: s)) as Hsplit.
      set (word := run_prefix Re.is_word (c :: s)) in *.
      assert (lstrip_by Re.is_word (c :: s) = lstrip_by Re.is_word s) as Hrest
        by (simpl; by rewrite Hc).
      assert (word <> []) as Hword by (unfold word; simpl; by rewrite Hc).
      assert (length word + length (lstrip_by Re.is_word (c :: s))
              = S (length s))%nat as Hlens
        by (by rewrite <- length_app, Hsplit).
      destruct word as [|c' word'] eqn:Hw; [done|]. rewrite <- Hw in *.
      destruct (good_token word) eqn:Hgood.
      * cbn [app]. f_equal.
        unfold good_token in Hgood.
        apply andb_true_iff in Hgood as [Hlong%Nat.leb_le Hall].
        pose proof (letters_vs_word (c :: s)) as Hlv. cbv zeta in Hlv.
        fold word in Hlv. rewrite Hall in Hlv.
        destruct (length word) as [|[|k]] eqn:Hlen'; try lia.
        cbn [Nat.sub].
        assert (S k <= length s)%nat as Hk by lia.
        rewrite findall_from_skip by done.
        assert (drop (S k) s = lstrip_by Re.is_word (c :: s)) as ->.
        { change (drop (S k) s) with (drop (S (S k)) (c :: s)).
          rewrite <- Hlen'. rewrite <- Hsplit at 1. apply drop_app_length. }
        destruct (IH (lstrip_by Re.is_word (c :: s))) as [_ IHrest]; [lia|].
        rewrite IHrest, lstrip_by_idem; [done|].
        destruct (letters_prefix_lookup (c :: s) (S k)) as (d & Hd & Halpha);
          [lia|].
        simpl in Hd. rewrite Hd. simpl. by apply alpha_word.
      * cbn [app]. rewrite IHin by (simpl; done). by rewrite Hrest.
    + rewrite match_here_separator by done.
      rewrite IHout by (simpl; done). by rewrite word_tokens_separator.
  - destruct (Re.is_word c) eqn:Hc.
    + rewrite match_here_inside by done. simpl. rewrite Hc.
      apply IHin. simpl. done.
    + rewrite match_here_separator by done. simpl. rewrite Hc.
      rewrite IHout by (simpl; done). by rewrite word_tokens_separator.
Qed.

(** The matches of the word pattern are the good tokens among the words
    of the text. *)
Lemma findall_words_tokens s : Re.findall_words s = word_tokens s.
Proof.
  unfold Re.findall_words.
  by apply (findall_from_tokens (length s) s).
Qed.

(** *** First-seen order *)

Lemma unique_step_prefix (l acc : list (list N)) :
  acc `prefix_of`
    fold_left (fun acc x => if bool_decide (x ∈ acc) then acc else acc ++ [x])
              l acc.
Proof.
  revert acc. induction l as [|x l IH]; intros acc; simpl; [done|].
  case_bool_decide; [apply IH|].
  etrans; [|apply IH]. by apply prefix_app_r.
Qed.

(** The loop with its [break] collects the first five distinct
    keywords. *)
Lemma collect_unique_take (keywords acc : list (list N))
    (seen : gset (list N)) :
  (forall x, x ∈ seen <-> x ∈ acc) ->
  (length acc < 5)%nat ->
  collect_unique keywords acc seen
  = take 5 (fold_left
              (fun acc x => if bool_decide (x ∈ acc) then acc else acc ++ [x])
              keywords acc).
Proof.
  revert acc seen.
  induction keywords as [|word rest IH]; intros acc seen Hseen Hlen;
    cbn [collect_unique fold_left].
  - symmetry. apply take_ge. lia.
  - destruct (decide (word ∈ acc)) as [Hin|Hout].
    + rewrite (bool_decide_false (word ∉ seen)) by (rewrite Hseen; tauto).
      rewrite (bool_decide_true (word ∈ acc)) by done.
      replace (5 <=? length acc)%nat with false
        by (symmetry; apply Nat.leb_gt; lia).
      by apply IH.
    + rewrite (bool_decide_true (word ∉ seen)) by (by rewrite Hseen).
      rewrite (bool_decide_false (word ∈ acc)) by done.
      destruct (5 <=? length (acc ++ [word]))%nat eqn:Hfull.
      * apply Nat.leb_le in Hfull. rewrite length_app in Hfull. simpl in Hfull.
        destruct (unique_step_prefix rest (acc ++ [word])) as [more ->].
        rewrite take_app_le by (rewrite length_app; simpl; lia).
        symmetry. apply take_ge. rewrite length_app. simpl. lia.
      * apply Nat.leb_gt in Hfull. apply IH; [|done].
        intros x. rewrite elem_of_union, elem_of_singleton, elem_of_app,
                    list_elem_of_singleton, Hseen. tauto.
Qed.

Lemma unique_in_order_nonempty (l : list (list N)) :
  l <> [] -> take 3 (take 5 (unique_in_order l)) <> [].
Proof.
  destruct l as [|x l]; [done|]. intros _. unfold unique_in_order. simpl.
  destruct (unique_step_prefix l [x]) as [more ->]. done.
Qed.

(** C9, as the specification words it, fails: a run of letters that
    touches a digit is not a token of the code, though it is a run of
    four alphabetic characters. *)
Lemma heuristic_tokens_counterexample :
  let w := world_with [] (fun _ => unreadable) [] in
  let content := lit "abcd1 wxyz" in
  (_simulate_filename (U:=ascii_db) content w).1 = Ok (lit "Wxyz")
  /\ keywords_of (U:=ascii_db) (strip (U:=ascii_db) content) = [lit "wxyz"]
  /\ heuristic_as_claimed (U:=ascii_db) content = lit "Abcd_Wxyz"
  /\ lit "Wxyz" <> lit "Abcd_Wxyz".
Proof. vm_compute. repeat split. discriminate. Qed.

(** C9, amended. For every content sample in which at least one keyword
    is found, the heuristic generator takes as tokens the words of the
    lower-cased content (maximal runs of word characters, so a run of
    letters that touches a digit, an underscore or a letter outside ASCII
    is no token) that consist of four or more ASCII letters, drops the
    stop words, keeps the first five distinct ones in first-seen order,
    and returns the first three, each capitalized, joined with
    underscores. *)
Theorem simulate_filename_keywords (content_sample : str) (w : World) :
  let tokens := word_tokens (lower (strip content_sample)) in
  let keywords :=
    List.filter (fun t => bool_decide (t ∉ common_words)) tokens in
  keywords <> [] ->
  _simulate_filename content_sample w
  = (Ok (join (lit "_")
           (map ascii_capitalize (take 3 (take 5 (unique_in_order keywords))))),
     w).
Proof.
  intros tokens keywords Hfound.
  pose proof (keywords_letters (strip content_sample)) as Hletters.
  unfold _simulate_filename. unfold keywords_of in *.
  rewrite findall_words_tokens in *. fold tokens keywords in Hletters |- *.
  rewrite collect_unique_take in * by (set_solver || (simpl; lia)).
  fold (unique_in_order keywords) in *.
  pose proof (unique_in_order_nonempty keywords Hfound) as Hne.
  destruct (take 5 (unique_in_order keywords)) as [|k ks] eqn:Htake; [done|].
  cbn [truthy]. unfold ret. do 3 f_equal.
  apply map_ext_in. intros t Ht.
  apply list_elem_of_In, subseteq_take in Ht.
  rewrite Forall_forall in Hletters. destruct (Hletters t Ht) as [Halpha _].
  by destruct (capitalize_letters t Halpha) as [-> _].
Qed.

End Keywords.

Lemma simulate_filename_keywords_witness :
  let w := world_with [] (fun _ => unreadable) [] in
  LLMService._simulate_filename (U:=ascii_db)
    (lit "The quick brown foxes and the quick dogs") w
  = (Ok (lit "Quick_Brown_Foxes"), w).
Proof.
  intros w.
  rewrite (simulate_filename_keywords (U:=ascii_db)
             (lit "The quick brown foxes and the quick dogs") w).
  - vm_compute. reflexivity.
  - vm_compute. discriminate.
Defined.

(** * Further properties of the code *)

(** ** The organizer: moving without loss *)

Section Moving.
Import FileOrganizer.

(** What the loop over the attempt numbers [a, ..., a+n-1] of a call with
    [retries = a + n] has done when it ends, whatever the operating
    system answered. *)
Lemma move_attempts_account source destination (retries : Z) :
  forall (n a : nat) (w : World) r w',
    retries = Z.of_nat (a + n) ->
    move_attempts source destination retries (Z.of_nat <$> seq a n) w = (r, w') ->
    exists m k : nat,
      (m <= n)%nat /\ (k <= m - 1)%nat /\ (m = 0%nat -> n = 0%nat)
      /\ attempts w' = (attempts w + m)%nat
      /\ faults w' = drop m (faults w)
      /\ slept w' = replicate k 2%Z ++ slept w
      /\ now w' = now w /\ invoke_model w' = invoke_model w
      /\ match r with
         | Ok true =>
             source ∈ files w
             /\ files w' = {[destination]} ∪ (files w ∖ {[source]})
             /\ moved w' = (source, destination) :: moved w
             /\ forall p, contents w' p =
                  if bool_decide (p = destination) then contents w source
                  else contents w p
         | Ok false => n = 0%nat /\ w' = w
         | Raise e =>
             (e = FileOrganizerError PermissionExhausted
              \/ e = FileOrganizerError OSFailure)
             /\ files w' = files w /\ moved w' = moved w
             /\ contents w' = contents w
         | Diverge => False
         end.
Proof.
  induction n as [|n IH]; intros a w r w' Hretries; simpl.
  - unfold ret. intros [= <- <-]. exists 0%nat, 0%nat. by repeat split.
  - unfold try_except, bind at 1, os_rename.
    destruct (head (faults w)) as [fault|] eqn:Hhead.
    + destruct fault; simpl.
      * case_bool_decide as Hsrc; simpl.
        -- intros [= <- <-]. exists 1%nat, 0%nat. simpl.
           repeat split; try done; try lia; auto; by destruct (faults w).
        -- intros [= <- <-]. exists 1%nat, 0%nat. simpl.
           repeat split; try done; try lia; auto; by destruct (faults w).
      * destruct (Z.ltb_spec (Z.of_nat a) (retries - 1)) as [Hmore|Hlast].
        -- unfold bind at 1, sleep. intros Hrun.
           apply IH in Hrun
             as (m & k & Hm & Hk & Hm0 & Ha & Hf & Hs & Hn & Hi & Hr); [|lia].
           simpl in Ha, Hf, Hs, Hn, Hi.
           assert (m <> 0%nat) as Hm1 by lia.
           exists (S m), (S k). repeat split; try lia; try done.
           ++ rewrite Hf. by destruct (faults w).
           ++ by rewrite Hs, replicate_snoc_cons.
           ++ destruct r as [[|]|e|]; simpl in Hr |- *; try done.
              destruct Hr as [? _]. lia.
        -- intros [= <- <-]. exists 1%nat, 0%nat. simpl.
           repeat split; try done; try lia; auto; by destruct (faults w).
      * intros [= <- <-]. exists 1%nat, 0%nat. simpl.
           repeat split; try done; try lia; auto; by destruct (faults w).
    + case_bool_decide as Hsrc; simpl.
      * intros [= <- <-]. exists 1%nat, 0%nat. simpl.
           repeat split; try done; try lia; auto; by destruct (faults w).
      * intros [= <- <-]. exists 1%nat, 0%nat. simpl.
           repeat split; try done; try lia; auto; by destruct (faults w).
Qed.

Lemma move_with_retry_account source destination (retries : Z) w r w' :
  _move_with_retry source destination retries w = (r, w') ->
  exists m k : nat,
    (m <= Z.to_nat retries)%nat /\ (k <= m - 1)%nat
    /\ (m = 0%nat -> (retries <= 0)%Z)
    /\ attempts w' = (attempts w + m)%nat
    /\ faults w' = drop m (faults w)
    /\ slept w' = replicate k 2%Z ++ slept w
    /\ now w' = now w /\ invoke_model w' = invoke_model w
    /\ match r with
       | Ok true =>
           source ∈ files w
           /\ files w' = {[destination]} ∪ (files w ∖ {[source]})
           /\ moved w' = (source, destination) :: moved w
           /\ forall p, contents w' p =
                if bool_decide (p = destination) then contents w source
                else contents w p
       | Ok false => (retries <= 0)%Z /\ w' = w
       | Raise e =>
           (e = FileOrganizerError PermissionExhausted
            \/ e = FileOrganizerError OSFailure)
           /\ files w' = files w /\ moved w' = moved w
           /\ contents w' = contents w
       | Diverge => False
       end.
Proof.
  unfold _move_with_retry, range.
  change (map Z.of_nat) with (fmap (M:=list) Z.of_nat).
  destruct (Z_lt_le_dec retries 0) as [Hneg|Hpos].
  - replace (Z.to_nat retries) with 0%nat by lia. simpl. unfold ret.
    intros [= <- <-]. exists 0%nat, 0%nat. repeat split; try done; lia.
  - intros Hrun.
    apply (move_attempts_account source destination retries
             (Z.to_nat retries) 0) in Hrun
      as (m & k & Hm & Hk & Hm0 & Ha & Hf & Hs & Hn & Hi & Hr); [|lia].
    exists m, k. repeat split; try done; try lia.
    destruct r as [[|]|e|]; try done.
    destruct Hr as [Hn0 ->]. split; [lia|done].
Qed.

(** X1. [_move_with_retry] calls [os.rename] at most [retries] times and
    sleeps two seconds between two calls only, so fewer times than it
    calls; it always comes back; and unless it reports success no path
    has appeared, disappeared or changed its content, and no move is on
    record. *)
Theorem move_with_retry_bounded (source destination : Path) (retries : Z)
    (w : World) :
  exists calls naps : nat,
    let '(r, w') := _move_with_retry source destination retries w in
    (Z.of_nat calls <= Z.max 0 retries)%Z
    /\ (naps <= calls - 1)%nat
    /\ attempts w' = (attempts w + calls)%nat
    /\ slept w' = replicate naps 2%Z ++ slept w
    /\ r <> Diverge
    /\ (r <> Ok true ->
        files w' = files w /\ contents w' = contents w /\ moved w' = moved w).
Proof.
  destruct (_move_with_retry source destination retries w) as [r w'] eqn:Hrun.
  apply move_with_retry_account in Hrun
    as (m & k & Hm & Hk & _ & Ha & _ & Hs & _ & _ & Hr).
  exists m, k. repeat split; try done; try lia.
  - by destruct r.
  - destruct r as [[|]|e|]; try done.
    + by destruct Hr as [_ ->].
    + apply Hr.
  - destruct r as [[|]|e|]; try done.
    + by destruct Hr as [_ ->].
    + apply Hr.
  - destruct r as [[|]|e|]; try done.
    + by destruct Hr as [_ ->].
    + apply Hr.
Qed.

(** X2. [_move_with_retry] answers [False] exactly when [retries] is
    zero or negative, and then it has not called [os.rename] at all: the
    world is as it was.  With the three attempts that [organize_file]
    asks for, [False] never comes back. *)
Theorem move_with_retry_false_iff (source destination : Path) (retries : Z)
    (w : World) :
  ((_move_with_retry source destination retries w).1 = Ok false
   <-> (retries <= 0)%Z)
  /\ ((retries <= 0)%Z ->
      _move_with_retry source destination retries w = (Ok false, w))
  /\ (_move_with_retry source destination default_retries w).1 <> Ok false.
Proof.
  assert ((retries <= 0)%Z ->
          _move_with_retry source destination retries w = (Ok false, w)) as Hnone.
  { intros Hle. unfold _move_with_retry, range.
    by replace (Z.to_nat retries) with 0%nat by lia. }
  assert (forall n, (_move_with_retry source destination n w).1 = Ok false ->
            (n <= 0)%Z) as Hfalse.
  { intros n. destruct (_move_with_retry source destination n w) as [r w'] eqn:Hrun.
    simpl. intros ->. apply move_with_retry_account in Hrun
      as (m & k & _ & _ & _ & _ & _ & _ & _ & _ & Hr). apply Hr. }
  split; [split; [apply Hfalse|intros Hle; by rewrite Hnone]|].
  split; [exact Hnone|].
  intros H. apply Hfalse in H. unfold default_retries in H. lia.
Qed.

(** How a call of [organize_file] can end, and what it has done by then. *)
Lemma organize_file_account fuel self (file_path : list (list N)) new_name w r w' :
  organize_file fuel self file_path new_name w = (r, w') ->
  match r with
  | Ok true =>
      exists destination,
        file_path ∈ files w
        /\ (destination ∉ files w)
        /\ destination <> organized_path self
        /\ parent destination = organized_path self
        /\ moved w' = (file_path, destination) :: moved w
        /\ files w' = {[destination]}
                       ∪ (({[organized_path self]} ∪ files w) ∖ {[file_path]})
        /\ forall p, contents w' p =
             if bool_decide (p = destination) then contents w file_path
             else contents w p
  | Ok false => False
  | Raise e =>
      (e = FileOrganizerError SourceNotFound /\ (file_path ∉ files w) /\ w' = w)
      \/ ((e = FileOrganizerError PermissionExhausted
           \/ e = FileOrganizerError OSFailure)
          /\ file_path ∈ files w
          /\ files w' = {[organized_path self]} ∪ files w
          /\ moved w' = moved w /\ contents w' = contents w)
  | Diverge => file_path ∈ files w /\ (fuel <= size (files w))%nat
  end.
Proof.
  unfold organize_file, bind at 1, path_exists.
  case_bool_decide as Hsrc; simpl.
  2:{ intros [= <- <-]. left. done. }
  unfold bind at 1, mkdir. unfold bind at 1.
  unfold _handle_conflict at 1, bind at 1, path_exists. simpl.
  rewrite parent_joinpath, suffix_joinpath, stem_joinpath.
  set (nf := _sanitize_filename new_name ++ suffix file_path).
  set (existing := {[organized_path self]} ∪ files w).
  assert (forall d w1 r1,
    d ∉ existing -> parent d = organized_path self ->
    (b <- _move_with_retry file_path d default_retries ;; ret b)
      {| files := existing; contents := contents w; now := now w;
         invoke_model := invoke_model w; faults := faults w;
         slept := slept w; attempts := attempts w; moved := moved w |}
      = (r1, w1) ->
    match r1 with
    | Ok true =>
        exists destination,
          file_path ∈ files w
          /\ (destination ∉ files w)
          /\ destination <> organized_path self
          /\ parent destination = organized_path self
          /\ moved w1 = (file_path, destination) :: moved w
          /\ files w1 = {[destination]} ∪ (existing ∖ {[file_path]})
          /\ forall p, contents w1 p =
               if bool_decide (p = destination) then contents w file_path
               else contents w p
    | Ok false => False
    | Raise e =>
        (e = FileOrganizerError SourceNotFound /\ (file_path ∉ files w) /\ w1 = w)
        \/ ((e = FileOrganizerError PermissionExhausted
             \/ e = FileOrganizerError OSFailure)
            /\ file_path ∈ files w
            /\ files w1 = existing
            /\ moved w1 = moved w /\ contents w1 = contents w)
    | Diverge => file_path ∈ files w /\ (fuel <= size (files w))%nat
    end) as Hmove.
  { intros d w1 r1 Hfree Hparent. unfold bind.
    destruct (_move_with_retry _ _ _ _) as [r2 w2] eqn:Hrun.
    apply move_with_retry_account in Hrun
      as (m & k & _ & _ & _ & _ & _ & _ & _ & _ & Hr).
    destruct r2 as [b|e|]; simpl in Hr.
    - unfold ret. intros [= <- <-]. destruct b.
      + destruct Hr as (_ & Hf & Hm & Hc). exists d.
        repeat split; try done.
        * intros Hd. apply Hfree. by apply elem_of_union_r.
        * intros ->. apply Hfree. by apply elem_of_union_l, elem_of_singleton.
      + destruct Hr as [Hr _]. unfold default_retries in Hr. lia.
    - intros [= <- <-]. right. destruct Hr as (He & Hf & Hm & Hc).
      by repeat split.
    - done. }
  case_bool_decide as Htarget; simpl.
  - destruct (probe _ _ _ _ fuel 1) as [d|] eqn:Hp.
    + unfold ret at 1.
      pose proof (probe_spec existing (organized_path self) (stem_of_name nf)
                    (suffix_of_name nf) fuel 1) as Hspec.
      rewrite Hp in Hspec. destruct Hspec as (k & _ & Hd & Hfree & _).
      apply Hmove; [done|]. rewrite Hd. unfold numbered.
      apply parent_joinpath.
    + unfold diverge. intros [= <- <-]. split; [done|].
      pose proof (probe_spec existing (organized_path self) (stem_of_name nf)
                    (suffix_of_name nf) fuel 1) as Hspec.
      rewrite Hp in Hspec.
      apply (numbered_pigeonhole (files w) (organized_path self)
               (stem_of_name nf) (suffix_of_name nf) 1 fuel).
      intros j Hj. specialize (Hspec j Hj).
      apply elem_of_union in Hspec as [Hroot|Hin]; [|done].
      apply elem_of_singleton in Hroot. unfold numbered in Hroot.
      by apply joinpath_fresh in Hroot.
  - unfold ret at 1. apply Hmove; [done|apply parent_joinpath].
Qed.


(** X4. [organize_file] reports a missing source exactly when the source
    does not exist at the time of the call, and then it has touched
    nothing: the organized folder is not created and no rename is
    tried.  When it fails in the move step, with the error for an
    exhausted permission or with the one for another error of the
    rename, the source is still where it was, with its content, the
    organized folder is there, and nothing has moved. *)
Theorem organize_file_failure fuel self (file_path : Path)
    (new_name : str) (w : World) :
  ((organize_file fuel self file_path new_name w).1
     = Raise (FileOrganizerError SourceNotFound)
   <-> file_path ∉ files w)
  /\ (file_path ∉ files w ->
      organize_file fuel self file_path new_name w
      = (Raise (FileOrganizerError SourceNotFound), w))
  /\ (forall e w',
      organize_file fuel self file_path new_name w = (Raise e, w') ->
      e = FileOrganizerError PermissionExhausted
      \/ e = FileOrganizerError OSFailure ->
      file_path ∈ files w /\ file_path ∈ files w'
      /\ organized_path self ∈ files w'
      /\ files w' = {[organized_path self]} ∪ files w
      /\ contents w' = contents w
      /\ moved w' = moved w).
Proof.
  assert (file_path ∉ files w ->
          organize_file fuel self file_path new_name w
          = (Raise (FileOrganizerError SourceNotFound), w)) as Hmissing.
  { intros Hsrc. unfold organize_file, bind at 1, path_exists.
    by rewrite bool_decide_false. }
  split; [split|split; [exact Hmissing|]].
  - destruct (organize_file fuel self file_path new_name w) as [r w'] eqn:Hrun.
    simpl. intros ->. apply organize_file_account in Hrun
      as [(_ & Hsrc & _)|([[=]|[=]] & _)]. done.
  - intros Hsrc. by rewrite Hmissing.
  - intros e w' Hrun Hmove. apply organize_file_account in Hrun
      as [(-> & _)|(_ & Hsrc & Hfiles & Hmoved & Hcontents)].
    { by destruct Hmove. }
    split; [done|]. rewrite Hfiles.
    split; [by apply elem_of_union_r|].
    split; [by apply elem_of_union_l, elem_of_singleton|]. done.
Qed.


End Moving.



(** ** The organizer: clean names *)

Section Cleaning.
Import FileOrganizer.

Lemma clean_name_fixed (s : list N) : clean_name s -> _sanitize_filename s = s.
Proof.
  intros (Hne & Hchars & Hhead & Hlast). unfold _sanitize_filename.
  assert (Re.delete_class invalid_chars s = s) as ->.
  { unfold Re.delete_class. apply forallb_filter_id, forallb_forall.
    intros c Hc. apply negb_true_iff.
    destruct (invalid_chars c) eqn:Hinv; [|done].
    apply invalid_chars_forbidden in Hinv.
    by apply Hchars in Hinv; [|apply list_elem_of_In]. }
  assert (forall c, ~ dot_or_space c -> char_in (lit ". ") c = false) as Hnot.
  { intros c Hc. destruct (char_in (lit ". ") c) eqn:Hin; [|done].
    by apply strip_chars_dot_space in Hin. }
  assert (strip_by (char_in (lit ". ")) s = s) as ->.
  { unfold strip_by. rewrite lstrip_by_fixed by (intros d Hd; by apply Hnot, Hhead).
    destruct (last s) as [d|] eqn:Hd.
    - by apply (rstrip_by_fixed _ _ d Hd), Hnot, Hlast.
    - by apply last_None in Hd. }
  by destruct s.
Qed.

Lemma sanitize_clean (s : list N) : clean_name (_sanitize_filename s).
Proof.
  assert (forall c, char_in (lit ". ") c = false -> ~ dot_or_space c) as Hnot.
  { intros c Hc Hds. apply strip_chars_dot_space in Hds. congruence. }
  unfold _sanitize_filename.
  destruct (strip_by_spec (char_in (lit ". ")) (Re.delete_class invalid_chars s))
    as (pre & post & Hsplit & _ & _ & Hhead & Hlast).
  destruct (strip_by _ _) as [|d core] eqn:Hcore; cbn [truthy negb].
  - repeat split; try done.
    + intros c. unfold forbidden, reserved.
      cbv [lit list_ascii_of_string map chr N_of_ascii N_of_digits].
      cbn [N.add N.mul]. rewrite !elem_of_cons, !elem_of_nil. lia.
    + intros c [= <-]. unfold dot_or_space. intros [[=]|[=]].
    + intros c [= <-]. unfold dot_or_space. intros [[=]|[=]].
  - repeat split; try done.
    + intros c Hc Hforb. apply invalid_chars_forbidden in Hforb.
      assert (c ∈ Re.delete_class invalid_chars s) as Hin.
      { rewrite Hsplit, !elem_of_app. auto. }
      apply delete_class_sound in Hin. congruence.
    + intros c Hc. by apply Hnot, Hhead.
    + intros c Hc. by apply Hnot, Hlast.
Qed.

(** X6. The names that [_sanitize_filename] leaves as they are are
    exactly the clean ones: not empty, without any forbidden character,
    and with neither a dot nor a space at either end. *)
Theorem sanitize_fixed_points (filename : str) :
  _sanitize_filename filename = filename <-> clean_name filename.
Proof.
  split; [|apply clean_name_fixed].
  intros <-. apply sanitize_clean.
Qed.

(** X7. [_sanitize_filename] is idempotent: sanitizing a sanitized name
    changes nothing. *)
Theorem sanitize_idempotent (filename : str) :
  _sanitize_filename (_sanitize_filename filename) = _sanitize_filename filename.
Proof. apply clean_name_fixed, sanitize_clean. Qed.

End Cleaning.

(** ** Reading files *)

Section Reading.
Import TextExtractor.
Context {U : UnicodeDB}.

Lemma strip_nil_iff (s : list N) : strip s = [] <-> forallb isspace s = true.
Proof.
  unfold strip, strip_by. split.
  - intros Hnil. apply lstrip_by_nil_iff.
    destruct (lstrip_by isspace s) as [|d r] eqn:Hl; [done|].
    assert (isspace d = false) as Hd
      by (apply (lstrip_by_head isspace s); by rewrite Hl).
    pose proof (rstrip_by_head isspace (d :: r) d eq_refl Hd) as Hhead.
    by rewrite Hnil in Hhead.
  - intros Hall. apply lstrip_by_nil_iff in Hall. by rewrite Hall.
Qed.

Lemma join_blank (parts : list (list N)) :
  Forall (fun part => forallb isspace part = true) parts ->
  forallb isspace (join (lit " ") parts) = true.
Proof.
  assert (isspace (chr " ") = true) as Hsp by (by rewrite isspace_ascii).
  induction parts as [|part parts IH]; [done|].
  intros Hall. apply Forall_cons in Hall as [Hpart Hparts].
  destruct parts as [|part' parts]; [done|].
  change (join (lit " ") (part :: part' :: parts))
    with (part ++ chr " " :: join (lit " ") (part' :: parts)).
  rewrite forallb_app. cbn [forallb]. by rewrite Hpart, Hsp, IH.
Qed.

(** How the loop over the encodings ends. *)
Lemma try_encodings_outcome file_path encodings w :
  (exists t before enc after,
      try_encodings file_path encodings w = (Ok t, w)
      /\ encodings = before ++ enc :: after
      /\ as_text (contents w file_path) enc = Decoded t
      /\ Forall (fails_to_read w file_path) before)
  \/ (try_encodings file_path encodings w
        = (Raise (TextExtractionError EncodingFailure), w)
      /\ Forall (fails_to_read w file_path) encodings).
Proof.
  induction encodings as [|enc rest IH]; simpl.
  - right. by split.
  - unfold try_except, read_text.
    destruct (as_text (contents w file_path) enc) as [txt| |] eqn:Henc; simpl.
    + left. exists txt, [], enc, rest. by repeat split.
    + destruct IH as [(t & before & e & after & Hrun & -> & He & Hbefore)
                     |[Hrun Hall]].
      * left. exists t, (enc :: before), e, after. repeat split; try done.
        constructor; [|done]. intros t'. by rewrite Henc.
      * right. split; [done|]. constructor; [|done]. intros t'. by rewrite Henc.
    + destruct IH as [(t & before & e & after & Hrun & -> & He & Hbefore)
                     |[Hrun Hall]].
      * left. exists t, (enc :: before), e, after. repeat split; try done.
        constructor; [|done]. intros t'. by rewrite Henc.
      * right. split; [done|]. constructor; [|done]. intros t'. by rewrite Henc.
Qed.

(** X8. [_extract_from_text] returns what the first of UTF-8, Latin-1
    and CP1252 that can read the file gives: an encoding is consulted
    only after all those before it have failed, whether they failed to
    decode or for any other reason.  It fails, with the error for
    encodings, exactly when none of the three reads the file. *)
Theorem extract_from_text_first_decodable (file_path : Path) (w : World) :
  (forall t,
     _extract_from_text file_path w = (Ok t, w)
     <-> exists before enc after,
           [utf_8; latin_1; cp1252] = before ++ enc :: after
           /\ as_text (contents w file_path) enc = Decoded t
           /\ Forall (fails_to_read w file_path) before)
  /\ (_extract_from_text file_path w
        = (Raise (TextExtractionError EncodingFailure), w)
      <-> forall enc, fails_to_read w file_path enc).
Proof.
  unfold _extract_from_text. set (read := as_text (contents w file_path)).
  destruct (try_encodings_outcome file_path [utf_8; latin_1; cp1252] w)
    as [(t & before & enc & after & Hrun & Hsplit & Henc & Hbefore)|[Hrun Hall]];
    rewrite Hrun.
  - split.
    + intros t'. split.
      * intros [= <-]. eauto 10.
      * intros (before' & enc' & after' & Hsplit' & Henc' & Hbefore').
        f_equal. f_equal.
        assert (forall (l1 l2 : list encoding) e1 e2 r1 r2 t1 t2,
                  l1 ++ e1 :: r1 = l2 ++ e2 :: r2 ->
                  read e1 = Decoded t1 -> read e2 = Decoded t2 ->
                  Forall (fails_to_read w file_path) l1 ->
                  Forall (fails_to_read w file_path) l2 ->
                  t1 = t2) as Hfirst.
        { clear. induction l1 as [|a l1 IH]; intros [|b l2] e1 e2 r1 r2 t1 t2;
            simpl; intros Heq H1 H2 Hl1 Hl2; simplify_eq.
          - congruence.
          - apply Forall_cons in Hl2 as [Hb _]. by destruct (Hb t1).
          - apply Forall_cons in Hl1 as [Ha _]. by destruct (Ha t2).
          - apply Forall_cons in Hl1 as [_ Hl1].
            apply Forall_cons in Hl2 as [_ Hl2]. eauto. }
        rewrite Hsplit in Hsplit'. eauto.
    + split; [done|]. intros Hnone.
      by destruct (Hnone enc t).
  - split.
    + intros t. split; [done|].
      intros (before & enc & after & Hsplit & Henc & _).
      rewrite Forall_forall in Hall.
      destruct (Hall enc) with t; [|done].
      rewrite Hsplit, elem_of_app, elem_of_cons. auto.
    + split; [|done]. intros _ enc.
      rewrite Forall_forall in Hall. apply Hall.
      destruct enc; rewrite !elem_of_cons; auto.
Qed.

(** Pages without text join to a text without content. *)
Lemma blank_pages_join (pages : list (list N)) :
  Forall (fun page => strip page = []) pages ->
  strip (join (lit " ") (List.filter truthy pages)) = [].
Proof.
  intros Hblank. apply strip_nil_iff, join_blank.
  apply Forall_forall. intros part Hpart.
  apply list_elem_of_In, filter_In in Hpart as [Hpart _].
  apply strip_nil_iff. rewrite Forall_forall in Hblank.
  by apply Hblank, list_elem_of_In.
Qed.

(** A joined text without content was joined from parts without
    content. *)
Lemma join_blank_parts (parts : list (list N)) :
  forallb isspace (join (lit " ") parts) = true ->
  Forall (fun part => forallb isspace part = true) parts.
Proof.
  induction parts as [|part parts IH]; [done|].
  destruct parts as [|part' parts].
  - intros Hpart. by repeat constructor.
  - change (join (lit " ") (part :: part' :: parts))
      with (part ++ chr " " :: join (lit " ") (part' :: parts)).
    rewrite forallb_app. cbn [forallb]. rewrite !andb_true_iff.
    intros (Hpart & _ & Hrest).
    constructor; [done|]. by apply IH.
Qed.

Lemma joined_pages_blank (pages : list (list N)) :
  strip (join (lit " ") (List.filter truthy pages)) = []
  <-> Forall (fun page => strip page = []) pages.
Proof.
  split; [|apply blank_pages_join].
  intros Hjoined. apply strip_nil_iff, join_blank_parts in Hjoined.
  apply Forall_forall. intros page Hpage.
  destruct page as [|c page]; [by apply strip_nil_iff|].
  apply strip_nil_iff. rewrite Forall_forall in Hjoined. apply Hjoined.
  apply list_elem_of_In, filter_In. split; [by apply list_elem_of_In|done].
Qed.

(** X9. What a parsed document gives, in full.  When every page has no
    text, or white space only, it gives the empty sample, and no error.
    When some page has more, it gives the texts of the pages that have
    one, in order, joined by single spaces, and that text has a
    character that is not white space. *)
Theorem extract_from_pdf_blank (file_path : Path) (w : World)
    (pages : list str) :
  as_pdf (contents w file_path) = PdfPages pages ->
  (Forall (fun page => strip page = []) pages ->
   _extract_from_pdf file_path w = (Ok [], w))
  /\ (~ Forall (fun page => strip page = []) pages ->
      _extract_from_pdf file_path w
      = (Ok (join (lit " ") (List.filter truthy pages)), w)
      /\ strip (join (lit " ") (List.filter truthy pages)) <> []).
Proof.
  intros Hpages.
  unfold _extract_from_pdf, try_except, bind, read_pdf_pages.
  rewrite Hpages. split.
  - intros Hblank. by rewrite (blank_pages_join pages Hblank).
  - intros Hsome.
    destruct (strip (join (lit " ") (List.filter truthy pages)))
      as [|c rest] eqn:Hs; [|done].
    by apply joined_pages_blank in Hs.
Qed.

(** The grounds of two different outcomes never hold together. *)
Local Ltac grounds_clash Hpdf Hsupported :=
  repeat match goal with
         | H : _ /\ _ |- _ => destruct H
         | H : exists _, _ |- _ => destruct H
         | H : _ \/ _ |- _ => destruct H
         end;
  try discriminate;
  first
    [ congruence
    | match goal with
      | Hin : ?p ∈ ?X, Hout : ?p ∉ ?X |- _ => exact (Hout Hin)
      | Hx : ?e = lit ".pdf", Hy : ?e ∈ [lit ".txt"; lit ".text"] |- _ =>
          rewrite Hx in Hy; exact (Hpdf Hy)
      | Hn : ?e ∉ [lit ".pdf"; lit ".txt"; lit ".text"] |- _ =>
          apply Hn, Hsupported; auto
      | Hall : forall enc, fails_to_read _ _ enc, Henc : _ = Decoded _ |- _ =>
          exact (Hall _ _ Henc)
      end ].

(** How a call of [extract_text] ends, and on what grounds. *)
Lemma extract_text_outcome self (file_path : list (list N)) (w : World) :
  let extension := lower (suffix file_path) in
  let parse := as_pdf (contents w file_path) in
  exists r,
    extract_text self file_path w = (r, w)
    /\ ((r = Raise (TextExtractionError NotFound) /\ (file_path ∉ files w))
        \/ (r = Raise (TextExtractionError Unsupported)
            /\ file_path ∈ files w
            /\ (extension ∉ [lit ".pdf"; lit ".txt"; lit ".text"]))
        \/ (r = Raise (TextExtractionError CorruptPdf)
            /\ file_path ∈ files w /\ extension = lit ".pdf"
            /\ parse = PdfUnreadable)
        \/ (r = Raise (TextExtractionError PdfFailed)
            /\ file_path ∈ files w /\ extension = lit ".pdf"
            /\ parse = PdfCrashes)
        \/ (r = Raise (TextExtractionError EncodingFailure)
            /\ file_path ∈ files w
            /\ extension ∈ [lit ".txt"; lit ".text"]
            /\ forall enc, fails_to_read w file_path enc)
        \/ (exists text, r = Ok text
            /\ file_path ∈ files w
            /\ ((extension = lit ".pdf" /\ exists pages, parse = PdfPages pages)
                \/ (extension ∈ [lit ".txt"; lit ".text"]
                    /\ exists enc t,
                         as_text (contents w file_path) enc = Decoded t)))).
Proof.
  intros extension parse. subst extension parse.
  unfold extract_text, bind at 1, path_exists.
  case_bool_decide as Hfound; simpl; [|eexists; split; [done|]; by left].
  unfold try_except, bind, source_text.
  case_bool_decide as Hpdf.
  - unfold _extract_from_pdf, try_except, bind, read_pdf_pages.
    destruct (as_pdf (contents w file_path)) as [pages| |] eqn:Hparse; simpl.
    + destruct (negb _); simpl; eexists; (split; [done|]);
        do 5 right; eexists; (split; [done|]); (split; [done|]); left; eauto.
    + eexists. split; [done|]. do 2 right. left. done.
    + eexists. split; [done|]. do 3 right. left. done.
  - case_bool_decide as Htxt.
    + destruct (try_encodings_outcome file_path [utf_8; latin_1; cp1252] w)
        as [(t & before & enc & after & Hrun & _ & Henc & _)|[Hrun Hall]];
        unfold _extract_from_text; rewrite Hrun; simpl.
      * eexists. split; [done|]. do 5 right. eexists.
        split; [done|]. split; [done|]. right. eauto.
      * eexists. split; [done|]. do 4 right. left.
        repeat split; try done.
        intros enc. rewrite Forall_forall in Hall. apply Hall.
        destruct enc; rewrite !elem_of_cons; auto.
    + eexists. split; [done|]. right. left. repeat split; try done.
      rewrite elem_of_cons. intros [?|?]; done.
Qed.

(** X10. What each outcome of [extract_text] tells, for an integer
    [max_length] and a path whose existence can be tested.  It reads
    only: the world is left as it was.  It fails for a missing file
    exactly when the path does not exist, whatever the extension, for
    the existence is tested first; for an unsupported type exactly when
    the file exists and its lower-cased extension is not [.pdf], [.txt]
    or [.text]; for a corrupt document, or a failed one, exactly when
    the file is a [.pdf] that the parser rejects, or crashes on; for the
    encodings exactly when the file is a [.txt] or [.text] that none of
    the three encodings reads.  It returns a text exactly for an
    existing [.pdf] that the parser accepts and for an existing [.txt]
    or [.text] that one of the encodings reads.  The error of its
    catch-all handler is never raised. *)
Theorem extract_text_classification self (file_path : Path) (w : World) :
  let run := extract_text self file_path w in
  let extension := lower (suffix file_path) in
  let parse := as_pdf (contents w file_path) in
  run.2 = w
  /\ (run.1 = Raise (TextExtractionError NotFound) <-> file_path ∉ files w)
  /\ (run.1 = Raise (TextExtractionError Unsupported)
      <-> file_path ∈ files w
          /\ (extension ∉ [lit ".pdf"; lit ".txt"; lit ".text"]))
  /\ (run.1 = Raise (TextExtractionError CorruptPdf)
      <-> file_path ∈ files w /\ extension = lit ".pdf"
          /\ parse = PdfUnreadable)
  /\ (run.1 = Raise (TextExtractionError PdfFailed)
      <-> file_path ∈ files w /\ extension = lit ".pdf"
          /\ parse = PdfCrashes)
  /\ (run.1 = Raise (TextExtractionError EncodingFailure)
      <-> file_path ∈ files w /\ extension ∈ [lit ".txt"; lit ".text"]
          /\ forall enc, fails_to_read w file_path enc)
  /\ ((exists text, run.1 = Ok text)
      <-> file_path ∈ files w
          /\ ((extension = lit ".pdf" /\ exists pages, parse = PdfPages pages)
              \/ (extension ∈ [lit ".txt"; lit ".text"]
                  /\ exists enc t,
                       as_text (contents w file_path) enc = Decoded t)))
  /\ run.1 <> Raise (TextExtractionError UnexpectedExtraction).
Proof.
  intros run extension parse.
  destruct (extract_text_outcome self file_path w) as (r & Hrun & Hr).
  fold extension parse in Hr. subst run. rewrite Hrun. cbn [fst snd].
  assert (lit ".pdf" ∉ [lit ".txt"; lit ".text"]) as Hpdf by by_evaluation.
  assert (forall x : list N,
            x = lit ".pdf" \/ x ∈ [lit ".txt"; lit ".text"] ->
            x ∈ [lit ".pdf"; lit ".txt"; lit ".text"]) as Hsupported.
  { intros x. by rewrite (elem_of_cons _ x (lit ".pdf")). }
  clearbody extension parse. clear Hrun.
  split; [done|].
  destruct Hr as [(-> & H)|[(-> & H)|[(-> & H)|[(-> & H)|[(-> & H)
                 |(text & -> & H)]]]]];
    repeat apply conj; try done; intros H';
    first [ done | exact H | by eauto | exfalso; grounds_clash Hpdf Hsupported ].
Qed.

End Reading.

Lemma extract_from_pdf_blank_witness :
  let w := world_with [path_of ["in"; "scan.pdf"]] (fun _ => blank_scan) [] in
  TextExtractor._extract_from_pdf (U:=ascii_db) (path_of ["in"; "scan.pdf"]) w
  = (Ok [], w).
Proof.
  intros w.
  destruct (extract_from_pdf_blank (U:=ascii_db) (path_of ["in"; "scan.pdf"]) w
              [lit "  "; []] eq_refl) as [Hblank _].
  apply Hblank. repeat constructor.
Defined.

(** ** Naming without the remote model *)

Section Offline.
Import LLMService.
Context {U : UnicodeDB}.

Lemma simulate_offline content_sample remote w :
  _simulate_filename content_sample (with_invoke_model remote w)
  = ((_simulate_filename content_sample w).1, with_invoke_model remote w).
Proof.
  unfold _simulate_filename.
  destruct (collect_unique _ _ _); cbn [truthy]; [|done].
  destruct (take 3 _); cbn [truthy]; [done|].
  by destruct (Re.delete_class _ _).
Qed.

(** X11. The two handlers of [_initialize_bedrock].  When a service is
    asked for the remote mode and [import boto3] raises [ImportError],
    or [boto3.client] raises [NoCredentialsError] or
    [PartialCredentialsError], a service is built all the same, and it
    is the service of the heuristic mode: it holds no client and its
    mode reads [simulated].  A service built that way, or built for
    another mode than the remote one, never consults the remote model:
    the name it generates is the same whatever the remote model would
    answer. *)
Theorem generate_filename_offline (mode : str)
    (bedrock_model bedrock_region : option str) (max_tokens : Z)
    (env : boto_env) (content_sample : str) (original_filename : option str)
    (remote : str -> request_body -> option response_body) (w : World) :
  mode <> lit "bedrock" \/ env = BotoMissing \/ env = CredentialsErrorRaised ->
  exists self,
    __init__ mode bedrock_model bedrock_region max_tokens env = Some self
    /\ _bedrock_client self = false
    /\ (mode = lit "bedrock" ->
        LLMService.mode self = lit "simulated"
        /\ __init__ (lit "simulated") bedrock_model bedrock_region
             max_tokens env = Some self)
    /\ generate_filename self content_sample original_filename
         (with_invoke_model remote w)
       = ((generate_filename self content_sample original_filename w).1,
          with_invoke_model remote w).
Proof.
  intros Hcase.
  assert (exists self,
            __init__ mode bedrock_model bedrock_region max_tokens env
              = Some self
            /\ _bedrock_client self = false
            /\ (mode = lit "bedrock" ->
                LLMService.mode self = lit "simulated"
                /\ __init__ (lit "simulated") bedrock_model bedrock_region
                     max_tokens env = Some self))
    as (self & Hself & Hclient & Hmode).
  { unfold __init__. destruct (decide (mode = lit "bedrock")) as [->|Hother].
    - rewrite bool_decide_true by done.
      destruct Hcase as [?|[->| ->]]; [done| |]; by eexists.
    - rewrite bool_decide_false by done. by eexists. }
  exists self. split; [done|]. split; [done|]. split; [done|].
  unfold generate_filename. destruct (_ || _); [done|].
  unfold try_except, generator, _bedrock_filename. rewrite Hclient.
  cbn [negb].
  assert (forall w0, exists name,
            _simulate_filename content_sample w0 = (Ok name, w0)) as Hsim.
  { intros w0. destruct (simulate_cases content_sample w0) as (n & ? & _).
    eauto. }
  repeat case_bool_decide; try done.
  + rewrite simulate_offline.
    by destruct (Hsim w) as [name ->].
  + rewrite simulate_offline.
    by destruct (Hsim w) as [name ->].
Qed.

(** X12. When the service holds a client and the remote model cannot be
    reached, the remote generator fails with [LLMServiceError], and
    [generate_filename] then answers with the time-stamped fallback
    name: the heuristic generator is not tried. *)
Theorem bedrock_failure_falls_back self (content_sample : str)
    (original_filename : option str) (w : World) :
  mode self = lit "bedrock" ->
  _bedrock_client self = true ->
  truthy (strip content_sample) = true ->
  (forall model body, invoke_model w model body = None) ->
  _bedrock_filename self content_sample w = (Raise LLMServiceError, w)
  /\ generate_filename self content_sample original_filename w
     = (Ok (lit "document_" ++ strftime_Ymd_HMS (now w)), w).
Proof.
  intros Hmode Hclient Hcontent Hdown.
  assert (_bedrock_filename self content_sample w = (Raise LLMServiceError, w))
    as Hfail.
  { unfold _bedrock_filename. rewrite Hclient. cbn [negb].
    unfold try_except, bind at 1.
    destruct (bedrock_model self) as [model|]; simpl; [|done].
    unfold bind, call_bedrock. by rewrite Hdown. }
  split; [done|].
  unfold generate_filename.
  assert (truthy content_sample = true) as ->.
  { destruct content_sample; [|done]. by vm_compute in Hcontent. }
  rewrite Hcontent. cbn [negb orb].
  unfold try_except, generator. rewrite Hmode.
  rewrite bool_decide_false by (by vm_compute).
  rewrite bool_decide_true by done.
  by rewrite Hfail.
Qed.

(** X13. The remote generator looks at the first 500 characters of the
    content sample only: two samples that agree on them give the same
    request, hence the same outcome, whatever the remote model is. *)
Theorem bedrock_prompt_window self (c1 c2 : str) (w : World) :
  _bedrock_client self = true ->
  slice_to 500 c1 = slice_to 500 c2 ->
  _bedrock_filename self c1 w = _bedrock_filename self c2 w.
Proof.
  intros Hclient Hsame. unfold _bedrock_filename, prompt_for.
  by rewrite Hclient, Hsame.
Qed.

End Offline.

(** Remote mode asked for, and [boto3.client] raises a credentials
    error. *)
Lemma generate_filename_offline_witness :
  let w := world_with [] (fun _ => unreadable) [] in
  exists self,
    LLMService.__init__ (lit "bedrock") (Some (lit "anthropic.claude-v2"))
      (Some (lit "us-east-1")) 50 LLMService.CredentialsErrorRaised = Some self
    /\ LLMService.mode self = lit "simulated"
    /\ (LLMService.generate_filename (U:=ascii_db) self
          (lit "Quarterly sales report") None
          (with_invoke_model (fun _ _ => Some {| completion := Some (lit "x");
                                                 text := None |}) w)).1
       = Ok (lit "Quarterly_Sales_Report").
Proof.
  intros w.
  destruct (generate_filename_offline (U:=ascii_db) (lit "bedrock")
              (Some (lit "anthropic.claude-v2")) (Some (lit "us-east-1")) 50
              LLMService.CredentialsErrorRaised (lit "Quarterly sales report") None
              (fun _ _ => Some {| completion := Some (lit "x"); text := None |}) w)
    as (self & Hself & _ & Hmode & Hrun); [right; right; reflexivity|].
  exists self. split; [exact Hself|].
  split; [apply Hmode; reflexivity|].
  rewrite Hrun. injection Hself as <-. vm_compute. reflexivity.
Defined.

(** A client whose every call fails. *)
Lemma bedrock_failure_falls_back_witness :
  let w := world_with [] (fun _ => unreadable) [] in
  LLMService.generate_filename (U:=ascii_db)
    (bedrock_service (Some "anthropic.claude-v2"))
    (lit "Quarterly sales report") None w
  = (Ok (lit "document_20240307_090500"), w).
Proof.
  intros w.
  destruct (bedrock_failure_falls_back (U:=ascii_db)
              (bedrock_service (Some "anthropic.claude-v2"))
              (lit "Quarterly sales report") None w) as [_ Hrun].
  - reflexivity.
  - reflexivity.
  - vm_compute. reflexivity.
  - intros model body. reflexivity.
  - rewrite Hrun. vm_compute. reflexivity.
Defined.

(** Two samples that differ after the first 500 characters. *)
Lemma bedrock_prompt_window_witness :
  let w := with_model (Some "Sales_Report")
             (world_with [] (fun _ => unreadable) []) in
  let self := bedrock_service (Some "anthropic.claude-v2") in
  LLMService._bedrock_filename (U:=ascii_db) self
    (replicate 500 (chr "a") ++ lit " first ending") w
  = LLMService._bedrock_filename (U:=ascii_db) self
      (replicate 500 (chr "a") ++ lit " another ending") w.
Proof.
  intros w self.
  apply (bedrock_prompt_window (U:=ascii_db) self).
  - reflexivity.
  - vm_compute. reflexivity.
Defined.

(** ** The pipeline as a whole *)

Section Chain.
Import FileOrganizer FileProcessor.
Context {U : UnicodeDB}.

(** The first two stages always hand a usable name to the third, and
    leave the world alone; what [process_file] does is what the
    organizer then does under that name. *)
Lemma process_file_chain fuel self (file_path : list (list N)) w :
  exists content_sample new_name,
    extract_step self file_path w = (Ok content_sample, w)
    /\ (file_path ∉ files w -> content_sample = [])
    /\ LLMService.generate_filename (llm_service self) content_sample
         (Some (name file_path)) w = (Ok new_name, w)
    /\ good_name new_name
    /\ process_file fuel self file_path w
       = match organize_file fuel (organizer self) file_path new_name w with
         | (Ok _, w') => (Ok tt, w')
         | (Raise (FileOrganizerError cause), w') =>
             (Raise (FileProcessorError (OrganizeFailed cause)), w')
         | (Raise _, w') => (Raise (FileProcessorError UnexpectedFailure), w')
         | (Diverge, w') => (Diverge, w')
         end.
Proof.
  assert (exists content_sample,
            extract_step self file_path w = (Ok content_sample, w)
            /\ (file_path ∉ files w -> content_sample = []))
    as (content_sample & Hextract & Hmissing).
  { unfold extract_step, try_except.
    destruct (extract_text_cases (extractor self) file_path w)
      as (r & Hrun & [[txt ->]|[why ->]]); rewrite Hrun.
    - exists txt. split; [done|]. intros Hsrc. exfalso. revert Hrun.
      unfold TextExtractor.extract_text, bind at 1, path_exists.
      by rewrite bool_decide_false.
    - by exists []. }
  destruct (generate_filename_cases (llm_service self) content_sample
              (Some (name file_path)) w) as (new_name & Hname & Hgood).
  exists content_sample, new_name.
  split; [done|]. split; [done|]. split; [done|]. split; [done|].
  unfold process_file, try_except at 1, bind at 1. rewrite Hextract.
  unfold bind at 1, naming_step, try_except at 1. rewrite Hname.
  unfold bind, organize_step, try_except.
  destruct (organize_file _ _ _ _ _) as [[b|e|] w'] eqn:Hrun; [done| |done].
  apply organize_file_errors in Hrun as [cause ->]. done.
Qed.

(** The extension of a name built from a dotless stem, with or without
    a number. *)
Lemma numbered_name_suffix (stem ext : list N) (n : Z) :
  stem <> [] -> chr "." ∉ stem ->
  ext = [] \/ (exists e, ext = chr "." :: e /\ e <> [] /\ chr "." ∉ e) ->
  suffix_of_name (stem ++ ext) = ext
  /\ stem_of_name (stem ++ ext) = stem
  /\ suffix_of_name (stem ++ lit "_" ++ str_of_Z n ++ ext) = ext.
Proof.
  intros Hne Hdot Hext.
  assert (chr "." ∉ lit "_") as Hunderscore.
  { cbv [lit list_ascii_of_string map chr N_of_ascii N_of_digits].
    cbn [N.add N.mul]. rewrite elem_of_cons, elem_of_nil. lia. }
  destruct Hext as [->|(e & -> & He & Hedot)].
  - rewrite !app_nil_r.
    destruct (suffix_of_dotless stem Hdot) as [-> ->]. repeat split.
    apply suffix_of_dotless. rewrite !not_elem_of_app.
    auto using str_of_Z_dotless.
  - destruct (suffix_of_extended stem e Hne He Hedot) as [-> ->].
    repeat split. rewrite !app_assoc.
    apply suffix_of_extended; try done.
    rewrite <- !app_assoc. by destruct stem.
Qed.

Lemma process_file_returns fuel self (file_path : list (list N)) w :
  (size (files w) < fuel)%nat ->
  (process_file fuel self file_path w).1 <> Diverge.
Proof.
  intros Hfuel.
  destruct (process_file_chain fuel self file_path w)
    as (content & new_name & _ & _ & _ & _ & ->).
  destruct (organize_file _ _ _ _ _) as [[b|e|] w'] eqn:Hrun; simpl; [done| |].
  - apply organize_file_errors in Hrun as [cause ->]. done.
  - apply organize_file_account in Hrun as [_ Hshort]. lia.
Qed.

(** X14. [process_file] fails in one way only: with a
    [FileProcessorError] that wraps a [FileOrganizerError].  The
    extraction stage and the naming stage never make it fail, so its
    handler for a failed naming is never reached, and neither is the one
    for unexpected exceptions as long as the organizer meets no failure
    of the operating system other than those of the renames.  Given more
    rounds for the conflict probe than there are paths it always comes
    back. *)
Theorem process_file_failures fuel self (file_path : Path) (w : World) :
  (forall e, (process_file fuel self file_path w).1 = Raise e ->
     exists cause, e = FileProcessorError (OrganizeFailed cause))
  /\ ((size (files w) < fuel)%nat ->
      (process_file fuel self file_path w).1 <> Diverge).
Proof.
  split; [|apply process_file_returns].
  destruct (process_file_chain fuel self file_path w)
    as (content & new_name & _ & _ & _ & _ & ->).
  destruct (organize_file _ _ _ _ _) as [[b|e|] w'] eqn:Hrun; simpl; try done.
  apply organize_file_errors in Hrun as [cause ->].
  intros e [= <-]. eauto.
Qed.

(** X15. For a path at which no file exists [process_file] goes through
    all three stages (extraction fails, the fallback name is generated,
    the organizer finds no source) and fails with the organizer's
    error for a missing source wrapped in a [FileProcessorError]; the
    world is untouched, and in particular the organized folder is not
    created. *)
Theorem process_file_missing_file fuel self (file_path : Path) (w : World) :
  file_path ∉ files w ->
  (TextExtractor.extract_text (extractor self) file_path w).1
    = Raise (TextExtractionError NotFound)
  /\ process_file fuel self file_path w
     = (Raise (FileProcessorError (OrganizeFailed SourceNotFound)), w).
Proof.
  intros Hsrc. split.
  - unfold TextExtractor.extract_text, bind at 1, path_exists.
    by rewrite bool_decide_false.
  - destruct (process_file_chain fuel self file_path w)
      as (content & new_name & _ & _ & _ & _ & ->).
    unfold organize_file, bind at 1, path_exists.
    by rewrite bool_decide_false.
Qed.



End Chain.

Lemma process_file_missing_file_witness :
  let w := world_with [] (fun _ => unreadable) [] in
  FileProcessor.process_file (U:=ascii_db) 2 (default_processor ["out"])
    (path_of ["in"; "gone.txt"]) w
  = (Raise (FileProcessorError (OrganizeFailed SourceNotFound)), w).
Proof.
  intros w.
  apply (process_file_missing_file (U:=ascii_db) 2 (default_processor ["out"])
           (path_of ["in"; "gone.txt"]) w).
  by_evaluation.
Defined.


(** ** From naming to organizing *)

Section Handover.
Import FileOrganizer FileProcessor.
Context {U : UnicodeDB}.

(** X17. What the naming service hands over suits the organizer: every
    name it generates passes [_sanitize_filename] unchanged, and has no
    dot, hence no extension of its own that could take the place of the
    file's extension. *)
Theorem generated_names_pass_sanitizer self (content_sample : str)
    (original_filename : option str) (w : World) :
  exists new_name,
    LLMService.generate_filename self content_sample original_filename w
      = (Ok new_name, w)
    /\ _sanitize_filename new_name = new_name
    /\ (chr "." ∉ new_name)
    /\ forall extension,
         extension = [] \/
         (exists e, extension = chr "." :: e /\ e <> [] /\ chr "." ∉ e) ->
         suffix_of_name (new_name ++ extension) = extension.
Proof.
  destruct (generate_filename_cases self content_sample original_filename w)
    as (new_name & Hrun & Hgood).
  exists new_name. split; [done|].
  split; [by apply sanitize_good_name|].
  split; [by apply good_name_dotless|].
  intros extension Hshape.
  apply (numbered_name_suffix new_name extension 0 (proj1 Hgood)
           (good_name_dotless _ Hgood) Hshape).
Qed.

(** X18. A file whose content sample is empty or white space only is
    organized under the time-stamped fallback name; a [.pdf] document
    whose pages carry no text (a scan, say) is such a file, and no error
    is involved. *)
Theorem blank_sample_gets_fallback_name fuel self (file_path : Path)
    (w : World) :
  (forall content_sample,
     extract_step self file_path w = (Ok content_sample, w) ->
     strip content_sample = [] ->
     process_file fuel self file_path w
     = match organize_file fuel (organizer self) file_path
               (lit "document_" ++ strftime_Ymd_HMS (now w)) w with
       | (Ok _, w') => (Ok tt, w')
       | (Raise (FileOrganizerError cause), w') =>
           (Raise (FileProcessorError (OrganizeFailed cause)), w')
       | (Raise _, w') => (Raise (FileProcessorError UnexpectedFailure), w')
       | (Diverge, w') => (Diverge, w')
       end)
  /\ (forall pages,
     file_path ∈ files w ->
     lower (suffix file_path) = lit ".pdf" ->
     as_pdf (contents w file_path) = PdfPages pages ->
     Forall (fun page => strip page = []) pages ->
     TextExtractor.extract_text (extractor self) file_path w = (Ok [], w)
     /\ extract_step self file_path w = (Ok [], w)).
Proof.
  split.
  - intros content_sample Hextract Hblank.
    destruct (process_file_chain fuel self file_path w)
      as (content & new_name & Hextract' & _ & Hname & _ & ->).
    assert (content = content_sample) as -> by congruence.
    assert (new_name = lit "document_" ++ strftime_Ymd_HMS (now w)) as ->; [|done].
    revert Hname. unfold LLMService.generate_filename. rewrite Hblank.
    cbn [truthy negb]. rewrite orb_true_r, fallback_run. congruence.
  - intros pages Hsrc Hpdf Hparse Hblank.
    assert (TextExtractor.extract_text (extractor self) file_path w = (Ok [], w))
      as Hrun.
    { unfold TextExtractor.extract_text, bind at 1, path_exists.
      rewrite bool_decide_true by done. cbn [negb].
      unfold try_except, bind, TextExtractor.source_text.
      rewrite bool_decide_true by done.
      unfold TextExtractor._extract_from_pdf, try_except, bind,
        TextExtractor.read_pdf_pages.
      rewrite Hparse, (blank_pages_join pages Hblank).
      cbn [truthy negb ret]. do 2 f_equal.
      unfold slice_to. destruct (_ <? _)%Z; apply take_nil. }
    split; [done|]. unfold extract_step, try_except. by rewrite Hrun.
Qed.

End Handover.

(** A scan without text: no error, and the fallback name. *)
Lemma blank_sample_gets_fallback_name_witness :
  let w := world_with [path_of ["in"; "scan.pdf"]] (fun _ => blank_scan) [] in
  moved (FileProcessor.process_file (U:=ascii_db) 2 (default_processor ["out"])
           (path_of ["in"; "scan.pdf"]) w).2
  = [(path_of ["in"; "scan.pdf"],
      path_of ["out"; "document_20240307_090500.pdf"])].
Proof.
  intros w.
  destruct (blank_sample_gets_fallback_name (U:=ascii_db) 2
              (default_processor ["out"]) (path_of ["in"; "scan.pdf"]) w)
    as [Hname Hpdf].
  destruct (Hpdf [lit "  "; []]) as [_ Hextract].
  - by_evaluation.
  - reflexivity.
  - reflexivity.
  - repeat constructor.
  - rewrite (Hname [] Hextract eq_refl). vm_compute. reflexivity.
Defined.

(** ** The monitor *)

Section Watching.
Import FileOrganizer FileProcessor FileMonitor.
Context {U : UnicodeDB}.

(** X19. The handler for new files never raises, whatever happens to
    the file: given more rounds for the conflict probe than there are
    paths it returns.  An event for a directory, and an event for a file
    whose lower-cased extension is not [.pdf], [.txt] or [.text], is
    ignored: nothing is read, moved or waited for. *)
Theorem on_created_never_raises fuel processor (ev : event)
    (s : handler_state) :
  (forall e, (on_created fuel processor ev s).1 <> Raise e)
  /\ ((size (files (world s)) < fuel)%nat ->
      (on_created fuel processor ev s).1 = Ok tt)
  /\ (is_directory ev = true
      \/ lower (suffix (src_path ev)) ∉ SUPPORTED_EXTENSIONS ->
      on_created fuel processor ev s = (Ok tt, s)).
Proof.
  unfold on_created. destruct (is_directory ev).
  { repeat split; try done. }
  case_bool_decide as Hext.
  2:{ repeat split; try done. }
  pose proof (process_file_returns fuel processor (src_path ev) (world s))
    as Hback.
  destruct (process_file _ _ _ _) as [[[]|e|] w'] eqn:Hrun; simpl in *.
  - repeat split; try done. by intros [[=]|?].
  - repeat split; try done. by intros [[=]|?].
  - repeat split; try done.
    + intros Hfuel. by apply Hback in Hfuel.
    + by intros [[=]|?].
Qed.

(** X20. The monitor and the extractor agree on the supported types:
    the handler lets a file through exactly when the extractor has a
    reader for it, so for a file that was let through the extraction
    never fails for an unsupported type. *)
Theorem monitor_gate_matches_extractor (file_path : Path) (w : World) :
  (lower (suffix file_path) ∈ SUPPORTED_EXTENSIONS
   <-> (TextExtractor.source_text file_path w).1
       <> Raise (TextExtractionError Unsupported))
  /\ (forall extractor,
      lower (suffix file_path) ∈ SUPPORTED_EXTENSIONS ->
      (TextExtractor.extract_text extractor file_path w).1
      <> Raise (TextExtractionError Unsupported)).
Proof.
  assert (lower (suffix file_path) ∈ SUPPORTED_EXTENSIONS
          <-> lower (suffix file_path) = lit ".pdf"
              \/ lower (suffix file_path) ∈ [lit ".txt"; lit ".text"]) as Hgate.
  { unfold SUPPORTED_EXTENSIONS.
    rewrite !elem_of_union, !elem_of_singleton, !elem_of_cons, elem_of_nil.
    tauto. }
  assert (lower (suffix file_path) ∈ SUPPORTED_EXTENSIONS
          <-> (TextExtractor.source_text file_path w).1
              <> Raise (TextExtractionError Unsupported)) as Hsource.
  { rewrite Hgate. unfold TextExtractor.source_text.
    case_bool_decide as Hpdf; [|case_bool_decide as Htxt].
    - split; [|auto]. intros _.
      unfold TextExtractor._extract_from_pdf, try_except, bind,
        TextExtractor.read_pdf_pages.
      destruct (as_pdf _); simpl; try done. by destruct (negb _).
    - split; [|auto]. intros _.
      destruct (try_encodings_outcome file_path [utf_8; latin_1; cp1252] w)
        as [(t & before & enc & after & Hrun & _)|[Hrun _]];
        unfold TextExtractor._extract_from_text; by rewrite Hrun.
    - simpl. split; [by intros [?|?]|done]. }
  split; [exact Hsource|].
  intros extractor Hext. apply Hsource in Hext.
  unfold TextExtractor.extract_text, bind at 1, path_exists.
  case_bool_decide; simpl; [|done].
  unfold try_except, bind.
  destruct (source_text_cases file_path w) as (r & Hrun & [[txt ->]|[why ->]]);
    rewrite Hrun in Hext |- *; simpl in *; [done|congruence].
Qed.


End Watching.


(** ** The configuration *)

Section Settings.
Import Config.

Implicit Types (d base override : list (list N * value)) (key : list N).

Lemma dict_get_set d key key' v :
  dict_get (dict_set d key v) key'
  = if bool_decide (key = key') then Some v else dict_get d key'.
Proof.
  induction d as [|[k u] d IH]; simpl.
  - done.
  - destruct (decide (k = key)) as [->|Hk].
    + rewrite bool_decide_true by done. simpl. by case_bool_decide.
    + rewrite (bool_decide_false (k = key)) by done. simpl. rewrite IH.
      destruct (decide (k = key')) as [->|Hk'].
      * by rewrite bool_decide_true, bool_decide_false.
      * by rewrite (bool_decide_false (k = key')).
Qed.

Lemma merge_config_nil base : _merge_config base [] = base.
Proof. done. Qed.

Lemma merge_config_cons base key v override :
  _merge_config base ((key, v) :: override)
  = _merge_config
      match dict_get base key, v with
      | Some (VDict sub), VDict items =>
          dict_set base key (VDict (_merge_config sub items))
      | _, _ => dict_set base key v
      end
      override.
Proof.
  unfold _merge_config. cbn [merge_items].
  destruct (dict_get base key) as [[]|]; destruct v; reflexivity.
Qed.

Lemma merge_config_get base override key :
  NoDup override.*1 ->
  dict_get (_merge_config base override) key
  = match dict_get override key with
    | None => dict_get base key
    | Some v =>
        Some match dict_get base key, v with
             | Some (VDict sub), VDict items =>
                 VDict (_merge_config sub items)
             | _, _ => v
             end
    end.
Proof.
  revert base. induction override as [|[k v] override IH]; intros base Hkeys.
  - done.
  - apply NoDup_cons in Hkeys as [Hfresh Hkeys]. simpl in Hfresh.
    rewrite merge_config_cons, IH by done. cbn [dict_get].
    assert (forall k', k' ∉ override.*1 -> dict_get override k' = None)
      as Habsent.
    { clear. induction override as [|[k u] d IH]; simpl; [done|].
      intros k' Hk'. apply not_elem_of_cons in Hk' as [? ?].
      rewrite bool_decide_false by done. auto. }
    destruct (decide (k = key)) as [->|Hk].
    + rewrite bool_decide_true by done. rewrite (Habsent key Hfresh).
      destruct (dict_get base key) as [[]|]; destruct v;
        by rewrite dict_get_set, bool_decide_true.
    + rewrite bool_decide_false by done.
      destruct (dict_get override key) as [u|] eqn:Hu.
      * f_equal.
        assert (forall b', dict_get (dict_set base k b') key = dict_get base key)
          as Hsame by (intros b'; by rewrite dict_get_set, bool_decide_false).
        destruct (dict_get base k) as [[]|]; destruct v; by rewrite Hsame.
      * destruct (dict_get base k) as [[]|]; destruct v;
          by rewrite dict_get_set, bool_decide_false.
Qed.

(** X22. [_merge_config] merges deeply and never removes a key.  After
    merging, a key that the override does not mention holds what it
    held; a key under which both sides have a dictionary holds the merge
    of the two; and any other key of the override holds the override's
    value. *)
Theorem merge_config_deep (base override : list (list N * value))
    (key : list N) :
  NoDup override.*1 ->
  dict_get (_merge_config base override) key
  = match dict_get override key with
    | None => dict_get base key
    | Some v =>
        Some match dict_get base key, v with
             | Some (VDict sub), VDict items =>
                 VDict (_merge_config sub items)
             | _, _ => v
             end
    end
  /\ (dict_get base key <> None ->
      dict_get (_merge_config base override) key <> None).
Proof.
  intros Hkeys. rewrite merge_config_get by done. split; [done|].
  by destruct (dict_get override key).
Qed.

(** *** Reading and writing along a path *)

Lemma set_path_cons obj k k' rest v :
  set_path obj (k :: k' :: rest) v
  = and_then (getitem obj k) (fun sub =>
      and_then (set_path sub (k' :: rest) v) (fun sub => setitem obj k sub)).
Proof. done. Qed.

Lemma set_path_dict d path v obj :
  path <> [] -> set_path (VDict d) path v = Return obj ->
  exists d', obj = VDict d'.
Proof.
  destruct path as [|k [|k' rest]]; [done| |]; intros _.
  - simpl. intros [= <-]. eauto.
  - rewrite set_path_cons. unfold and_then, getitem.
    destruct (dict_get d k) as [sub|]; [|done].
    destruct (set_path sub (k' :: rest) v) as [sub'|]; [|done].
    simpl. intros [= <-]. eauto.
Qed.

Lemma get_set_path_same path : forall obj obj' v,
  path <> [] -> set_path obj path v = Return obj' ->
  get_path obj' path = Return v.
Proof.
  induction path as [|k rest IH]; intros obj obj' v Hne; [done|].
  destruct rest as [|k' rest].
  - simpl. unfold setitem. destruct obj; try done. intros [= <-].
    simpl. by rewrite dict_get_set, bool_decide_true.
  - rewrite set_path_cons. unfold and_then at 1, getitem.
    destruct obj as [| | | | | |d|]; try done.
    destruct (dict_get d k) as [sub|]; [|done].
    unfold and_then.
    destruct (set_path sub (k' :: rest) v) as [sub'|] eqn:Hsub; [|done].
    simpl. intros [= <-]. cbn [get_path]. unfold and_then, getitem.
    rewrite dict_get_set, bool_decide_true by done.
    by apply (IH sub).
Qed.

Lemma get_set_path_apart path : forall obj obj' v q,
  apart path q = true -> set_path obj path v = Return obj' ->
  get_path obj' q = get_path obj q.
Proof.
  induction path as [|k rest IH]; intros obj obj' v q; [done|].
  destruct q as [|b q]; [done|]. cbn [apart].
  destruct rest as [|k' rest].
  - case_bool_decide as Hk; [by destruct q|]. intros _.
    simpl. unfold setitem. destruct obj; try done. intros [= <-].
    cbn [get_path]. unfold and_then, getitem.
    by rewrite dict_get_set, bool_decide_false.
  - intros Hapart. rewrite set_path_cons. unfold and_then at 1, getitem.
    destruct obj as [| | | | | |d|]; try done.
    destruct (dict_get d k) as [sub|] eqn:Hk; [|done].
    unfold and_then.
    destruct (set_path sub (k' :: rest) v) as [sub'|] eqn:Hsub; [|done].
    simpl. intros [= <-]. cbn [get_path]. unfold and_then, getitem.
    rewrite dict_get_set.
    case_bool_decide as Hkb.
    + subst b. rewrite Hk. by apply (IH sub sub' v).
    + done.
Qed.

Lemma assign_same config path v config' :
  path <> [] -> assign config path v = Return config' ->
  lookup config' path = Return v.
Proof.
  intros Hne. unfold assign, lookup, and_then.
  destruct (set_path _ _ _) as [obj|] eqn:Hset; [|done].
  assert (map lit path <> []) as Hne' by (by destruct path).
  destruct (set_path_dict _ _ _ _ Hne' Hset) as [d' ->].
  intros [= <-]. by apply (get_set_path_same _ _ _ _ Hne' Hset).
Qed.

Lemma assign_apart config path v config' q :
  apart (map lit path) (map lit q) = true ->
  assign config path v = Return config' ->
  lookup config' q = lookup config q.
Proof.
  intros Hapart. unfold assign, lookup, and_then.
  destruct (set_path _ _ _) as [obj|] eqn:Hset; [|done].
  assert (map lit path <> []) as Hne' by (by destruct path).
  destruct (set_path_dict _ _ _ _ Hne' Hset) as [d' ->].
  intros [= <-]. by apply (get_set_path_apart _ _ _ _ _ Hapart Hset).
Qed.

Lemma override_str_apart around variable path config config' q :
  override_str around variable path config = Return config' ->
  apart (map lit path) (map lit q) = true ->
  lookup config' q = lookup config q.
Proof.
  unfold override_str. intros Hrun Hapart.
  destruct (getenv around (lit variable)) as [[|c v]|]; simpl in Hrun;
    try (by injection Hrun as <-).
  by apply (assign_apart _ _ _ _ _ Hapart Hrun).
Qed.

Lemma override_int_apart around variable path config config' q :
  override_int around variable path config = Return config' ->
  apart (map lit path) (map lit q) = true ->
  lookup config' q = lookup config q.
Proof.
  unfold override_int. intros Hrun Hapart.
  destruct (getenv around (lit variable)) as [[|c v]|]; simpl in Hrun;
    try (by injection Hrun as <-).
  destruct (int_ around (c :: v)); [|done].
  by apply (assign_apart _ _ _ _ _ Hapart Hrun).
Qed.

Lemma override_str_set around variable path config config' v :
  override_str around variable path config = Return config' ->
  path <> [] -> getenv around (lit variable) = Some v -> v <> [] ->
  lookup config' path = Return (VStr v).
Proof.
  unfold override_str. intros Hrun Hne Hset Hv. rewrite Hset in Hrun.
  destruct v; [done|]. simpl in Hrun. by apply (assign_same _ _ _ _ Hne Hrun).
Qed.

Lemma override_int_set around variable path config config' v :
  override_int around variable path config = Return config' ->
  path <> [] -> getenv around (lit variable) = Some v -> v <> [] ->
  exists n, int_ around v = Some n /\ lookup config' path = Return (VInt n).
Proof.
  unfold override_int. intros Hrun Hne Hset Hv. rewrite Hset in Hrun.
  destruct v as [|c v]; [done|]. simpl in Hrun.
  destruct (int_ around (c :: v)) as [n|]; [|done].
  exists n. split; [done|]. by apply (assign_same _ _ _ _ Hne Hrun).
Qed.

(** The stages of [__init__] that lead to a configuration. *)
Lemma init_stages around config_path config :
  __init__ around config_path = Return config ->
  exists loaded,
    _load_env_overrides around loaded = Return config
    /\ _validate config = Return tt.
Proof.
  unfold __init__, and_then.
  destruct (match config_path with Some _ => _ | None => _ end)
    as [loaded|]; [|done].
  destruct (_load_env_overrides around loaded) as [c|] eqn:Henv; [|done].
  destruct (_validate c) as [[]|] eqn:Hvalid; [|done].
  intros [= <-]. eauto.
Qed.

Local Ltac keep H :=
  first [ rewrite (override_str_apart _ _ _ _ _ _ H) by (vm_compute; reflexivity)
        | rewrite (override_int_apart _ _ _ _ _ _ H) by (vm_compute; reflexivity) ].

(** X23. The environment wins over the configuration file and the
    defaults: in every configuration that [Config] builds, a setting
    whose environment variable is set to a non-empty string holds that
    string, or, for the numeric settings, the integer it denotes. *)
Theorem environment_takes_precedence around (config_path : option str)
    (config : list (list N * value)) :
  __init__ around config_path = Return config ->
  (forall variable path v,
     (variable, path) ∈ string_variables ->
     getenv around (lit variable) = Some v -> v <> [] ->
     lookup config path = Return (VStr v))
  /\ (forall variable path v,
     (variable, path) ∈ integer_variables ->
     getenv around (lit variable) = Some v -> v <> [] ->
     exists n, int_ around v = Some n /\ lookup config path = Return (VInt n)).
Proof.
  intros Hinit. apply init_stages in Hinit as (c0 & Henv & _).
  unfold _load_env_overrides, and_then in Henv.
  destruct (override_str around "DOWNLOADS_PATH" _ c0) as [c1|] eqn:H1; [|done].
  destruct (override_str around "ORGANIZED_PATH" _ c1) as [c2|] eqn:H2; [|done].
  destruct (override_str around "LLM_MODE" _ c2) as [c3|] eqn:H3; [|done].
  destruct (override_str around "BEDROCK_MODEL" _ c3) as [c4|] eqn:H4; [|done].
  destruct (override_str around "BEDROCK_REGION" _ c4) as [c5|] eqn:H5; [|done].
  destruct (override_int around "BEDROCK_MAX_TOKENS" _ c5) as [c6|] eqn:H6;
    [|done].
  destruct (override_int around "CONTENT_SAMPLE_LENGTH" _ c6) as [c7|] eqn:H7;
    [|done].
  destruct (override_int around "RETRY_ATTEMPTS" _ c7) as [c8|] eqn:H8; [|done].
  destruct (override_int around "RETRY_DELAY" _ c8) as [c9|] eqn:H9; [|done].
  rename Henv into H10.
  split.
  - intros variable path v Hin Hset Hv. unfold string_variables in Hin.
    repeat (apply elem_of_cons in Hin as [[= -> ->]|Hin]);
      [..|by apply elem_of_nil in Hin].
    + do 9 (first [keep H10|keep H9|keep H8|keep H7|keep H6|keep H5|keep H4
                  |keep H3|keep H2]).
      by apply (override_str_set _ _ _ _ _ v H1).
    + do 8 (first [keep H10|keep H9|keep H8|keep H7|keep H6|keep H5|keep H4
                  |keep H3]).
      by apply (override_str_set _ _ _ _ _ v H2).
    + do 7 (first [keep H10|keep H9|keep H8|keep H7|keep H6|keep H5|keep H4]).
      by apply (override_str_set _ _ _ _ _ v H3).
    + do 6 (first [keep H10|keep H9|keep H8|keep H7|keep H6|keep H5]).
      by apply (override_str_set _ _ _ _ _ v H4).
    + do 5 (first [keep H10|keep H9|keep H8|keep H7|keep H6]).
      by apply (override_str_set _ _ _ _ _ v H5).
    + by apply (override_str_set _ _ _ _ _ v H10).
  - intros variable path v Hin Hset Hv. unfold integer_variables in Hin.
    repeat (apply elem_of_cons in Hin as [[= -> ->]|Hin]);
      [..|by apply elem_of_nil in Hin].
    + do 4 (first [keep H10|keep H9|keep H8|keep H7]).
      by apply (override_int_set _ _ _ _ _ v H6).
    + do 3 (first [keep H10|keep H9|keep H8]).
      by apply (override_int_set _ _ _ _ _ v H7).
    + do 2 (first [keep H10|keep H9]).
      by apply (override_int_set _ _ _ _ _ v H8).
    + keep H10.
      by apply (override_int_set _ _ _ _ _ v H9).
Qed.

Lemma check_file_types_strings items :
  check_file_types items = Return tt -> Forall (fun t => is_str t = true) items.
Proof.
  induction items as [|t items IH]; simpl; [done|].
  destruct (is_str t) eqn:Ht; simpl; [|done]. intros Hrest.
  constructor; auto.
Qed.

(** X24. Every configuration that [Config] builds has passed the
    validation: its mode is [simulated] or [bedrock], its file types are
    a non-empty list of strings, its sample length and its token limit
    are numbers above zero, its retry settings are numbers not below
    zero, and its log level is one of the five known ones. *)
Theorem config_is_validated around (config_path : option str)
    (config : list (list N * value)) :
  __init__ around config_path = Return config ->
  (exists mode, llm_mode config = Return (VStr mode)
                /\ mode ∈ [lit "simulated"; lit "bedrock"])
  /\ (exists types, file_types config = Return (VList types)
                    /\ types <> []
                    /\ Forall (fun t => is_str t = true) types)
  /\ (exists n, content_sample_length config = Return n
                /\ le_zero n = Return false)
  /\ (exists n, retry_attempts config = Return n /\ lt_zero n = Return false)
  /\ (exists n, retry_delay config = Return n /\ lt_zero n = Return false)
  /\ (exists n, bedrock_max_tokens config = Return n
                /\ le_zero n = Return false)
  /\ (exists level, log_level config = Return (VStr level)
                    /\ level ∈ [lit "DEBUG"; lit "INFO"; lit "WARNING";
                                lit "ERROR"; lit "CRITICAL"]).
Proof.
  intros Hinit. apply init_stages in Hinit as (_ & _ & Hvalid).
  unfold llm_mode, file_types, content_sample_length, retry_attempts,
    retry_delay, bedrock_max_tokens, log_level.
  unfold _validate in Hvalid.
  destruct (lookup config ["llm"; "mode"]%string) as [mode|]; [|done].
  cbn [and_then] in Hvalid.
  destruct (is_one_of mode _) eqn:Hmode; [|done]. cbn [negb] in Hvalid.
  destruct (lookup config ["monitoring"; "file_types"]%string) as [types|];
    [|done].
  cbn [and_then] in Hvalid.
  destruct types as [| | | | |items| |]; try done.
  assert (items <> []) as Hitems by (intros ->; done).
  replace (negb (truthy items)) with false in Hvalid by (by destruct items).
  destruct (check_file_types items) as [[]|] eqn:Htypes; [|done].
  cbn [and_then] in Hvalid.
  destruct (lookup config ["processing"; "content_sample_length"]%string)
    as [len|]; [|done].
  cbn [and_then] in Hvalid.
  destruct (le_zero len) as [[|]|] eqn:Hlen; try done.
  cbn [and_then] in Hvalid.
  destruct (lookup config ["processing"; "retry_attempts"]%string)
    as [att|]; [|done].
  cbn [and_then] in Hvalid.
  destruct (lt_zero att) as [[|]|] eqn:Hatt; try done.
  cbn [and_then] in Hvalid.
  destruct (lookup config ["processing"; "retry_delay"]%string)
    as [del|]; [|done].
  cbn [and_then] in Hvalid.
  destruct (lt_zero del) as [[|]|] eqn:Hdel; try done.
  cbn [and_then] in Hvalid.
  destruct (lookup config ["llm"; "bedrock"; "max_tokens"]%string)
    as [tok|]; [|done].
  cbn [and_then] in Hvalid.
  destruct (le_zero tok) as [[|]|] eqn:Htok; try done.
  cbn [and_then] in Hvalid.
  destruct (lookup config ["logging"; "level"]%string) as [level|]; [|done].
  cbn [and_then] in Hvalid.
  destruct (is_one_of level _) eqn:Hlevel; [|done].
  destruct mode as [| | | |mode| | |]; try done.
  destruct level as [| | | |level| | |]; try done.
  apply bool_decide_eq_true in Hmode, Hlevel.
  split; [by exists mode|].
  split.
  { exists items. split; [done|]. split; [done|].
    by apply check_file_types_strings. }
  split; [by exists len|]. split; [by exists att|]. split; [by exists del|].
  split; [by exists tok|]. by exists level.
Qed.

(** X25. [Config] does not only fail with [ConfigurationError].  With no
    environment variable set, a configuration file that puts anything
    but a mapping under [llm] makes it raise [TypeError], and so does a
    file that gives the sample length as a string. *)
Theorem config_type_error around (config_path : str)
    (yaml : list (list N * value)) (v : value) (number : str) :
  config_path <> [] ->
  (forall variable, getenv around variable = None) ->
  (yaml_at around config_path = Parsed (VDict yaml) ->
   NoDup yaml.*1 ->
   dict_get yaml (lit "llm") = Some v ->
   (forall items, v <> VDict items) ->
   __init__ around (Some config_path) = Throw TypeError)
  /\ (yaml_at around config_path
        = Parsed (VDict [(lit "processing",
                          VDict [(lit "content_sample_length", VStr number)])]) ->
      __init__ around (Some config_path) = Throw TypeError).
Proof.
  intros Hpath Hnoenv.
  assert (forall c, _load_env_overrides around c = Return c) as Henv.
  { intros c. unfold _load_env_overrides, override_str, override_int.
    by rewrite !Hnoenv. }
  split.
  - intros Hfile Hkeys Hllm Hother. unfold __init__.
    destruct config_path as [|c p]; [done|]. cbn [truthy].
    unfold _load_yaml. rewrite Hfile. cbn [and_then]. rewrite Henv.
    cbn [and_then].
    set (merged := _merge_config DEFAULTS yaml).
    assert (dict_get merged (lit "llm") = Some v) as Hmerged.
    { unfold merged. rewrite merge_config_get, Hllm by done.
      destruct v; try (vm_compute; reflexivity). by destruct (Hother entries). }
    assert (lookup merged ["llm"; "mode"]%string = Throw TypeError) as Hmode.
    { unfold lookup. cbn [map get_path]. unfold and_then, getitem.
      rewrite Hmerged. destruct v; try done. by destruct (Hother entries). }
    unfold _validate. by rewrite Hmode.
  - intros Hfile. unfold __init__.
    destruct config_path as [|c p]; [done|]. cbn [truthy].
    unfold _load_yaml. rewrite Hfile. cbn [and_then]. rewrite Henv.
    vm_compute. reflexivity.
Qed.

(** *** Dotted keys *)

Lemma get_from_get_path keys : forall v default,
  get_from v keys default = or_default (get_path v keys) default.
Proof.
  induction keys as [|k keys IH]; intros v default; [done|].
  cbn [get_from get_path]. unfold and_then, getitem.
  destruct v as [| | | | | |d|]; try done.
  destruct (dict_get d k) as [sub|]; [|done]. apply IH.
Qed.

Lemma split_on_field (sep : N) (field : list N) :
  sep ∉ field -> split_on sep field = [field].
Proof.
  induction field as [|c field IH]; [done|].
  intros Hsep. apply not_elem_of_cons in Hsep as [Hc Hfield].
  cbn [split_on]. rewrite (proj2 (N.eqb_neq c sep)) by done.
  by rewrite IH.
Qed.

Lemma split_on_app (sep : N) (field rest : list N) :
  sep ∉ field ->
  split_on sep (field ++ sep :: rest) = field :: split_on sep rest.
Proof.
  induction field as [|c field IH]; intros Hsep.
  - cbn [app split_on]. by rewrite N.eqb_refl.
  - apply not_elem_of_cons in Hsep as [Hc Hfield].
    cbn [app split_on]. rewrite (proj2 (N.eqb_neq c sep)) by done.
    by rewrite IH.
Qed.

Lemma split_on_join (sep : N) (fields : list (list N)) :
  fields <> [] -> Forall (fun field => sep ∉ field) fields ->
  split_on sep (join [sep] fields) = fields.
Proof.
  induction fields as [|field fields IH]; [done|]. intros _ Hall.
  apply Forall_cons in Hall as [Hfield Hall].
  destruct fields as [|field' fields].
  - by apply split_on_field.
  - change (join [sep] (field :: field' :: fields))
      with (field ++ sep :: join [sep] (field' :: fields)).
    rewrite split_on_app by done. by rewrite IH.
Qed.

(** X26. [get] with a dotted key reads along the path that the key
    spells: it gives what the nested subscripts give, and the default
    where they would fail; it never raises.  So [get("llm.mode")] is
    the [llm_mode] property. *)
Theorem get_reads_dotted_path (config : list (list N * value))
    (keys : list str) (default : value) :
  keys <> [] ->
  Forall (fun key => chr "." ∉ key) keys ->
  get config (join (lit ".") keys) default
  = or_default (get_path (VDict config) keys) default
  /\ get config (lit "llm.mode") default
     = or_default (llm_mode config) default.
Proof.
  intros Hne Hdots. unfold get. split.
  - change (lit ".") with [chr "."]. rewrite split_on_join by done.
    apply get_from_get_path.
  - change (split_on (chr ".") (lit "llm.mode")) with [lit "llm"; lit "mode"].
    apply get_from_get_path.
Qed.

End Settings.

(** A file that sets the mode only keeps the other defaults of its
    section. *)
Lemma merge_config_deep_witness :
  Config.dict_get
    (Config._merge_config Config.DEFAULTS
       [(lit "llm", Config.VDict [(lit "mode", Config.VStr (lit "bedrock"))])])
    (lit "llm")
  = Some (Config.VDict
      [ (lit "mode", Config.VStr (lit "bedrock"));
        (lit "bedrock", Config.VDict
          [ (lit "model", Config.VStr (lit "anthropic.claude-v2"));
            (lit "region", Config.VStr (lit "us-east-1"));
            (lit "max_tokens", Config.VInt 50) ]) ]).
Proof.
  destruct (merge_config_deep Config.DEFAULTS
              [(lit "llm", Config.VDict [(lit "mode", Config.VStr (lit "bedrock"))])]
              (lit "llm")) as [Hget _].
  - repeat constructor. by intros ?%elem_of_nil.
  - rewrite Hget. vm_compute. reflexivity.
Defined.

(** The file says one mode, the environment another. *)
Lemma environment_takes_precedence_witness :
  let around :=
    surroundings_with [("LLM_MODE", "bedrock"); ("RETRY_ATTEMPTS", "250")]
      (Config.Parsed (Config.VDict
         [(lit "llm", Config.VDict [(lit "mode", Config.VStr (lit "simulated"))])])) in
  exists config,
    Config.__init__ around (Some (lit "config.yaml")) = Config.Return config
    /\ Config.llm_mode config = Config.Return (Config.VStr (lit "bedrock"))
    /\ Config.retry_attempts config = Config.Return (Config.VInt 250).
Proof.
  intros around.
  destruct (Config.__init__ around (Some (lit "config.yaml")))
    as [config|] eqn:Hinit; [|by vm_compute in Hinit].
  destruct (environment_takes_precedence around (Some (lit "config.yaml"))
              config Hinit) as [Hstr Hint].
  exists config. split; [reflexivity|]. split.
  - apply (Hstr "LLM_MODE" ["llm"; "mode"] (lit "bedrock"))%string.
    + unfold string_variables. rewrite !elem_of_cons. auto.
    + vm_compute. reflexivity.
    + discriminate.
  - destruct (Hint "RETRY_ATTEMPTS" ["processing"; "retry_attempts"]
                (lit "250"))%string as (n & Hn & Hlookup).
    + unfold integer_variables. rewrite !elem_of_cons. auto 10.
    + vm_compute. reflexivity.
    + discriminate.
    + vm_compute in Hn. injection Hn as <-. exact Hlookup.
Defined.

(** No file, no variables: the defaults, which are valid. *)
Lemma config_is_validated_witness :
  let around := surroundings_with [] Config.Missing in
  Config.__init__ around None = Config.Return Config.DEFAULTS
  /\ exists mode,
       Config.llm_mode Config.DEFAULTS = Config.Return (Config.VStr mode)
       /\ mode ∈ [lit "simulated"; lit "bedrock"].
Proof.
  intros around.
  assert (Config.__init__ around None = Config.Return Config.DEFAULTS) as Hinit
    by (vm_compute; reflexivity).
  split; [exact Hinit|].
  apply (config_is_validated around None Config.DEFAULTS Hinit).
Defined.

(** A file with an empty [llm] section. *)
Lemma config_type_error_witness :
  let around :=
    surroundings_with []
      (Config.Parsed (Config.VDict [(lit "llm", Config.VNone)])) in
  Config.__init__ around (Some (lit "config.yaml")) = Config.Throw Config.TypeError.
Proof.
  intros around.
  destruct (config_type_error around (lit "config.yaml")
              [(lit "llm", Config.VNone)] Config.VNone []) as [Hllm _].
  - discriminate.
  - intros variable. reflexivity.
  - apply Hllm.
    + reflexivity.
    + repeat constructor. by intros ?%elem_of_nil.
    + vm_compute. reflexivity.
    + discriminate.
Defined.

Lemma get_reads_dotted_path_witness :
  Config.get Config.DEFAULTS (lit "llm.bedrock.region") Config.VNone
  = Config.VStr (lit "us-east-1")
  /\ Config.get Config.DEFAULTS (lit "llm.missing") Config.VNone = Config.VNone.
Proof.
  split.
  - destruct (get_reads_dotted_path Config.DEFAULTS
                [lit "llm"; lit "bedrock"; lit "region"] Config.VNone)
      as [Hget _].
    + discriminate.
    + repeat constructor; by_evaluation.
    + change (join (lit ".") [lit "llm"; lit "bedrock"; lit "region"])
        with (lit "llm.bedrock.region") in Hget.
      rewrite Hget. vm_compute. reflexivity.
  - destruct (get_reads_dotted_path Config.DEFAULTS
                [lit "llm"; lit "missing"] Config.VNone) as [Hget _].
    + discriminate.
    + repeat constructor; by_evaluation.
    + change (join (lit ".") [lit "llm"; lit "missing"])
        with (lit "llm.missing") in Hget.
      rewrite Hget. vm_compute. reflexivity.
Defined.

(** ** The unit tests of the repository, run on the model *)

Section UnitTests.
Import FileOrganizer.

(** tests/test_file_organizer.py, [TestFilenameSanitization] *)
Example sanitize_unit_tests :
  _sanitize_filename (lit "file/name") = lit "filename"
  /\ _sanitize_filename (lit "file\name") = lit "filename"
  /\ _sanitize_filename (lit "file:name") = lit "filename"
  /\ _sanitize_filename (lit "file*name") = lit "filename"
  /\ _sanitize_filename (lit "file?name") = lit "filename"
  /\ _sanitize_filename (lit "file<>name") = lit "filename"
  /\ _sanitize_filename (lit "file|name") = lit "filename"
  /\ _sanitize_filename (lit "file" ++ [34] ++ lit "name") = lit "filename"
  /\ _sanitize_filename (lit "file" ++ [0; 31] ++ lit "name") = lit "filename"
  /\ _sanitize_filename (lit "  filename  ") = lit "filename"
  /\ _sanitize_filename (lit "..filename..") = lit "filename"
  /\ _sanitize_filename (lit "bad/file*name") = lit "badfilename".
Proof. vm_compute. repeat split. Qed.

(** tests/test_file_organizer.py, [TestConflictResolution] *)
Example conflict_unit_tests :
  let target := path_of ["organized"; "test.txt"] in
  let empty := world_with [] (fun _ => unreadable) [] in
  let one := world_with [target] (fun _ => unreadable) [] in
  let three :=
    world_with [target; path_of ["organized"; "test_1.txt"];
                path_of ["organized"; "test_2.txt"]]
               (fun _ => unreadable) [] in
  (_handle_conflict 4 target empty).1 = Ok target
  /\ (_handle_conflict 4 target one).1 = Ok (path_of ["organized"; "test_1.txt"])
  /\ (_handle_conflict 4 target three).1
     = Ok (path_of ["organized"; "test_3.txt"]).
Proof. vm_compute. repeat split. Qed.

(** tests/test_llm_service.py: keywords, blank content, an unknown mode,
    and the remote mode with an answer, an empty answer and a failure. *)
Example naming_unit_tests :
  let w := world_with [] (fun _ => unreadable) [] in
  let built mode model region env :=
    default (bedrock_service None)
      (LLMService.__init__ (lit mode) model region 50 env) in
  let simulated := built "simulated" None None LLMService.BotoMissing in
  let downgraded :=
    built "bedrock" (Some (lit "anthropic.claude-v2"))
      (Some (lit "us-east-1")) LLMService.CredentialsErrorRaised in
  let unknown := built "invalid_mode" None None LLMService.BotoMissing in
  let claude := bedrock_service (Some "anthropic.claude-v2") in
  let fallback := lit "document_20240307_090500" in
  let generate self content w :=
    (LLMService.generate_filename (U:=ascii_db) self (lit content) None w).1 in
  generate simulated "Machine learning algorithms and neural networks" w
    = Ok (lit "Machine_Learning_Algorithms")
  /\ generate simulated "" w = Ok fallback
  /\ generate simulated "   " w = Ok fallback
  /\ generate simulated "a b c" w = Ok (lit "A_B_C")
  /\ generate simulated "!!! ???" w = Ok (lit "_")
  /\ LLMService.mode downgraded = lit "simulated"
  /\ generate unknown "Test content" w = Ok fallback
  /\ generate claude "This is a tutorial about machine learning"
       (with_model (Some "Machine_Learning_Tutorial") w)
     = Ok (lit "Machine_Learning_Tutorial")
  /\ generate claude "Test content" (with_model (Some "") w) = Ok fallback
  /\ generate claude "Test content" (with_model None w) = Ok fallback
  /\ generate (bedrock_service None) "Test content"
       (with_model (Some "Name") w) = Ok fallback.
Proof. vm_compute. repeat split. Qed.

(** tests/test_integration.py: two files with the same content, and an
    empty text file. *)
Example pipeline_scenarios :
  let doc1 := path_of ["downloads"; "doc1.txt"] in
  let doc2 := path_of ["downloads"; "doc2.txt"] in
  let w := world_with [doc1; doc2]
             (fun _ => text_file "Python programming tutorial") [] in
  let blank := world_with [doc1] (fun _ => text_file "") [] in
  let processor := default_processor ["organized"] in
  let run1 := FileProcessor.process_file (U:=ascii_db) 3 processor doc1 w in
  let run2 := FileProcessor.process_file (U:=ascii_db) 3 processor doc2 run1.2 in
  let run3 := FileProcessor.process_file (U:=ascii_db) 3 processor doc1 blank in
  run1.1 = Ok tt /\ run2.1 = Ok tt
  /\ moved run2.2
     = [(doc2, path_of ["organized"; "Python_Programming_Tutorial_1.txt"]);
        (doc1, path_of ["organized"; "Python_Programming_Tutorial.txt"])]
  /\ run3.1 = Ok tt
  /\ moved run3.2
     = [(doc1, path_of ["organized"; "document_20240307_090500.txt"])]
  /\ bool_decide (doc1 ∈ files run3.2) = false.
Proof. vm_compute. repeat split. Qed.

(** tests/test_config.py: defaults, a partial file, a missing, a
    malformed and an empty file, the environment against the file, a
    variable that is no integer, the validation, and [get]. *)
Example config_unit_tests :
  let document entries := Config.Parsed (Config.VDict entries) in
  let section name key v := (lit name, Config.VDict [(lit key, v)]) in
  let partial :=
    document [ section "llm" "mode" (Config.VStr (lit "bedrock"));
               section "processing" "retry_attempts" (Config.VInt 10) ] in
  let build variables file :=
    Config.__init__ (surroundings_with variables file)
      (Some (lit "config.yaml")) in
  let setting variables file path :=
    Config.and_then (build variables file)
      (fun config => Config.lookup config path) in
  let fails variables file why :=
    build variables file = Config.Throw (Config.ConfigurationError why) in
  Config.__init__ (surroundings_with [] Config.Missing) None
    = Config.Return Config.DEFAULTS
  /\ setting [] partial ["llm"; "mode"]
     = Config.Return (Config.VStr (lit "bedrock"))
  /\ setting [] partial ["processing"; "retry_attempts"]
     = Config.Return (Config.VInt 10)
  /\ setting [] partial ["processing"; "content_sample_length"]
     = Config.Return (Config.VInt 1000)
  /\ setting [] partial ["logging"; "level"]
     = Config.Return (Config.VStr (lit "INFO"))
  /\ fails [] Config.Missing Config.FileNotFound
  /\ fails [] Config.Malformed Config.YamlParseFailed
  /\ fails [] (Config.Parsed (Config.VStr (lit "just a string")))
       Config.NotADictionary
  /\ build [] (Config.Parsed Config.VNone) = Config.Return Config.DEFAULTS
  /\ setting [("LLM_MODE", "bedrock"); ("RETRY_ATTEMPTS", "10")]
       (document [ section "llm" "mode" (Config.VStr (lit "simulated"));
                   section "processing" "retry_attempts" (Config.VInt 3) ])
       ["llm"; "mode"]
     = Config.Return (Config.VStr (lit "bedrock"))
  /\ setting [("LLM_MODE", "bedrock"); ("RETRY_ATTEMPTS", "10")]
       (document [ section "llm" "mode" (Config.VStr (lit "simulated"));
                   section "processing" "retry_attempts" (Config.VInt 3) ])
       ["processing"; "retry_attempts"]
     = Config.Return (Config.VInt 10)
  /\ Config.__init__
       (surroundings_with [("RETRY_ATTEMPTS", "not-a-number")] Config.Missing)
       None
     = Config.Throw
         (Config.ConfigurationError (Config.NotAnInteger "RETRY_ATTEMPTS"))
  /\ fails [] (document [section "llm" "mode" (Config.VStr (lit "invalid-mode"))])
       Config.InvalidLlmMode
  /\ fails [] (document [section "monitoring" "file_types" (Config.VList [])])
       Config.FileTypesNotAList
  /\ fails []
       (document [section "monitoring" "file_types" (Config.VStr (lit "pdf"))])
       Config.FileTypesNotAList
  /\ fails []
       (document [section "processing" "content_sample_length" (Config.VInt (-100))])
       (Config.NotPositive "content_sample_length")
  /\ fails [] (document [section "processing" "retry_attempts" (Config.VInt (-1))])
       (Config.Negative "retry_attempts")
  /\ fails [] (document [section "processing" "retry_delay" (Config.VInt (-5))])
       (Config.Negative "retry_delay")
  /\ fails [] (document [section "logging" "level" (Config.VStr (lit "INVALID"))])
       Config.InvalidLogLevel
  /\ fails []
       (document [section "llm" "bedrock"
                    (Config.VDict [(lit "max_tokens", Config.VInt 0)])])
       (Config.NotPositive "max_tokens")
  /\ Config.get Config.DEFAULTS (lit "llm.mode") Config.VNone
     = Config.VStr (lit "simulated")
  /\ Config.get Config.DEFAULTS (lit "processing.retry_attempts") Config.VNone
     = Config.VInt 3
  /\ Config.get Config.DEFAULTS (lit "llm.bedrock.model") Config.VNone
     = Config.VStr (lit "anthropic.claude-v2")
  /\ Config.get Config.DEFAULTS (lit "nonexistent.key")
       (Config.VStr (lit "default"))
     = Config.VStr (lit "default")
  /\ Config.get Config.DEFAULTS (lit "llm.nonexistent") Config.VNone
     = Config.VNone.
Proof. vm_compute. repeat split. Qed.

(** tests/test_file_monitor.py: the three supported types are processed,
    other types and directories are not. *)
Example monitor_unit_tests :
  let created name :=
    {| FileMonitor.is_directory := false;
       FileMonitor.src_path := path_of ["in"; name] |} in
  let state name :=
    {| FileMonitor.world :=
         world_with [path_of ["in"; name]] (fun _ => text_file "test content") [];
       FileMonitor.pauses := 0 |} in
  let handled name :=
    FileMonitor.on_created (U:=ascii_db) 2 (default_processor ["out"])
      (created name) (state name) in
  let ignored name := handled name = (Ok tt, state name) in
  FileMonitor.pauses (handled "test.pdf").2 = 1%nat
  /\ FileMonitor.pauses (handled "test.txt").2 = 1%nat
  /\ FileMonitor.pauses (handled "test.text").2 = 1%nat
  /\ ignored "test.doc" /\ ignored "test.docx" /\ ignored "test.jpg"
  /\ ignored "test.png" /\ ignored "test.zip"
  /\ FileMonitor.on_created (U:=ascii_db) 2 (default_processor ["out"])
       {| FileMonitor.is_directory := true;
          FileMonitor.src_path := path_of ["in"; "test_directory"] |}
       (state "test_directory")
     = (Ok tt, state "test_directory").
Proof. vm_compute. repeat split. Qed.

End UnitTests.
